(** * ai-cad-sdk: the Model-Completions-Protocol core

    A shallow embedding of the MCP core of the SDK
    ([services/cache/aiCache.ts], [adapters/cache/semanticCacheProvider.ts],
    [services/mcp/smartRouter.ts], [services/mcp/mcpService.ts]) and the
    properties its specification states about it.

    Conventions.  A JavaScript [Map] is an association list in insertion
    order; [Date.now()] is an explicit argument (or the clock of the
    executor's world); millisecond times and token counts are in [Z];
    scores, costs and similarities are in [Q] (the rounding of the
    code's floating-point arithmetic is not modelled); an optional field
    is an [option]; a caught exception is a value of a sum type. *)

From Stdlib Require Import ZArith QArith Qround List String Ascii Bool Lia Arith.
From Stdlib Require Import DecimalString.
From Stdlib Require HexadecimalString HexadecimalN DecimalZ.
From Stdlib Require Import Permutation.
From Equations Require Import Equations.
Import ListNotations.

Open Scope string_scope.
Open Scope list_scope.
Open Scope Z_scope.

(** ** JavaScript values used by the code *)

(** Truthiness of a string that may be [undefined]: [if (s)]. *)
Definition truthy (s : option string) : bool :=
  match s with
  | Some s => negb (String.eqb s "")
  | None => false
  end.

(** [x || d] on a number that may be [undefined]: [0] is falsy. *)
Definition or_default (x : option Z) (d : Z) : Z :=
  match x with
  | Some v => if v =? 0 then d else v
  | None => d
  end.

(** Rendering of an integer in a template literal. *)
Definition string_of_Z (z : Z) : string :=
  NilZero.string_of_int (Z.to_int z).

(** [n.toString(16)] of an integer that is not negative. *)
Definition hex_of_Z (z : Z) : string :=
  HexadecimalString.NilZero.string_of_uint (N.to_hex_uint (Z.to_N z)).

(** [ToInt32]: wrap-around to a signed 32-bit integer. *)
Definition toInt32 (z : Z) : Z :=
  (z + 2 ^ 31) mod 2 ^ 32 - 2 ^ 31.

(** ** [Map<string, V>], in insertion order *)

Module JsMap.
Section Defs.
Context {V : Type}.

Definition t := list (string * V).

Fixpoint get (k : string) (m : t) : option V :=
  match m with
  | [] => None
  | (k', v) :: m' => if String.eqb k' k then Some v else get k m'
  end.

Definition has (k : string) (m : t) : bool :=
  match get k m with Some _ => true | None => false end.

(** [set] keeps the position of a key that is present, and appends a
    new one. *)
Fixpoint set (k : string) (v : V) (m : t) : t :=
  match m with
  | [] => [(k, v)]
  | (k', v') :: m' =>
      if String.eqb k' k then (k', v) :: m' else (k', v') :: set k v m'
  end.

Definition delete (k : string) (m : t) : t :=
  filter (fun e => negb (String.eqb (fst e) k)) m.

Definition size (m : t) : Z := Z.of_nat (List.length m).

Definition keys (m : t) : list string := map fst m.
End Defs.
Arguments t : clear implicits.
End JsMap.

(** ** [AICache] (services/cache/aiCache.ts) *)

Module AICache.

(** The loop of [hashString]: [hash = (hash << 5) - hash + char], then
    [hash & hash], for every character. *)
Fixpoint hash_from (hash : Z) (str : string) : Z :=
  match str with
  | EmptyString => hash
  | String c rest =>
      let char := Z.of_nat (nat_of_ascii c) in
      let h := toInt32 (Z.shiftl (toInt32 hash) 5) - hash + char in
      hash_from (toInt32 h) rest
  end.

(** [hashString(str)]. *)
Definition hashString (str : string) : string :=
  hex_of_Z (Z.abs (hash_from 0 str)).

(** [getKeyForRequest(payload)]: [payloadString] is what
    [JSON.stringify(payload)] returns, [None] when it throws or returns
    [undefined] (then [hashString] throws); [rnd] is the rendering of
    [Math.random()]. *)
Definition getKeyForRequest (payloadString : option string) (now : Z)
    (rnd : string) : string :=
  match payloadString with
  | Some s => ("cache-" ++ hashString s)%string
  | None => ("cache-error-" ++ string_of_Z now ++ "-" ++ rnd)%string
  end.

Section Defs.
Context {T : Type}.

Record CacheItem := {
  data : T;
  timestamp : Z;
  expiresAt : Z;
  hash : string
}.

Record CacheOptions := {
  ttl : Z;
  maxSize : Z;
  storageKey : string;
  persistToDisk : bool
}.

Record t := {
  cache : JsMap.t CacheItem;
  options : CacheOptions
}.

(** The constructor: [options.ttl || 1000 * 60 * 30] and so on. *)
Definition create (ttl maxSize : option Z) (storageKey : option string)
    (persist : option bool) : t :=
  {| cache := [];
     options :=
       {| ttl := or_default ttl (1000 * 60 * 30);
          maxSize := or_default maxSize 100;
          storageKey :=
            (if truthy storageKey
             then match storageKey with Some s => s | None => "" end
             else "ai_cache");
          persistToDisk :=
            match persist with Some b => b | None => false end |} |}.

Definition with_cache (c : t) (m : JsMap.t CacheItem) : t :=
  {| cache := m; options := options c |}.

(** [get(key)]: the data of an entry that is present and not expired;
    an expired entry is deleted. *)
Definition get (c : t) (key : string) (now : Z) : option T * t :=
  match JsMap.get key (cache c) with
  | None => (None, c)
  | Some item =>
      if expiresAt item <? now
      then (None, with_cache c (JsMap.delete key (cache c)))
      else (Some (data item), c)
  end.

(** The [forEach] of [removeOldestItem]: the running oldest key and
    timestamp. *)
Definition oldest_step (acc : option string * Z) (e : string * CacheItem)
    : option string * Z :=
  if timestamp (snd e) <? snd acc
  then (Some (fst e), timestamp (snd e))
  else acc.

Definition removeOldestItem (c : t) (now : Z) : t :=
  let oldestKey := fst (fold_left oldest_step (cache c) (None, now)) in
  if truthy oldestKey
  then match oldestKey with
       | Some k => with_cache c (JsMap.delete k (cache c))
       | None => c
       end
  else c.

(** [set(key, data, customTtl)]. *)
Definition set (c : t) (key : string) (d : T) (customTtl : option Z)
    (now : Z) : t :=
  let ttl := or_default customTtl (ttl (options c)) in
  let c1 :=
    if maxSize (options c) <=? JsMap.size (cache c)
    then removeOldestItem c now
    else c in
  let cacheItem :=
    {| data := d; timestamp := now; expiresAt := now + ttl; hash := key |} in
  with_cache c1 (JsMap.set key cacheItem (cache c1)).

(** [has(key)]. *)
Definition has (c : t) (key : string) (now : Z) : bool * t :=
  match JsMap.get key (cache c) with
  | None => (false, c)
  | Some item =>
      if expiresAt item <? now
      then (false, with_cache c (JsMap.delete key (cache c)))
      else (true, c)
  end.

(** [clear()]. *)
Definition clear (c : t) : t := with_cache c [].

(** [clearExpired()]: its [forEach] deletes each expired entry as it
    meets it. *)
Definition expire_step (now : Z) (m : JsMap.t CacheItem)
    (e : string * CacheItem) : JsMap.t CacheItem :=
  if expiresAt (snd e) <? now then JsMap.delete (fst e) m else m.

Definition clearExpired (c : t) (now : Z) : t :=
  with_cache c (fold_left (expire_step now) (cache c) (cache c)).

(** [setTTL(ttl)]. *)
Definition setTTL (c : t) (newTtl : Z) : t :=
  {| cache := cache c;
     options := {| ttl := newTtl; maxSize := maxSize (options c);
                   storageKey := storageKey (options c);
                   persistToDisk := persistToDisk (options c) |} |}.

(** The loop of [setMaxSize], [while (size > maxSize) removeOldestItem()]:
    [clock i] is what [Date.now()] reads in the call of
    [removeOldestItem] numbered [i]; the result is [None] when the loop
    has not ended within [fuel] rounds. *)
Fixpoint shrink (fuel : nat) (clock : nat -> Z) (i : nat) (c : t)
    : option t :=
  if maxSize (options c) <? JsMap.size (cache c) then
    match fuel with
    | O => None
    | S fuel' => shrink fuel' clock (S i) (removeOldestItem c (clock i))
    end
  else Some c.

(** [setMaxSize(maxSize)]. *)
Definition setMaxSize (fuel : nat) (clock : nat -> Z) (c : t) (newMax : Z)
    : option t :=
  shrink fuel clock 0
    {| cache := cache c;
       options := {| ttl := ttl (options c); maxSize := newMax;
                     storageKey := storageKey (options c);
                     persistToDisk := persistToDisk (options c) |} |}.

Definition size (c : t) : Z := JsMap.size (cache c).
End Defs.
Arguments CacheItem : clear implicits.
Arguments t : clear implicits.
End AICache.

(** ** Numbers: comparisons on [Q] as the code writes them *)

Definition Qleb (x y : Q) : bool := Qle_bool x y.
Definition Qltb (x y : Q) : bool := negb (Qle_bool y x).

(** ** [BasicSemanticCacheProvider] (adapters/cache/semanticCacheProvider.ts) *)

Module SemanticCache.

(** [simpleHash(str, seed)]: [hash = (hash << 5) - hash + charCode],
    then [hash & hash], for every character. *)
Fixpoint simpleHash_from (hash : Z) (str : string) : Z :=
  match str with
  | EmptyString => hash
  | String c rest =>
      let h := toInt32 (Z.shiftl (toInt32 hash) 5) - hash
               + Z.of_nat (nat_of_ascii c) in
      simpleHash_from (toInt32 h) rest
  end.

Definition simpleHash (str : string) (seed : Z) : Z :=
  simpleHash_from seed str.

Section Defs.
(** The response type, and the embedding arithmetic, which the code
    does in floating point: the vectors and their cosine are taken as
    given. *)
Context {R : Type}.
Variable Embedding : Type.
Variable getEmbedding : string -> Embedding.
Variable cosineSimilarity : Embedding -> Embedding -> Q.

Record Entry := {
  embedding : Embedding;
  response : R;
  expiresAt : Z;
  query : string;
  systemPrompt : option string;
  model : option string
}.

Record SemanticCacheResult := {
  res_response : R;
  similarity : Q;
  cacheKey : string
}.

Record FindOptions := {
  opt_model : option string;
  opt_systemPrompt : option string;
  minSimilarity : Q
}.

Record StoreOptions := {
  st_model : option string;
  st_systemPrompt : option string;
  st_ttl : Z
}.

Definition t := JsMap.t Entry.

(** [options.model && entry.model && entry.model !== options.model]. *)
Definition wrong_model (o : FindOptions) (e : Entry) : bool :=
  truthy (opt_model o) && truthy (model e)
  && match opt_model o, model e with
     | Some a, Some b => negb (String.eqb b a)
     | _, _ => false
     end.

(** The state of the loop of [findSimilar]. *)
Record Scan := {
  highestSimilarity : Q;
  bestMatch : option SemanticCacheResult;
  scan_cache : t
}.

Definition scan_step (queryEmbedding : Embedding) (o : FindOptions)
    (now : Z) (st : Scan) (ke : string * Entry) : Scan :=
  let (key, entry) := ke in
  if expiresAt entry <? now then
    {| highestSimilarity := highestSimilarity st;
       bestMatch := bestMatch st;
       scan_cache := JsMap.delete key (scan_cache st) |}
  else if wrong_model o entry then st
  else
    let s := cosineSimilarity queryEmbedding (embedding entry) in
    if Qltb (highestSimilarity st) s && Qleb (minSimilarity o) s then
      {| highestSimilarity := s;
         bestMatch :=
           Some {| res_response := response entry;
                   similarity := s;
                   cacheKey := key |};
         scan_cache := scan_cache st |}
    else st.

Definition findSimilar (c : t) (q : string) (o : FindOptions) (now : Z)
    : option SemanticCacheResult * t :=
  let st :=
    fold_left (scan_step (getEmbedding q) o now) c
      {| highestSimilarity := (-1)%Q; bestMatch := None; scan_cache := c |}
  in (bestMatch st, scan_cache st).

(** [store(query, response, options)]. *)
Definition store (c : t) (q : string) (r : R) (o : StoreOptions) (now : Z)
    : string * t :=
  let cacheKey :=
    ("semantic:" ++ string_of_Z now ++ ":"
       ++ string_of_Z (simpleHash q 0))%string in
  (cacheKey,
   JsMap.set cacheKey
     {| embedding := getEmbedding q;
        response := r;
        query := q;
        systemPrompt := st_systemPrompt o;
        model := st_model o;
        expiresAt := now + st_ttl o |} c).
End Defs.
Arguments Entry : clear implicits.
Arguments SemanticCacheResult : clear implicits.
Arguments t : clear implicits.
Arguments Scan : clear implicits.
End SemanticCache.

(** ** [AIAnalytics] (adapters/cache/semanticCacheProvider.ts, second part) *)

Module AIAnalytics.

Inductive EventType := request | response | error | feedback | mcp.

(** The fields of [AIAnalyticsEvent] that the class reads. *)
Record AIAnalyticsEvent := {
  eventType : EventType;
  eventName : string;
  timestamp : Z;
  duration : option Q;
  model : option string;
  promptTokens : option Z;
  completionTokens : option Z;
  success : option bool;
  errorType : option string
}.

(** [{...event, timestamp: Date.now()}]. *)
Definition stamp (e : AIAnalyticsEvent) (now : Z) : AIAnalyticsEvent :=
  {| eventType := eventType e; eventName := eventName e; timestamp := now;
     duration := duration e; model := model e;
     promptTokens := promptTokens e;
     completionTokens := completionTokens e; success := success e;
     errorType := errorType e |}.

Definition MAX_EVENTS : nat := 1000.

(** [l.slice(-n)], for [n > 0]: the last [n] elements. *)
Definition slice_last {A} (n : nat) (l : list A) : list A :=
  skipn (List.length l - n) l.

Section Defs.
(** The performance metrics and their update from the recent events,
    which the code computes in floating point, are taken as given:
    [updateMetrics metrics events now event] is the value of [metrics]
    after [updateMetrics(event)] on the log [events] when [Date.now()]
    reads [now]. *)
Variable Metrics : Type.
Variable updateMetrics :
  Metrics -> list AIAnalyticsEvent -> Z -> AIAnalyticsEvent -> Metrics.

Record t := {
  events : list AIAnalyticsEvent;
  metrics : Metrics;
  isEnabled : bool
}.

(** The constructor: [config?.enabled ?? true], and the initial
    metrics. *)
Definition create (enabled : option bool) (initial : Metrics) : t :=
  {| events := []; metrics := initial;
     isEnabled := match enabled with Some b => b | None => true end |}.

Definition setEnabled (s : t) (enabled : bool) : t :=
  {| events := events s; metrics := metrics s; isEnabled := enabled |}.

(** [pruneEvents()]. *)
Definition pruneEvents (s : t) : t :=
  if (MAX_EVENTS <? List.length (events s))%nat
  then {| events := slice_last MAX_EVENTS (events s);
          metrics := metrics s; isEnabled := isEnabled s |}
  else s.

(** [trackEvent(event)]: [now] is the time of the event, [now'] what
    [Date.now()] reads in [updateMetrics]. *)
Definition trackEvent (s : t) (event : AIAnalyticsEvent) (now now' : Z)
    : t :=
  if negb (isEnabled s) then s
  else
    let fullEvent := stamp event now in
    let events1 := events s ++ [fullEvent] in
    pruneEvents
      {| events := events1;
         metrics := updateMetrics (metrics s) events1 now' fullEvent;
         isEnabled := isEnabled s |}.

(** [getRecentEvents(seconds)]. *)
Definition getRecentEvents (s : t) (seconds : Z) (now : Z)
    : list AIAnalyticsEvent :=
  let cutoffTime := now - seconds * 1000 in
  filter (fun e => cutoffTime <=? timestamp e) (events s).

(** A sequence of calls of [trackEvent], each with its two readings of
    the clock. *)
Definition trackAll (s : t) (calls : list (AIAnalyticsEvent * Z * Z)) : t :=
  fold_left (fun s c => trackEvent s (fst (fst c)) (snd (fst c)) (snd c))
    calls s.
End Defs.
End AIAnalytics.

(** ** Core types (types/index.d.ts) *)

Inductive AIModelType :=
| claude_3_5_sonnet_20240229
| claude_3_opus_20240229
| claude_3_haiku_20240229
| claude_3_7_sonnet_20250219
| gpt_4
| gpt_4_1
| gpt_4_turbo_preview
| gpt_3_5_turbo
| gpt_4o
| gpt_4o_mini.

(** The string a model is in the source. *)
Definition modelName (m : AIModelType) : string :=
  match m with
  | claude_3_5_sonnet_20240229 => "claude-3-5-sonnet-20240229"
  | claude_3_opus_20240229 => "claude-3-opus-20240229"
  | claude_3_haiku_20240229 => "claude-3-haiku-20240229"
  | claude_3_7_sonnet_20250219 => "claude-3-7-sonnet-20250219"
  | gpt_4 => "gpt-4"
  | gpt_4_1 => "gpt-4.1"
  | gpt_4_turbo_preview => "gpt-4-turbo-preview"
  | gpt_3_5_turbo => "gpt-3.5-turbo"
  | gpt_4o => "gpt-4o"
  | gpt_4o_mini => "gpt-4o-mini"
  end.

Inductive AIProviderType := claude | openai | CLAUDE | OPENAI.

Definition AIProviderType_eqb (a b : AIProviderType) : bool :=
  match a, b with
  | claude, claude | openai, openai | CLAUDE, CLAUDE | OPENAI, OPENAI => true
  | _, _ => false
  end.

Inductive CacheStrategy := exact | semantic | hybrid.
Inductive Priority := speed | quality | cost.
Inductive Complexity := low | medium | high.

Record MCPRequestParams := {
  cacheStrategy : CacheStrategy;
  minSimilarity : option Q;
  cacheTTL : option Z;
  priority : option Priority;
  storeResult : option bool;
  multiProviderEnabled : option bool;
  preferredProvider : option AIProviderType
}.

(** ** [SmartRouter] (services/mcp/smartRouter.ts) *)

Module SmartRouter.

(** The fields of [ModelMetadata] that the router computes with (the
    descriptive lists [strengths], [weaknesses] and [suitableFor] are
    never read). *)
Record ModelMetadata := {
  provider : AIProviderType;
  contextSize : Z;
  costPerInputToken : Q;
  costPerOutputToken : Q;
  averageResponseTimeMs : Q;
  capabilities : list (string * Q)
}.

Definition caps (reasoning creativity codeGeneration mathPrecision
    factualAccuracy contextUnderstanding : Q) : list (string * Q) :=
  [("reasoning", reasoning); ("creativity", creativity);
   ("codeGeneration", codeGeneration); ("mathPrecision", mathPrecision);
   ("factualAccuracy", factualAccuracy);
   ("contextUnderstanding", contextUnderstanding)].

(** The keys of [modelsMetadata], in the order of the object literal. *)
Definition models : list AIModelType :=
  [claude_3_7_sonnet_20250219; claude_3_opus_20240229;
   claude_3_5_sonnet_20240229; claude_3_haiku_20240229;
   gpt_4o; gpt_4o_mini; gpt_4; gpt_4_1; gpt_4_turbo_preview;
   gpt_3_5_turbo].

Definition modelsMetadata (m : AIModelType) : ModelMetadata :=
  match m with
  | claude_3_7_sonnet_20250219 =>
      Build_ModelMetadata CLAUDE 200000 0.00000388 0.00001554 2000
        (caps 9 8 7 6 8 9)
  | claude_3_opus_20240229 =>
      Build_ModelMetadata CLAUDE 180000 0.000015 0.000044 3500
        (caps 9.5 8.5 8 7 9 9.5)
  | claude_3_5_sonnet_20240229 =>
      Build_ModelMetadata CLAUDE 180000 0.000003 0.000009 2200
        (caps 7.5 7 7 6 8 8)
  | claude_3_haiku_20240229 =>
      Build_ModelMetadata CLAUDE 180000 0.00000025 0.00000125 1000
        (caps 5 5 5 4 6 5)
  | gpt_4o =>
      Build_ModelMetadata OPENAI 128000 0.000005 0.000015 1800
        (caps 8.5 8 9 8 8 8.5)
  | gpt_4o_mini =>
      Build_ModelMetadata OPENAI 128000 0.0000015 0.000006 1000
        (caps 6 6 7 5 7 6)
  | gpt_4 =>
      Build_ModelMetadata OPENAI 8192 0.00003 0.00006 3000
        (caps 8 7.5 9 7.5 8 8)
  | gpt_4_1 =>
      Build_ModelMetadata OPENAI 16000 0.000075 0.00012 4000
        (caps 8.5 8 9.5 9 8.5 8.5)
  | gpt_4_turbo_preview =>
      Build_ModelMetadata OPENAI 128000 0.00001 0.00003 2500
        (caps 8.5 8 9 8 8.5 9)
  | gpt_3_5_turbo =>
      Build_ModelMetadata OPENAI 16000 0.0000005 0.0000015 800
        (caps 5 5 6 4 6 5)
  end.

(** A partial override of a model's metadata, and the spread
    [{...metadata, ...ratings}] of the constructor. *)
Record PartialMetadata := {
  p_provider : option AIProviderType;
  p_contextSize : option Z;
  p_costPerInputToken : option Q;
  p_costPerOutputToken : option Q;
  p_averageResponseTimeMs : option Q;
  p_capabilities : option (list (string * Q))
}.

Definition over {A} (o : option A) (d : A) : A :=
  match o with Some a => a | None => d end.

Definition merge (md : ModelMetadata) (r : PartialMetadata) : ModelMetadata :=
  {| provider := over (p_provider r) (provider md);
     contextSize := over (p_contextSize r) (contextSize md);
     costPerInputToken := over (p_costPerInputToken r) (costPerInputToken md);
     costPerOutputToken :=
       over (p_costPerOutputToken r) (costPerOutputToken md);
     averageResponseTimeMs :=
       over (p_averageResponseTimeMs r) (averageResponseTimeMs md);
     capabilities := over (p_capabilities r) (capabilities md) |}.

(** The router's table after the constructor has applied
    [customModelRatings]. *)
Definition create (customModelRatings : AIModelType -> option PartialMetadata)
    (m : AIModelType) : ModelMetadata :=
  match customModelRatings m with
  | Some r => merge (modelsMetadata m) r
  | None => modelsMetadata m
  end.

(** A property of an object with string keys. *)
Fixpoint prop {A} (k : string) (o : list (string * A)) : option A :=
  match o with
  | [] => None
  | (k', v) :: o' => if String.eqb k' k then Some v else prop k o'
  end.

(** The names that an object literal inherits from [Object.prototype].
    Looking one of them up in an object that has no own property of that
    name gives the inherited member - a function, or [Object.prototype]
    itself under [__proto__] - which is truthy and has no enumerable
    property of its own. *)
Definition inheritedNames : list string :=
  ["constructor"; "__defineGetter__"; "__defineSetter__"; "hasOwnProperty";
   "__lookupGetter__"; "__lookupSetter__"; "isPrototypeOf";
   "propertyIsEnumerable"; "toString"; "valueOf"; "__proto__";
   "toLocaleString"].

Definition inherited (k : string) : bool :=
  existsb (String.eqb k) inheritedNames.

(** The property key that an inherited member becomes when it is used
    as an index: the text of a built-in function (as V8 renders it), or
    of [Object.prototype]. *)
Definition memberKey (k : string) : string :=
  if String.eqb k "__proto__" then "[object Object]"
  else ("function "
        ++ (if String.eqb k "constructor" then "Object" else k)
        ++ "() { [native code] }")%string.

(** [mapping[capability] || capability]; the result is used as an index
    of [metadata.capabilities]. *)
Definition mapCapabilityToMetadataField (capability : string) : string :=
  match
    prop capability
      [("reasoning", "reasoning"); ("creative", "creativity");
       ("code", "codeGeneration"); ("math", "mathPrecision");
       ("factual", "factualAccuracy"); ("context", "contextUnderstanding")]
  with
  | Some f => if String.eqb f "" then capability else f
  | None => if inherited capability then memberKey capability else capability
  end.

Definition defaultWeights : list (string * Q) :=
  [("reasoning", 0.2); ("creativity", 0.2); ("codeGeneration", 0.15);
   ("mathPrecision", 0.15); ("factualAccuracy", 0.15);
   ("contextUnderstanding", 0.15)]%Q.

Definition taskWeights : list (string * list (string * Q)) :=
  [("general", defaultWeights);
   ("code", [("codeGeneration", 0.5); ("reasoning", 0.2);
             ("contextUnderstanding", 0.2); ("factualAccuracy", 0.1)]);
   ("creative", [("creativity", 0.5); ("contextUnderstanding", 0.2);
                 ("reasoning", 0.2); ("factualAccuracy", 0.1)]);
   ("analysis", [("reasoning", 0.4); ("factualAccuracy", 0.3);
                 ("contextUnderstanding", 0.2); ("mathPrecision", 0.1)]);
   ("math", [("mathPrecision", 0.5); ("reasoning", 0.3);
             ("factualAccuracy", 0.2)]);
   ("factual", [("factualAccuracy", 0.6); ("contextUnderstanding", 0.2);
                ("reasoning", 0.2)]);
   ("cad", [("reasoning", 0.3); ("factualAccuracy", 0.3);
            ("codeGeneration", 0.2); ("contextUnderstanding", 0.2)])]%Q.

(** [taskWeights[taskType] || defaultWeights], as the list of entries
    that [Object.entries] gives: an inherited member has none. *)
Definition getRelevantCapabilities (taskType : string) : list (string * Q) :=
  match prop taskType taskWeights with
  | Some w => w
  | None => if inherited taskType then [] else defaultWeights
  end.

Definition complexityMultiplier (c : Complexity) : Q :=
  match c with low => 0.7 | medium => 1.0 | high => 1.3 end.

(** A capability score that is defined and not zero. *)
Definition truthy_score (o : option Q) : option Q :=
  match o with
  | Some v => if Qeq_bool v 0 then None else Some v
  | None => None
  end.

Definition quality_step (md : ModelMetadata) (acc : Q * Q)
    (cw : string * Q) : Q * Q :=
  match truthy_score (prop (fst cw) (capabilities md)) with
  | Some v => (fst acc + v * snd cw, snd acc + snd cw)%Q
  | None => acc
  end.

(** [calculateQualityScore]; the sums, the quotient and the product are
    exact here, where the code rounds each of them to a double. *)
Definition calculateQualityScore (md : ModelMetadata) (taskType : string)
    (complexityLevel : Complexity) : Q :=
  let relevantCapabilities := getRelevantCapabilities taskType in
  let '(weightedScore, totalWeight) :=
    fold_left (quality_step md) relevantCapabilities (0, 0)%Q in
  if Qltb 0 totalWeight
  then (weightedScore / totalWeight * complexityMultiplier complexityLevel)%Q
  else 5%Q.

Record SelectOptions := {
  o_taskType : option string;
  o_promptTokenEstimate : option Q;
  o_outputTokenEstimate : option Q;
  o_priority : option Priority;
  o_requiredCapabilities : option (list string);
  o_preferredProvider : option AIProviderType;
  o_complexityLevel : option Complexity
}.

Record Weights := { w_speed : Q; w_quality : Q; w_cost : Q }.

Definition priorityWeights (p : Priority) : Weights :=
  match p with
  | speed => {| w_speed := 0.6; w_quality := 0.3; w_cost := 0.1 |}
  | quality => {| w_speed := 0.1; w_quality := 0.8; w_cost := 0.1 |}
  | cost => {| w_speed := 0.2; w_quality := 0.2; w_cost := 0.6 |}
  end.

Definition complexityFactors (c : Complexity) : Q :=
  match c with low => 3 | medium => 6 | high => 8 end.

Record Score := {
  totalScore : Q;
  qualityScore : Q;
  speedScore : Q;
  costScore : Q;
  meetsRequirements : bool
}.

Definition lacking : Score :=
  {| totalScore := 0; qualityScore := 0; speedScore := 0; costScore := 0;
     meetsRequirements := false |}.

Definition capabilityMet (md : ModelMetadata) (requiredLevel : Q)
    (cap : string) : bool :=
  match prop (mapCapabilityToMetadataField cap) (capabilities md) with
  | Some v => Qleb requiredLevel v
  | None => false
  end.

Definition Qmin' (a b : Q) : Q := if Qltb b a then b else a.

Section Select.
Variable metadata : AIModelType -> ModelMetadata.
Variable options : SelectOptions.

Let taskType := over (o_taskType options) "general".
Let promptTokenEstimate := over (o_promptTokenEstimate options) 500%Q.
Let outputTokenEstimate := over (o_outputTokenEstimate options) 800%Q.
Let priority := over (o_priority options) quality.
Let requiredCapabilities := over (o_requiredCapabilities options) [].
Let preferredProvider := o_preferredProvider options.
Let complexityLevel := over (o_complexityLevel options) medium.

(** The body of the first loop for one model: [None] when the model
    is skipped, otherwise its entry of [modelScores]. *)
Definition scoreModel (m : AIModelType) : option Score :=
  let md := metadata m in
  let skipped :=
    match preferredProvider with
    | Some p => negb (AIProviderType_eqb (provider md) p)
    | None => false
    end in
  if skipped then None
  else if negb (forallb (capabilityMet md (complexityFactors complexityLevel))
                  requiredCapabilities)
  then Some lacking
  else
    let w := priorityWeights priority in
    let qualityScore :=
      calculateQualityScore md taskType complexityLevel in
    let speedScore := (10 - averageResponseTimeMs md / 500)%Q in
    let totalCostEstimate :=
      (promptTokenEstimate * costPerInputToken md
       + outputTokenEstimate * costPerOutputToken md)%Q in
    let maxCost := 0.1%Q in
    let costScore :=
      (10 - Qmin' totalCostEstimate maxCost / maxCost * 10)%Q in
    let totalScore :=
      (qualityScore * w_quality w + speedScore * w_speed w
       + costScore * w_cost w)%Q in
    Some {| totalScore := totalScore; qualityScore := qualityScore;
            speedScore := speedScore; costScore := costScore;
            meetsRequirements := true |}.

(** [modelScores], in the order its keys were added. *)
Definition modelScores : list (AIModelType * Score) :=
  flat_map
    (fun m => match scoreModel m with
              | Some s => [(m, s)]
              | None => []
              end)
    models.

Definition best_step (acc : AIModelType * Q) (ms : AIModelType * Score)
    : AIModelType * Q :=
  if meetsRequirements (snd ms) && Qltb (snd acc) (totalScore (snd ms))
  then (fst ms, totalScore (snd ms))
  else acc.

Definition selectModel : AIModelType :=
  fst (fold_left best_step modelScores
         (claude_3_7_sonnet_20250219, (-1)%Q)).
End Select.

Definition getModelMetadata (metadata : AIModelType -> ModelMetadata)
    (m : AIModelType) : ModelMetadata := metadata m.

Definition getProviderForModel (metadata : AIModelType -> ModelMetadata)
    (m : AIModelType) : AIProviderType := provider (metadata m).

Definition estimateCost (metadata : AIModelType -> ModelMetadata)
    (m : AIModelType) (inputTokens outputTokens : Q) : Q :=
  (inputTokens * costPerInputToken (metadata m)
   + outputTokens * costPerOutputToken (metadata m))%Q.
End SmartRouter.

(** ** [MCPConfigManager] (services/mcp/smartRouter.ts, second part) *)

Module MCPConfigManager.

Inductive Strategy := aggressive | balanced | conservative.

Record MCPStrategyConfig := {
  s_cacheStrategy : CacheStrategy;
  s_minSimilarity : Q;
  s_cacheTTL : Z;
  s_priority : Priority;
  s_storeResult : bool
}.

Definition strategyConfigs0 (s : Strategy) : MCPStrategyConfig :=
  match s with
  | aggressive =>
      {| s_cacheStrategy := hybrid; s_minSimilarity := 0.65;
         s_cacheTTL := 86400000; s_priority := speed;
         s_storeResult := true |}
  | balanced =>
      {| s_cacheStrategy := semantic; s_minSimilarity := 0.8;
         s_cacheTTL := 43200000; s_priority := quality;
         s_storeResult := true |}
  | conservative =>
      {| s_cacheStrategy := exact; s_minSimilarity := 0.95;
         s_cacheTTL := 3600000; s_priority := quality;
         s_storeResult := true |}
  end.

Record t := {
  strategyConfigs : Strategy -> MCPStrategyConfig;
  currentStrategy : Strategy;
  enabled : bool;
  mgr_multiProviderEnabled : bool;
  mgr_preferredProvider : option AIProviderType
}.

Record Options := {
  o_strategy : option Strategy;
  o_enabled : option bool;
  o_multiProviderEnabled : option bool;
  o_preferredProvider : option AIProviderType
}.

Definition create (o : option Options) : t :=
  {| strategyConfigs := strategyConfigs0;
     currentStrategy :=
       match o with
       | Some {| o_strategy := Some s |} => s
       | _ => balanced
       end;
     enabled :=
       match o with
       | Some {| o_enabled := Some b |} => b
       | _ => true
       end;
     mgr_multiProviderEnabled :=
       match o with
       | Some {| o_multiProviderEnabled := Some b |} => b
       | _ => false
       end;
     mgr_preferredProvider :=
       match o with
       | Some {| o_preferredProvider := Some p |} => Some p
       | _ => None
       end |}.

(** The spread of a strategy's configuration with the two
    multi-provider settings. *)
Definition params_of (m : t) (c : MCPStrategyConfig) : MCPRequestParams :=
  {| cacheStrategy := s_cacheStrategy c;
     minSimilarity := Some (s_minSimilarity c);
     cacheTTL := Some (s_cacheTTL c);
     priority := Some (s_priority c);
     storeResult := Some (s_storeResult c);
     multiProviderEnabled := Some (mgr_multiProviderEnabled m);
     preferredProvider := mgr_preferredProvider m |}.

Definition getMCPParams (m : t) : MCPRequestParams :=
  params_of m (strategyConfigs m (currentStrategy m)).

Definition getStrategyParams (m : t) (s : Strategy) : MCPRequestParams :=
  params_of m (strategyConfigs m s).

Definition setStrategy (m : t) (s : Strategy) : t :=
  {| strategyConfigs := strategyConfigs m;
     currentStrategy := s;
     enabled := enabled m;
     mgr_multiProviderEnabled := mgr_multiProviderEnabled m;
     mgr_preferredProvider := mgr_preferredProvider m |}.

Definition setMultiProviderEnabled (m : t) (b : bool) : t :=
  {| strategyConfigs := strategyConfigs m;
     currentStrategy := currentStrategy m;
     enabled := enabled m;
     mgr_multiProviderEnabled := b;
     mgr_preferredProvider := mgr_preferredProvider m |}.

Definition setPreferredProvider (m : t) (p : option AIProviderType) : t :=
  {| strategyConfigs := strategyConfigs m;
     currentStrategy := currentStrategy m;
     enabled := enabled m;
     mgr_multiProviderEnabled := mgr_multiProviderEnabled m;
     mgr_preferredProvider := p |}.

(** [Partial<MCPStrategyConfig>] and [updateStrategyConfig]. *)
Record PartialConfig := {
  u_cacheStrategy : option CacheStrategy;
  u_minSimilarity : option Q;
  u_cacheTTL : option Z;
  u_priority : option Priority;
  u_storeResult : option bool
}.

Definition Strategy_eqb (a b : Strategy) : bool :=
  match a, b with
  | aggressive, aggressive | balanced, balanced
  | conservative, conservative => true
  | _, _ => false
  end.

Definition updateStrategyConfig (m : t) (s : Strategy) (u : PartialConfig)
    : t :=
  let c := strategyConfigs m s in
  let c' :=
    {| s_cacheStrategy := SmartRouter.over (u_cacheStrategy u) (s_cacheStrategy c);
       s_minSimilarity := SmartRouter.over (u_minSimilarity u) (s_minSimilarity c);
       s_cacheTTL := SmartRouter.over (u_cacheTTL u) (s_cacheTTL c);
       s_priority := SmartRouter.over (u_priority u) (s_priority c);
       s_storeResult := SmartRouter.over (u_storeResult u) (s_storeResult c) |} in
  {| strategyConfigs :=
       fun s' => if Strategy_eqb s' s then c' else strategyConfigs m s';
     currentStrategy := currentStrategy m;
     enabled := enabled m;
     mgr_multiProviderEnabled := mgr_multiProviderEnabled m;
     mgr_preferredProvider := mgr_preferredProvider m |}.

(** [cap.toLowerCase()], on the letters of ASCII. *)
Definition lower (c : ascii) : ascii :=
  let n := nat_of_ascii c in
  if (65 <=? n)%nat && (n <=? 90)%nat then ascii_of_nat (n + 32) else c.

Fixpoint toLowerCase (s : string) : string :=
  match s with
  | EmptyString => EmptyString
  | String c rest => String (lower c) (toLowerCase rest)
  end.

Definition modelCapabilitiesMap : list (string * list string) :=
  [("creative", ["creativity"]); ("reasoning", ["reasoning"]);
   ("code", ["codeGeneration"]); ("math", ["mathPrecision"]);
   ("factual", ["factualAccuracy"]);
   ("contextual", ["contextUnderstanding"])].

(** [mapCapabilities(capabilities)]. *)
Definition mapCapabilities (capabilities : list string) : list string :=
  flat_map
    (fun cap =>
       match SmartRouter.prop (toLowerCase cap) modelCapabilitiesMap with
       | Some mappedCaps => mappedCaps
       | None => [cap]
       end)
    capabilities.

(** [getRecommendedModel(taskType, taskComplexity, requiredCapabilities)],
    on the router of the module, which has the table as it is written. *)
Definition getRecommendedModel (m : t) (taskType : string)
    (taskComplexity : option Complexity)
    (requiredCapabilities : option (list string)) : AIModelType :=
  let mappedCapabilities :=
    mapCapabilities (SmartRouter.over requiredCapabilities []) in
  SmartRouter.selectModel SmartRouter.modelsMetadata
    {| SmartRouter.o_taskType := Some taskType;
       SmartRouter.o_promptTokenEstimate := None;
       SmartRouter.o_outputTokenEstimate := None;
       SmartRouter.o_priority :=
         Some (s_priority (strategyConfigs m (currentStrategy m)));
       SmartRouter.o_requiredCapabilities := Some mappedCapabilities;
       SmartRouter.o_preferredProvider := mgr_preferredProvider m;
       SmartRouter.o_complexityLevel :=
         Some (SmartRouter.over taskComplexity medium) |}.

End MCPConfigManager.

(** ** [MCPService] (services/mcp/mcpService.ts) *)

Module MCPService.

Record PriorityLevels := { lv_high : Z; lv_normal : Z; lv_low : Z }.

(** A number of JavaScript other than [Infinity]: a rational, [NaN] or
    [-Infinity]. *)
Inductive JsNumber :=
| Num (q : Q)
| NaN
| NegInfinity.

(** [n < x] for a count [n]: every comparison with [NaN] is false. *)
Definition below (n : nat) (x : JsNumber) : bool :=
  match x with
  | Num q => Qltb (inject_Z (Z.of_nat n)) q
  | NaN | NegInfinity => false
  end.

(** How many of the counts 0, 1, 2, ... are below [x]. *)
Definition countsBelow (x : JsNumber) : nat :=
  match x with
  | Num q => Z.to_nat (Qceiling q)
  | NaN | NegInfinity => 0
  end.

(** The constructor spreads the caller's options over the defaults and
    checks none of them: [maxRetries] is whatever number was given.
    Here it is any number but [Infinity]; under [maxRetries = Infinity]
    the executor is [executeRequest_Infinity] below. *)
Record MCPOptions := {
  maxRetries : JsNumber;
  retryDelay : Z;
  timeoutMs : Z;
  priorityLevels : PriorityLevels;
  semanticCacheEnabled : bool;
  smartRoutingEnabled : bool;
  defaultTTL : Z
}.

(** The defaults of the constructor. *)
Definition defaultOptions : MCPOptions :=
  {| maxRetries := Num 3;
     retryDelay := 1000;
     timeoutMs := 30000;
     priorityLevels := {| lv_high := 100; lv_normal := 50; lv_low := 10 |};
     semanticCacheEnabled := true;
     smartRoutingEnabled := true;
     defaultTTL := 3600000 |}.

Inductive QueuePriority := p_high | p_normal | p_low.

Definition level (l : PriorityLevels) (p : QueuePriority) : Z :=
  match p with
  | p_high => lv_high l
  | p_normal => lv_normal l
  | p_low => lv_low l
  end.

Record Usage := {
  promptTokens : Z;
  completionTokens : Z;
  totalTokens : Z
}.

(** The keys of a response's [metadata] that the service writes. *)
Record ResponseMetadata := {
  md_similarity : option Q;
  md_cacheStrategy : option string
}.

(** The keys of a request's [metadata] that the service reads. *)
Record RequestMetadata := {
  m_type : option string;
  m_complexity : option string;
  requiresReasoning : bool;
  requiresCreativity : bool;
  requiresCode : bool;
  requiresMath : bool;
  requiresFactual : bool;
  m_promptTokens : option Q;
  expectedOutputTokens : option Q
}.

Definition noMetadata : RequestMetadata :=
  {| m_type := None; m_complexity := None; requiresReasoning := false;
     requiresCreativity := false; requiresCode := false;
     requiresMath := false; requiresFactual := false;
     m_promptTokens := None; expectedOutputTokens := None |}.

(** What [fetch] does on one call: it rejects, or answers with a
    status that is not ok, or answers with a completion. *)
Inductive FetchResult :=
| Throws (message : string)
| HttpError (status : Z) (message : option string)
| HttpOk (text : string) (inputTokens outputTokens total : Z).

Record FetchOutcome := { latency : Z; result : FetchResult }.

(** The effects of the executor, in the order they happen. *)
Inductive Effect :=
| ApiCall (provider : AIProviderType) (model : AIModelType)
| Sleep (delay : Z)
| Track (eventType eventName : string).

Section Defs.
(** The type of parsed data, the embedding arithmetic of the semantic
    cache, the rendering of a number in a template literal, and the
    behaviour of the API proxy on its n-th call. *)
Variable Data : Type.
Variable Embedding : Type.
Variable getEmbedding : string -> Embedding.
Variable cosineSimilarity : Embedding -> Embedding -> Q.
Variable numToString : Q -> string.
Variable fetch : nat -> FetchOutcome.

Record AIResponse := {
  rawResponse : option string;
  data : option Data;
  error : option string;
  processingTime : option Z;
  r_model : option AIModelType;
  r_provider : option AIProviderType;
  success : bool;
  fromCache : option bool;
  fromMCP : option bool;
  usage : option Usage;
  r_metadata : option ResponseMetadata
}.

Record Savings := { tokens : Z; sv_cost : Q; timeMs : Z }.

Record MCPResponse := {
  cacheHit : bool;
  similarity : option Q;
  response : AIResponse;
  savingsEstimate : option Savings
}.

(** [parseResponse] returns the parsed data or throws ([inl], with the
    message of the error). *)
Record AIRequest := {
  prompt : string;
  model : option AIModelType;
  systemPrompt : option string;
  temperature : option Q;
  maxTokens : option Z;
  parseResponse : option (string -> string + Data);
  metadata : option RequestMetadata;
  mcpParams : option MCPRequestParams
}.

Definition with_model (r : AIRequest) (m : AIModelType) : AIRequest :=
  {| prompt := prompt r; model := Some m; systemPrompt := systemPrompt r;
     temperature := temperature r; maxTokens := maxTokens r;
     parseResponse := parseResponse r; metadata := metadata r;
     mcpParams := mcpParams r |}.

(** What the executor reads and writes. *)
Record World := {
  exactCache : AICache.t AIResponse;
  semanticCache : SemanticCache.t AIResponse Embedding;
  clock : Z;
  calls : nat;
  trace : list Effect
}.

Definition emit (e : Effect) (w : World) : World :=
  {| exactCache := exactCache w; semanticCache := semanticCache w;
     clock := clock w; calls := calls w; trace := trace w ++ [e] |}.

Definition track (eventType eventName : string) : World -> World :=
  emit (Track eventType eventName).

Definition with_exact (w : World) (c : AICache.t AIResponse) : World :=
  {| exactCache := c; semanticCache := semanticCache w;
     clock := clock w; calls := calls w; trace := trace w |}.

Definition with_semantic (w : World)
    (c : SemanticCache.t AIResponse Embedding) : World :=
  {| exactCache := exactCache w; semanticCache := c;
     clock := clock w; calls := calls w; trace := trace w |}.

(** Time passes: the clock never goes back. *)
Definition elapse (ms : Z) (w : World) : World :=
  {| exactCache := exactCache w; semanticCache := semanticCache w;
     clock := clock w + Z.max 0 ms; calls := calls w; trace := trace w |}.

Definition at_time (now : Z) (w : World) : World :=
  {| exactCache := exactCache w; semanticCache := semanticCache w;
     clock := now; calls := calls w; trace := trace w |}.

(** A value that may be [undefined], in a template literal. *)
Definition show {A} (f : A -> string) (o : option A) : string :=
  match o with
  | Some a => f a
  | None => "undefined"
  end.

Definition generateExactCacheKey (request : AIRequest) : string :=
  ("mcp:exact:" ++ show modelName (model request) ++ ":"
     ++ show numToString (temperature request) ++ ":"
     ++ show (fun s => s) (systemPrompt request) ++ ":"
     ++ prompt request)%string.

Definition defaultParams (ttl : Z) : MCPRequestParams :=
  {| cacheStrategy := exact; minSimilarity := None; cacheTTL := Some ttl;
     priority := None; storeResult := Some true;
     multiProviderEnabled := None; preferredProvider := None |}.

Definition params (o : MCPOptions) (request : AIRequest) : MCPRequestParams :=
  match mcpParams request with
  | Some p => p
  | None => defaultParams (defaultTTL o)
  end.

Definition uses_exact (p : MCPRequestParams) : bool :=
  match cacheStrategy p with exact | hybrid => true | semantic => false end.

Definition uses_semantic (p : MCPRequestParams) : bool :=
  match cacheStrategy p with semantic | hybrid => true | exact => false end.

(** [getProviderForModel]. *)
Definition getProviderForModel (m : option AIModelType) : AIProviderType :=
  match m with
  | None => CLAUDE
  | Some m => SmartRouter.getProviderForModel SmartRouter.modelsMetadata m
  end.

(** [estimateCost(tokens, model)]. *)
Definition estimateCost (tokens : Z) (m : option AIModelType) : Q :=
  SmartRouter.estimateCost SmartRouter.modelsMetadata
    (SmartRouter.over m claude_3_7_sonnet_20250219)
    (inject_Z tokens * 0.7) (inject_Z tokens * 0.3).

Definition is_claude (p : AIProviderType) : bool :=
  match p with CLAUDE | claude => true | _ => false end.

(** [callProviderAPI]: the response, or the message of the error it
    throws.  Every value of [AIProviderType] is a supported provider. *)
Definition callProviderAPI (w : World) (request : AIRequest)
    (provider : AIProviderType) : World * (string + AIResponse) :=
  let m := SmartRouter.over (model request) claude_3_7_sonnet_20250219 in
  let w1 := track "mcp" "api_call" w in
  let out := fetch (calls w1) in
  let w2 :=
    elapse (latency out)
      {| exactCache := exactCache w1; semanticCache := semanticCache w1;
         clock := clock w1; calls := S (calls w1);
         trace := trace w1 ++ [ApiCall provider m] |} in
  match result out with
  | Throws msg => (w2, inl msg)
  | HttpError _ msg =>
      (w2, inl (if truthy msg then show (fun s => s) msg
                else "API request failed"))
  | HttpOk content inTok outTok total =>
      let usage :=
        if is_claude provider
        then {| promptTokens := inTok; completionTokens := outTok;
                totalTokens := inTok + outTok |}
        else {| promptTokens := inTok; completionTokens := outTok;
                totalTokens := total |} in
      (w2, inr {| rawResponse := Some content; data := None;
                  error := None; processingTime := None;
                  r_model := Some m; r_provider := Some provider;
                  success := true; fromCache := None; fromMCP := None;
                  usage := Some usage; r_metadata := None |})
  end.

(** [x || d] on a number of [Q] that may be [undefined]. *)
Definition qor (x : option Q) (d : Q) : Q :=
  match x with
  | Some v => if Qeq_bool v 0 then d else v
  | None => d
  end.

Definition modelString (request : AIRequest) : option string :=
  option_map modelName (model request).

(** [storeInCaches(request, response, ttl)]. *)
Definition storeInCaches (o : MCPOptions) (w : World) (request : AIRequest)
    (r : AIResponse) (ttl : Z) : World :=
  let p := match mcpParams request with
           | Some p => p
           | None => defaultParams ttl
           end in
  let w1 :=
    if uses_exact p
    then with_exact w
           (AICache.set (exactCache w) (generateExactCacheKey request) r
              (Some ttl) (clock w))
    else w in
  if uses_semantic p && semanticCacheEnabled o
  then with_semantic w1
         (snd (SemanticCache.store Embedding getEmbedding (semanticCache w1)
                 (prompt request) r
                 {| SemanticCache.st_model := modelString request;
                    SemanticCache.st_systemPrompt := systemPrompt request;
                    SemanticCache.st_ttl := ttl |}
                 (clock w1)))
  else w1.

(** The exact lookup of [executeRequest]. *)
Definition lookupExact (o : MCPOptions) (w : World) (request : AIRequest)
    : World * option AIResponse :=
  if uses_exact (params o request) then
    let (r, c) :=
      AICache.get (exactCache w) (generateExactCacheKey request) (clock w) in
    (track "mcp" "exact_cache_check" (with_exact w c), r)
  else (w, None).

Definition with_similarity (r : AIResponse) (s : Q) : AIResponse :=
  {| rawResponse := rawResponse r; data := data r; error := error r;
     processingTime := processingTime r; r_model := r_model r;
     r_provider := r_provider r; success := success r;
     fromCache := fromCache r; fromMCP := fromMCP r; usage := usage r;
     r_metadata :=
       Some {| md_similarity := Some s;
               md_cacheStrategy := Some "semantic" |} |}.

(** The semantic lookup, tried when the exact lookup found nothing:
    the cached result and its similarity. *)
Definition lookupSemantic (o : MCPOptions) (w : World) (request : AIRequest)
    (cached : option AIResponse) : World * option AIResponse * Q :=
  match cached with
  | Some _ => (w, cached, 1.0%Q)
  | None =>
      if uses_semantic (params o request) && semanticCacheEnabled o then
        let (found, c) :=
          SemanticCache.findSimilar Embedding getEmbedding cosineSimilarity
            (semanticCache w) (prompt request)
            {| SemanticCache.opt_model := modelString request;
               SemanticCache.opt_systemPrompt := systemPrompt request;
               SemanticCache.minSimilarity :=
                 qor (minSimilarity (params o request)) 0.8 |}
            (clock w) in
        match found with
        | Some res =>
            let s := SemanticCache.similarity res in
            (track "mcp" "semantic_cache_hit" (with_semantic w c),
             Some (with_similarity (SemanticCache.res_response res) s), s)
        | None =>
            (track "mcp" "semantic_cache_miss" (with_semantic w c),
             None, 1.0%Q)
        end
      else (w, None, 1.0%Q)
  end.

Definition fromCacheResponse (startTime : Z) (w : World)
    (request : AIRequest) (cached : AIResponse) (s : Q) : MCPResponse :=
  let total := or_default (option_map totalTokens (usage cached)) 500 in
  {| cacheHit := true;
     similarity := Some s;
     response :=
       {| rawResponse := rawResponse cached; data := data cached;
          error := error cached; processingTime := processingTime cached;
          r_model := r_model cached; r_provider := r_provider cached;
          success := success cached; fromCache := Some true;
          fromMCP := Some true; usage := usage cached;
          r_metadata := r_metadata cached |};
     savingsEstimate :=
       Some {| tokens := total;
               sv_cost := estimateCost total (model request);
               timeMs := clock w - startTime |} |}.

Definition noSavings : Savings := {| tokens := 0; sv_cost := 0; timeMs := 0 |}.

(** The parser, when the request has one and the raw response is not
    empty: the parsed data and the message of the parsing error. *)
Definition runParser (request : AIRequest) (r : AIResponse)
    : option Data * option string :=
  match parseResponse request, rawResponse r with
  | Some parse, Some raw =>
      if truthy (Some raw) then
        match parse raw with
        | inr d => (Some d, None)
        | inl msg => (None, Some msg)
        end
      else (None, None)
  | _, _ => (None, None)
  end.

(** The body of the [try] block once the provider has answered. *)
Definition finishResponse (o : MCPOptions) (startTime : Z) (w : World)
    (request : AIRequest) (r : AIResponse) : World * MCPResponse :=
  let (parsedData, parsingError) := runParser request r in
  let w1 := match parsingError with
            | Some _ => track "error" "parsing_error" w
            | None => w
            end in
  let r' :=
    {| rawResponse := rawResponse r; data := parsedData;
       error := if truthy parsingError then parsingError else error r;
       processingTime := Some (clock w1 - startTime);
       r_model := r_model r; r_provider := r_provider r;
       success := match parsingError with
                  | Some _ => false
                  | None => success r
                  end;
       fromCache := fromCache r; fromMCP := Some true; usage := usage r;
       r_metadata := r_metadata r |} in
  let p := params o request in
  let w2 :=
    match storeResult p with
    | Some true =>
        track "mcp" "store_in_cache"
          (storeInCaches o w1 request r'
             (or_default (cacheTTL p) (defaultTTL o)))
    | _ => w1
    end in
  (w2, {| cacheHit := false; similarity := None; response := r';
          savingsEstimate := Some noSavings |}).

(** One pass through [executeRequest] up to its [catch]: the response
    it returns, or the message of the error the [try] block throws. *)
Definition attempt (o : MCPOptions) (w : World) (request : AIRequest)
    : World * (MCPResponse + string) :=
  let startTime := clock w in
  let (w1, exactHit) := lookupExact o w request in
  let '(w2, cachedResult, s) := lookupSemantic o w1 request exactHit in
  match cachedResult with
  | Some cached =>
      (track "mcp" "cache_hit" w2,
       inl (fromCacheResponse startTime w2 request cached s))
  | None =>
      let provider := getProviderForModel (model request) in
      match callProviderAPI w2 request provider with
      | (w3, inl err) => (w3, inr err)
      | (w3, inr r) =>
          let (w4, res) := finishResponse o startTime w3 request r in
          (w4, inl res)
      end
  end.

Definition errorResponse (err : string) : MCPResponse :=
  {| cacheHit := false;
     similarity := None;
     response :=
       {| rawResponse := None; data := None; error := Some err;
          processingTime := None; r_model := None; r_provider := None;
          success := false; fromCache := None; fromMCP := Some true;
          usage := None; r_metadata := None |};
     savingsEstimate := Some noSavings |}.

(** The exponential backoff before the retry that follows the attempt
    numbered [retryCount]. *)
Definition backoff (o : MCPOptions) (retryCount : nat) : Z :=
  retryDelay o * 2 ^ Z.of_nat retryCount.

Definition sleep (delay : Z) (w : World) : World :=
  elapse delay (emit (Sleep delay) w).

(** [executeRequest(request, retryCount)]: the [catch] retries while
    [retryCount < maxRetries]. *)
Equations? executeRequest (o : MCPOptions) (w : World) (request : AIRequest)
    (retryCount : nat) : World * MCPResponse
    by wf (countsBelow (maxRetries o) - retryCount)%nat lt :=
  executeRequest o w request retryCount with attempt o w request := {
    | (w1, inl r) => (w1, r)
    | (w1, inr err)
        with sumbool_of_bool (below retryCount (maxRetries o)) := {
        | left _ =>
            executeRequest o (sleep (backoff o retryCount) w1) request
              (S retryCount)
        | right _ =>
            (track "error" "request_failed" w1, errorResponse err) } }.
Proof.
  assert (H : (retryCount < countsBelow (maxRetries o))%nat); [|lia].
  destruct (maxRetries o) as [q| |]; cbn in *; try discriminate.
  unfold Qltb in *.
  destruct (Qle_bool q (inject_Z (Z.of_nat retryCount))) eqn:E;
    [discriminate|].
  assert (Hlt : (inject_Z (Z.of_nat retryCount) < q)%Q).
  { apply Qnot_le_lt. intros Hle. apply Qle_bool_iff in Hle. congruence. }
  pose proof (Qle_ceiling q) as Hc.
  assert (Hz : (inject_Z (Z.of_nat retryCount) < inject_Z (Qceiling q))%Q)
    by (eapply Qlt_le_trans; eassumption).
  rewrite <- Zlt_Qlt in Hz. lia.
Qed.

(** [executeRequest(request, retryCount)] under [maxRetries = Infinity]:
    [retryCount < Infinity] holds for every count, so the [catch]
    always retries.  [fuel] is the number of retries that are followed:
    the result is [None] when the execution has not returned after
    them. *)
Fixpoint executeRequest_Infinity (fuel : nat) (o : MCPOptions) (w : World)
    (request : AIRequest) (retryCount : nat) : option (World * MCPResponse) :=
  match attempt o w request with
  | (w1, inl r) => Some (w1, r)
  | (w1, inr err) =>
      match fuel with
      | O => None
      | S fuel' =>
          executeRequest_Infinity fuel' o (sleep (backoff o retryCount) w1)
            request (S retryCount)
      end
  end.

(** *** The queue *)

(** An entry of [requestQueue].  Its [resolve] and [reject] settle the
    promise that [enqueue] returned for the entry's id. *)
Record QueueEntry := {
  request : AIRequest;
  q_priority : Z;
  q_timestamp : Z
}.

(** The variables of the loop of [getNextRequest]; [oldestTimestamp]
    is [None] while it is [Infinity]. *)
Record Pick := {
  highestPriority : Z;
  oldestTimestamp : option Z;
  selectedRequestId : option string
}.

Definition older (ts : Z) (oldest : option Z) : bool :=
  match oldest with
  | Some t => ts <? t
  | None => true
  end.

Definition pick_step (acc : Pick) (ie : string * QueueEntry) : Pick :=
  let (id, entry) := ie in
  if highestPriority acc <? q_priority entry then
    {| highestPriority := q_priority entry;
       oldestTimestamp := Some (q_timestamp entry);
       selectedRequestId := Some id |}
  else if (q_priority entry =? highestPriority acc)
          && older (q_timestamp entry) (oldestTimestamp acc) then
    {| highestPriority := highestPriority acc;
       oldestTimestamp := Some (q_timestamp entry);
       selectedRequestId := Some id |}
  else acc.

Definition pick (q : JsMap.t QueueEntry) : Pick :=
  fold_left pick_step q
    {| highestPriority := -1; oldestTimestamp := None;
       selectedRequestId := None |}.

(** [getNextRequest()]: the entry it returns, with its id, and the
    queue it leaves. *)
Definition getNextRequest (q : JsMap.t QueueEntry)
    : option (string * QueueEntry) * JsMap.t QueueEntry :=
  match selectedRequestId (pick q) with
  | Some id =>
      if truthy (Some id)
      then (option_map (pair id) (JsMap.get id q), JsMap.delete id q)
      else (None, q)
  | None => (None, q)
  end.

(** *** The service *)

Inductive Settlement :=
| Resolved (r : MCPResponse)
| Rejected (message : string).

(** [inflight] is the request whose [executeRequest] the drain loop
    awaits, with the response it will resolve to; [timers] are the
    pending timeouts; [settled] lists the promises settled so far. *)
Record Service := {
  options : MCPOptions;
  requestQueue : JsMap.t QueueEntry;
  processingQueue : bool;
  inflight : option (string * MCPResponse);
  timers : list (string * Z);
  settled : list (string * Settlement);
  world : World
}.

Definition create (o : MCPOptions) (w : World) : Service :=
  {| options := o; requestQueue := []; processingQueue := false;
     inflight := None; timers := []; settled := []; world := w |}.

(** [selectOptimalModel(request)]. *)
Definition selectOptimalModel (o : MCPOptions) (r : AIRequest)
    : AIModelType :=
  let md := SmartRouter.over (metadata r) noMetadata in
  let p := params o r in
  let complexity s := match m_complexity md with
                      | Some c => String.eqb c s
                      | None => false
                      end in
  let complexityLevel :=
    if complexity "simple" || complexity "low" then low
    else if complexity "complex" || complexity "high" then high
    else medium in
  let taskType :=
    if truthy (m_type md) then show (fun s => s) (m_type md)
    else "general" in
  let requiredCapabilities :=
    ((if requiresReasoning md then ["reasoning"] else [])
     ++ (if requiresCreativity md then ["creative"] else [])
     ++ (if requiresCode md then ["code"] else [])
     ++ (if requiresMath md then ["math"] else [])
     ++ (if requiresFactual md then ["factual"] else []))%list in
  SmartRouter.selectModel SmartRouter.modelsMetadata
    {| SmartRouter.o_taskType := Some taskType;
       SmartRouter.o_promptTokenEstimate :=
         Some (qor (m_promptTokens md)
                 (inject_Z (Z.of_nat (String.length (prompt r))) / 4));
       SmartRouter.o_outputTokenEstimate :=
         Some (qor (expectedOutputTokens md) 800);
       SmartRouter.o_priority :=
         Some (SmartRouter.over (priority p) quality);
       SmartRouter.o_requiredCapabilities := Some requiredCapabilities;
       SmartRouter.o_preferredProvider :=
         Some (SmartRouter.over (preferredProvider p) CLAUDE);
       SmartRouter.o_complexityLevel := Some complexityLevel |}.

(** The head of the loop of [processQueue]: the next request is taken
    off the queue and executed; the loop ends on an empty queue or
    when no request is selected. *)
Definition drain (s : Service) (now : Z) : Service :=
  if 0 <? JsMap.size (requestQueue s) then
    match getNextRequest (requestQueue s) with
    | (Some (id, entry), q) =>
        let (w, r) :=
          executeRequest (options s) (at_time now (world s))
            (request entry) 0 in
        {| options := options s; requestQueue := q;
           processingQueue := true; inflight := Some (id, r);
           timers := timers s; settled := settled s; world := w |}
    | (None, q) =>
        {| options := options s; requestQueue := q;
           processingQueue := false; inflight := None;
           timers := timers s; settled := settled s; world := world s |}
    end
  else
    {| options := options s; requestQueue := requestQueue s;
       processingQueue := false; inflight := None;
       timers := timers s; settled := settled s; world := world s |}.

(** [enqueue(request, priority)] at time [now]; [rnd] is the random
    part of the request id. *)
Definition requestId (now : Z) (rnd : string) : string :=
  ("req_" ++ string_of_Z now ++ "_" ++ rnd)%string.

Definition enqueue (s : Service) (r : AIRequest) (p : QueuePriority)
    (now : Z) (rnd : string) : Service :=
  let id := requestId now rnd in
  let w1 := track "request" "mcp_request" (world s) in
  let '(r1, w2) :=
    match smartRoutingEnabled (options s), model r with
    | true, None =>
        (with_model r (selectOptimalModel (options s) r),
         track "mcp" "smart_routing" w1)
    | _, _ => (r, w1)
    end in
  let s1 :=
    {| options := options s;
       requestQueue :=
         JsMap.set id
           {| request := r1;
              q_priority := level (priorityLevels (options s)) p;
              q_timestamp := now |}
           (requestQueue s);
       processingQueue := processingQueue s;
       inflight := inflight s;
       timers := (timers s ++ [(id, now + timeoutMs (options s))])%list;
       settled := settled s;
       world := w2 |} in
  if processingQueue s1 then s1 else drain s1 now.

(** The drain loop resumes: the awaited [executeRequest] has returned,
    its promise is resolved, and the loop goes on. *)
Definition complete (s : Service) : Service :=
  match inflight s with
  | Some (id, r) =>
      drain
        {| options := options s; requestQueue := requestQueue s;
           processingQueue := processingQueue s; inflight := None;
           timers := timers s;
           settled := (settled s ++ [(id, Resolved r)])%list;
           world := world s |}
        (clock (world s))
  | None => s
  end.

(** The timeout that [enqueue] set for [id] fires. *)
Definition timeoutFires (s : Service) (id : string) : Service :=
  if existsb (fun t => String.eqb (fst t) id) (timers s) then
    let ts := filter (fun t => negb (String.eqb (fst t) id)) (timers s) in
    if JsMap.has id (requestQueue s) then
      {| options := options s;
         requestQueue := JsMap.delete id (requestQueue s);
         processingQueue := processingQueue s; inflight := inflight s;
         timers := ts;
         settled := (settled s ++ [(id, Rejected "Request timeout")])%list;
         world := track "error" "request_timeout" (world s) |}
    else
      {| options := options s; requestQueue := requestQueue s;
         processingQueue := processingQueue s; inflight := inflight s;
         timers := ts; settled := settled s; world := world s |}
  else s.

(** The turns of the event loop that concern the service. *)
Inductive Turn :=
| Enqueue (r : AIRequest) (p : QueuePriority) (now : Z) (rnd : string)
| Complete
| TimeoutFires (id : string).

Definition turn (s : Service) (t : Turn) : Service :=
  match t with
  | Enqueue r p now rnd => enqueue s r p now rnd
  | Complete => complete s
  | TimeoutFires id => timeoutFires s id
  end.

Definition run (s : Service) (ts : list Turn) : Service :=
  fold_left turn ts s.
End Defs.
End MCPService.

(** ** Notions the properties are stated with *)

(** The delays slept, and the provider calls made, in a trace. *)
Fixpoint sleeps (tr : list MCPService.Effect) : list Z :=
  match tr with
  | [] => []
  | MCPService.Sleep d :: tr' => d :: sleeps tr'
  | _ :: tr' => sleeps tr'
  end.

Fixpoint apiCalls (tr : list MCPService.Effect) : nat :=
  match tr with
  | [] => 0
  | MCPService.ApiCall _ _ :: tr' => S (apiCalls tr')
  | _ :: tr' => apiCalls tr'
  end.

(** The polynomial in 31 of the character codes of a string, from
    [acc]. *)
Fixpoint poly31 (acc : Z) (str : string) : Z :=
  match str with
  | EmptyString => acc
  | String c rest => poly31 (31 * acc + Z.of_nat (nat_of_ascii c)) rest
  end.

(** The reasoning rating of a model in the router's table. *)
Definition reasoningOf (m : AIModelType) : Q :=
  SmartRouter.over
    (SmartRouter.prop "reasoning"
       (SmartRouter.capabilities
          (SmartRouter.getModelMetadata SmartRouter.modelsMetadata m)))
    0%Q.

(** A provider call that does not produce a completion. *)
Definition failed (r : MCPService.FetchResult) : bool :=
  match r with
  | MCPService.HttpOk _ _ _ _ => false
  | _ => true
  end.

(** The message of the error that [callProviderAPI] throws when a call
    of the provider has failed: the message of the rejection of
    [fetch], or the [message] of the body of an answer that is not ok
    ([API request failed] when it has none). *)
Definition failureMessage (r : MCPService.FetchResult) : option string :=
  match r with
  | MCPService.Throws msg => Some msg
  | MCPService.HttpError _ msg =>
      Some (if truthy msg then MCPService.show (fun s => s) msg
            else "API request failed")
  | MCPService.HttpOk _ _ _ _ => None
  end.

(** A string without the separator of the exact cache key. *)
Fixpoint no_colon (s : string) : bool :=
  match s with
  | EmptyString => true
  | String c rest => negb (Ascii.eqb c ":") && no_colon rest
  end.

(** An entry that [findSimilar] compares: not expired at [now], and not
    of another model. *)
Definition comparable {R E} (o : SemanticCache.FindOptions) (now : Z)
    (e : SemanticCache.Entry R E) : bool :=
  negb (SemanticCache.expiresAt _ e <? now)
  && negb (SemanticCache.wrong_model _ o e).

(** What the loop of [findSimilar] knows after the entries [seen]: the
    best match is a comparable entry that reaches the floor, and no
    comparable entry seen is more similar. *)
Definition scanned {R E} (cos : E -> E -> Q) (qe : E)
    (o : SemanticCache.FindOptions) (now : Z)
    (seen : list (string * SemanticCache.Entry R E))
    (st : SemanticCache.Scan R E) : Prop :=
  let sim e := cos qe (SemanticCache.embedding _ e) in
  let floor := SemanticCache.minSimilarity o in
  match SemanticCache.bestMatch _ st with
  | None =>
      SemanticCache.highestSimilarity _ st = (-1)%Q
      /\ forall k e, In (k, e) seen -> comparable o now e = true ->
           ~ ((-1 < sim e)%Q /\ (floor <= sim e)%Q)
  | Some r =>
      SemanticCache.highestSimilarity _ st = SemanticCache.similarity r
      /\ (floor <= SemanticCache.similarity r)%Q
      /\ (exists e, In (SemanticCache.cacheKey r, e) seen
                    /\ comparable o now e = true
                    /\ SemanticCache.similarity r = sim e
                    /\ SemanticCache.res_response r = SemanticCache.response _ e)
      /\ forall k e, In (k, e) seen -> comparable o now e = true ->
           (sim e <= SemanticCache.similarity r)%Q
  end.

(** What the loop of [getNextRequest] knows after the entries [seen]:
    the selected entry has the greatest priority seen and, among the
    entries of that priority, the least timestamp. *)
Definition picked {Data} (seen : list (string * MCPService.QueueEntry Data))
    (acc : MCPService.Pick) : Prop :=
  match MCPService.selectedRequestId acc with
  | None =>
      seen = [] /\ MCPService.highestPriority acc = -1
      /\ MCPService.oldestTimestamp acc = None
  | Some id =>
      exists e,
        In (id, e) seen
        /\ MCPService.highestPriority acc = MCPService.q_priority _ e
        /\ MCPService.oldestTimestamp acc = Some (MCPService.q_timestamp _ e)
        /\ forall id' e', In (id', e') seen ->
             MCPService.q_priority _ e' <= MCPService.q_priority _ e
             /\ (MCPService.q_priority _ e' = MCPService.q_priority _ e ->
                 MCPService.q_timestamp _ e <= MCPService.q_timestamp _ e')
  end.

(** A step of the executor that neither sleeps nor calls the provider. *)
Definition quiet {Data E} (w w' : MCPService.World Data E) : Prop :=
  sleeps (MCPService.trace _ _ w') = sleeps (MCPService.trace _ _ w)
  /\ apiCalls (MCPService.trace _ _ w') = apiCalls (MCPService.trace _ _ w)
  /\ MCPService.calls _ _ w' = MCPService.calls _ _ w.

(** A world whose caches cannot answer a request: the exact cache has
    no entry under the key of the request, and no entry of the semantic
    cache is as similar to its prompt as the request asks. *)
Definition unanswered {Data E} (getE : string -> E) (cos : E -> E -> Q)
    (num : Q -> string) (o : MCPService.MCPOptions)
    (request : MCPService.AIRequest Data) (w : MCPService.World Data E)
    : Prop :=
  JsMap.get (MCPService.generateExactCacheKey Data num request)
    (AICache.cache (MCPService.exactCache _ _ w)) = None
  /\ forall k e, In (k, e) (MCPService.semanticCache _ _ w) ->
       (cos (getE (MCPService.prompt _ request)) (SemanticCache.embedding _ e)
        < MCPService.qor
            (minSimilarity (MCPService.params Data o request)) 0.8)%Q.

(** The ids of the promises that a service holds: those it has
    settled, the one of the request in flight, and those of the
    requests that wait. *)
Definition knownIds {Data E} (s : MCPService.Service Data E) : list string :=
  map fst (MCPService.settled _ _ s)
  ++ match MCPService.inflight _ _ s with
     | Some (id, _) => [id]
     | None => []
     end
  ++ JsMap.keys (MCPService.requestQueue _ _ s).

(** The ids that the calls of [enqueue] among the turns make. *)
Definition enqueuedIds {Data} (ts : list (MCPService.Turn Data))
    : list string :=
  flat_map
    (fun t => match t with
              | MCPService.Enqueue _ _ _ now rnd =>
                  [MCPService.requestId now rnd]
              | _ => []
              end)
    ts.

(** An effect that, when it is a call of a provider, is a call for the
    model of the request (the default model when it has none), made to
    the provider that the router's table gives that model. *)
Definition calledFor {Data} (request : MCPService.AIRequest Data)
    (e : MCPService.Effect) : Prop :=
  match e with
  | MCPService.ApiCall p m =>
      m = SmartRouter.over (MCPService.model Data request)
            claude_3_7_sonnet_20250219
      /\ p = SmartRouter.getProviderForModel SmartRouter.modelsMetadata m
  | _ => True
  end.

(** A provider that fails on every call. *)
Definition all_fail (fetch : nat -> MCPService.FetchOutcome) : Prop :=
  forall n, failed (MCPService.result (fetch n)) = true.

(** The request that [enqueue] puts in the queue for the request of
    the caller: with the model that the router selects, when smart
    routing is enabled and the request names no model. *)
Definition queued {Data} (o : MCPService.MCPOptions)
    (r : MCPService.AIRequest Data) : MCPService.AIRequest Data :=
  match MCPService.smartRoutingEnabled o, MCPService.model Data r with
  | true, None =>
      MCPService.with_model Data r (MCPService.selectOptimalModel Data o r)
  | _, _ => r
  end.

(** The requests that the calls of [enqueue] among the turns put in the
    queue of a service with the options [o], each under its id. *)
Definition enqueuedRequests {Data} (o : MCPService.MCPOptions)
    (ts : list (MCPService.Turn Data))
    : list (string * MCPService.AIRequest Data) :=
  flat_map
    (fun t => match t with
              | MCPService.Enqueue _ r _ now rnd =>
                  [(MCPService.requestId now rnd, queued o r)]
              | _ => []
              end)
    ts.

(** A response that [executeRequest] returns for [request]. *)
Definition responseTo {Data E} (getE : string -> E) (cos : E -> E -> Q)
    (num : Q -> string) (fetch : nat -> MCPService.FetchOutcome)
    (o : MCPService.MCPOptions) (request : MCPService.AIRequest Data)
    (r : MCPService.MCPResponse Data) : Prop :=
  exists w,
    r = snd (MCPService.executeRequest Data E getE cos num fetch o w request
               0%nat).

(** A settlement of the promise [id] for the requests [requests]: the
    promise is resolved with a response of [executeRequest] to the
    request enqueued under [id], or it is rejected with the timeout
    error and [id] is one of the ids enqueued. *)
Definition settles {Data E} (getE : string -> E) (cos : E -> E -> Q)
    (num : Q -> string) (fetch : nat -> MCPService.FetchOutcome)
    (o : MCPService.MCPOptions)
    (requests : list (string * MCPService.AIRequest Data)) (id : string)
    (st : MCPService.Settlement Data) : Prop :=
  match st with
  | MCPService.Resolved _ r =>
      exists request,
        In (id, request) requests
        /\ responseTo (E := E) getE cos num fetch o request r
  | MCPService.Rejected _ message =>
      message = "Request timeout" /\ In id (map fst requests)
  end.

(** A service all of whose requests are among [requests]: those that
    wait, under their ids; the one in flight, with a response to it; and
    those whose promises are settled. *)
Definition serves {Data E} (getE : string -> E) (cos : E -> E -> Q)
    (num : Q -> string) (fetch : nat -> MCPService.FetchOutcome)
    (requests : list (string * MCPService.AIRequest Data))
    (s : MCPService.Service Data E) : Prop :=
  let o := MCPService.options _ _ s in
  (forall id e, In (id, e) (MCPService.requestQueue _ _ s) ->
     In (id, MCPService.request Data e) requests)
  /\ match MCPService.inflight _ _ s with
     | Some (id, r) =>
         settles getE cos num fetch o requests id (MCPService.Resolved _ r)
     | None => True
     end
  /\ forall id st, In (id, st) (MCPService.settled _ _ s) ->
       settles getE cos num fetch o requests id st.

(** ** Concrete instances, for examples *)

Module Sample.
Definition Data := string.

(** A stand-in for the embedding arithmetic: a text is embedded as its
    length, and two embeddings are as similar as 1 when they are equal
    and as 0.5 otherwise. *)
Definition Embedding := Z.

Definition getEmbedding (s : string) : Embedding :=
  Z.of_nat (String.length s).

Definition cosineSimilarity (a b : Embedding) : Q :=
  if a =? b then 1%Q else 0.5%Q.

(** A stand-in for the rendering of a number: numerator/denominator. *)
Definition numToString (q : Q) : string :=
  (string_of_Z (Qnum q) ++ "/" ++ string_of_Z (Zpos (Qden q)))%string.

(** A proxy that answers every call with 401. *)
Definition unauthorized (n : nat) : MCPService.FetchOutcome :=
  {| MCPService.latency := 120;
     MCPService.result := MCPService.HttpError 401 (Some "Unauthorized") |}.

Definition AIRequest := MCPService.AIRequest Data.
Definition World := MCPService.World Data Embedding.

Definition request (p : string) : AIRequest :=
  {| MCPService.prompt := p;
     MCPService.model := Some claude_3_7_sonnet_20250219;
     MCPService.systemPrompt := None;
     MCPService.temperature := None;
     MCPService.maxTokens := None;
     MCPService.parseResponse := None;
     MCPService.metadata := None;
     MCPService.mcpParams := None |}.

Definition world0 : World :=
  {| MCPService.exactCache := AICache.create (Some 3600000) (Some 50) None (Some true);
     MCPService.semanticCache := [];
     MCPService.clock := 0;
     MCPService.calls := 0;
     MCPService.trace := [] |}.

Definition executeRequest :=
  MCPService.executeRequest Data Embedding getEmbedding cosineSimilarity
    numToString unauthorized.

(** A semantic cache of two answers, stored at times 1 and 2 with a
    TTL of 1000 ms. *)
Definition answers : SemanticCache.t string Embedding :=
  let c1 :=
    snd (SemanticCache.store Embedding getEmbedding [] "a box" "cube"
           {| SemanticCache.st_model := Some "gpt-4o";
              SemanticCache.st_systemPrompt := None;
              SemanticCache.st_ttl := 1000 |} 1) in
  snd (SemanticCache.store Embedding getEmbedding c1 "a gear" "wheel"
         {| SemanticCache.st_model := None;
            SemanticCache.st_systemPrompt := None;
            SemanticCache.st_ttl := 1000 |} 2).

Definition floor08 : SemanticCache.FindOptions :=
  {| SemanticCache.opt_model := None;
     SemanticCache.opt_systemPrompt := None;
     SemanticCache.minSimilarity := 0.8 |}.

(** An exact cache of capacity 3 with three entries, stored at times 1,
    2 and 3; the second one expires first. *)
Definition cache3 : AICache.t string :=
  let c0 := AICache.create (Some 100) (Some 3) None None in
  let c1 := AICache.set c0 "a" "first" None 1 in
  let c2 := AICache.set c1 "b" "second" (Some 48) 2 in
  AICache.set c2 "c" "third" None 3.

Definition findSimilar :=
  SemanticCache.findSimilar (R := string) Embedding getEmbedding
    cosineSimilarity.

Definition Service := MCPService.Service Data Embedding.

Definition service (o : MCPService.MCPOptions) : Service :=
  MCPService.create Data Embedding o world0.

Definition run : Service -> list (MCPService.Turn Data) -> Service :=
  MCPService.run Data Embedding getEmbedding cosineSimilarity numToString
    unauthorized.

(** A provider that answers after 40 s. *)
Definition slow (n : nat) : MCPService.FetchOutcome :=
  {| MCPService.latency := 40000;
     MCPService.result := MCPService.HttpOk "a cube" 100 50 150 |}.

Definition run_slow : Service -> list (MCPService.Turn Data) -> Service :=
  MCPService.run Data Embedding getEmbedding cosineSimilarity numToString
    slow.

(** Two requests enqueued one millisecond apart on an idle service:
    the first is executed at once, the second waits in the queue. *)
Definition two_enqueued : Service :=
  run_slow (service MCPService.defaultOptions)
    [MCPService.Enqueue Data (request "first") MCPService.p_normal 0 "a";
     MCPService.Enqueue Data (request "second") MCPService.p_normal 1 "b"].

(** How each promise was settled. *)
Definition outcomes (s : Service) : list (string * string) :=
  map (fun x =>
         (fst x,
          match snd x with
          | MCPService.Resolved _ _ => "resolved"
          | MCPService.Rejected _ message => message
          end))
    (MCPService.settled _ _ s).

(** A queue of three requests, as three calls of [enqueue] leave it
    while another request is being executed. *)
Definition queue3 : JsMap.t (MCPService.QueueEntry Data) :=
  [("req_1_a", {| MCPService.request := request "first";
                  MCPService.q_priority := 10;
                  MCPService.q_timestamp := 1 |});
   ("req_2_b", {| MCPService.request := request "second";
                  MCPService.q_priority := 100;
                  MCPService.q_timestamp := 2 |});
   ("req_3_c", {| MCPService.request := request "third";
                  MCPService.q_priority := 100;
                  MCPService.q_timestamp := 3 |})].

(** A proxy whose call numbered [n] answers with the status 500 and the
    message [failure n]. *)
Definition numbered (n : nat) : MCPService.FetchOutcome :=
  {| MCPService.latency := 120;
     MCPService.result :=
       MCPService.HttpError 500
         (Some ("failure " ++ string_of_Z (Z.of_nat n))%string) |}.

(** A request with a temperature, a system prompt and a token limit. *)
Definition styled (t : option Q) (sys : option string) (limit : option Z)
    : AIRequest :=
  {| MCPService.prompt := "draw a cube";
     MCPService.model := Some gpt_4o;
     MCPService.systemPrompt := sys;
     MCPService.temperature := t;
     MCPService.maxTokens := limit;
     MCPService.parseResponse := None;
     MCPService.metadata := None;
     MCPService.mcpParams := None |}.

(** The default options, with another [maxRetries]. *)
Definition retrying (x : MCPService.JsNumber) : MCPService.MCPOptions :=
  {| MCPService.maxRetries := x;
     MCPService.retryDelay := 1000;
     MCPService.timeoutMs := 30000;
     MCPService.priorityLevels :=
       {| MCPService.lv_high := 100; MCPService.lv_normal := 50;
          MCPService.lv_low := 10 |};
     MCPService.semanticCacheEnabled := true;
     MCPService.smartRoutingEnabled := true;
     MCPService.defaultTTL := 3600000 |}.

(** Options whose priority weights are ordered, and negative. *)
Definition negativeLevels : MCPService.MCPOptions :=
  {| MCPService.maxRetries := MCPService.Num 3;
     MCPService.retryDelay := 1000;
     MCPService.timeoutMs := 30000;
     MCPService.priorityLevels :=
       {| MCPService.lv_high := -2; MCPService.lv_normal := -3;
          MCPService.lv_low := -4 |};
     MCPService.semanticCacheEnabled := true;
     MCPService.smartRoutingEnabled := true;
     MCPService.defaultTTL := 3600000 |}.
End Sample.

(** * Properties *)

(** ** The map operations *)

Section JsMapFacts.
Context {V : Type}.
Implicit Types (m : JsMap.t V) (k : string) (v : V).

Lemma get_set_same k v m : JsMap.get k (JsMap.set k v m) = Some v.
Proof.
  induction m as [|[k' v'] m IH]; simpl.
  - now rewrite String.eqb_refl.
  - destruct (String.eqb k' k) eqn:E; simpl; rewrite E; auto.
Qed.

Lemma get_delete_same k m : JsMap.get k (JsMap.delete k m) = None.
Proof.
  induction m as [|[k' v'] m IH]; simpl; auto.
  destruct (String.eqb k' k) eqn:E; simpl; auto.
  now rewrite E.
Qed.

Lemma has_delete_same k m : JsMap.has k (JsMap.delete k m) = false.
Proof. unfold JsMap.has. now rewrite get_delete_same. Qed.

Lemma get_In k v m : JsMap.get k m = Some v -> In (k, v) m.
Proof.
  induction m as [|[k' v'] m IH]; simpl; [discriminate|].
  destruct (String.eqb_spec k' k) as [->|]; intros H.
  - injection H as ->. now left.
  - right. auto.
Qed.

Lemma In_get k v m :
  NoDup (JsMap.keys m) -> In (k, v) m -> JsMap.get k m = Some v.
Proof.
  induction m as [|[k' v'] m IH]; simpl; [tauto|].
  intros Hnd [H|H]; inversion Hnd as [|? ? Hnotin Hnd']; subst.
  - injection H as -> ->. now rewrite String.eqb_refl.
  - destruct (String.eqb_spec k' k) as [->|]; auto.
    exfalso. apply Hnotin. change k with (fst (k, v)).
    now apply in_map.
Qed.

Lemma In_delete k k' v m :
  In (k', v) (JsMap.delete k m) <-> In (k', v) m /\ k' <> k.
Proof.
  unfold JsMap.delete. rewrite filter_In. simpl.
  destruct (String.eqb_spec k' k); simpl; intuition congruence.
Qed.

Lemma keys_delete k k' m :
  In k' (JsMap.keys (JsMap.delete k m)) -> In k' (JsMap.keys m) /\ k' <> k.
Proof.
  unfold JsMap.keys. rewrite in_map_iff.
  intros [[k0 v] [<- H]]. apply In_delete in H. simpl.
  split; [|tauto]. change k0 with (fst (k0, v)). apply in_map. tauto.
Qed.

Lemma In_set k v k' v' m :
  In (k', v') (JsMap.set k v m) -> (k' = k /\ v' = v) \/ In (k', v') m.
Proof.
  induction m as [|[k0 v0] m IH]; simpl.
  - intros [H|[]]. injection H as <- <-. now left.
  - destruct (String.eqb_spec k0 k) as [->|Hne]; simpl.
    + intros [H|H]; [injection H as <- <-; now left | right; now right].
    + intros [H|H]; [right; now left|].
      destruct (IH H); [now left | right; now right].
Qed.

Lemma keys_set k v m :
  forall k', In k' (JsMap.keys (JsMap.set k v m)) ->
             k' = k \/ In k' (JsMap.keys m).
Proof.
  intros k'. unfold JsMap.keys. rewrite in_map_iff.
  intros [[k0 v0] [<- H]]. apply In_set in H. simpl.
  destruct H as [[-> _]|H]; [now left|].
  right. change k0 with (fst (k0, v0)). now apply in_map.
Qed.

Lemma NoDup_set k v m :
  NoDup (JsMap.keys m) -> NoDup (JsMap.keys (JsMap.set k v m)).
Proof.
  induction m as [|[k0 v0] m IH]; simpl; intros Hnd.
  - constructor; [tauto | constructor].
  - inversion Hnd as [|? ? Hnotin Hnd']; subst.
    destruct (String.eqb_spec k0 k) as [->|Hne]; simpl.
    + now constructor.
    + constructor; auto.
      intros Hin. apply keys_set in Hin. destruct Hin; congruence.
Qed.

Lemma In_set_same k v m : In (k, v) (JsMap.set k v m).
Proof. apply get_In, get_set_same. Qed.
End JsMapFacts.

(** ** Comparisons on [Q] *)

Lemma Qleb_le x y : Qleb x y = true <-> (x <= y)%Q.
Proof. apply Qle_bool_iff. Qed.

Lemma Qltb_lt x y : Qltb x y = true <-> (x < y)%Q.
Proof.
  unfold Qltb. rewrite negb_true_iff. split.
  - intros H. apply Qnot_le_lt. intros Hle.
    apply Qle_bool_iff in Hle. congruence.
  - intros H. destruct (Qle_bool y x) eqn:E; auto.
    apply Qle_bool_iff in E. exfalso. now apply (Qlt_not_le x y).
Qed.

Lemma Qltb_ge x y : Qltb x y = false <-> (y <= x)%Q.
Proof.
  unfold Qltb. rewrite negb_false_iff. apply Qle_bool_iff.
Qed.

Lemma Qleb_gt x y : Qleb x y = false <-> (y < x)%Q.
Proof.
  split; intros H.
  - apply Qnot_le_lt. intros Hle. apply Qleb_le in Hle. congruence.
  - destruct (Qleb x y) eqn:E; auto.
    apply Qleb_le in E. exfalso. now apply (Qlt_not_le y x).
Qed.

(** ** The semantic cache *)

Section SemanticFacts.
Context {R : Type}.
Variable Embedding : Type.
Variable getEmbedding : string -> Embedding.
Variable cosineSimilarity : Embedding -> Embedding -> Q.

Abbreviation Entry := (SemanticCache.Entry R Embedding).
Abbreviation Cache := (SemanticCache.t R Embedding).
Abbreviation Scan := (SemanticCache.Scan R Embedding).
Abbreviation findSimilar :=
  (SemanticCache.findSimilar Embedding getEmbedding cosineSimilarity).
Abbreviation scan_step :=
  (SemanticCache.scan_step Embedding cosineSimilarity).
Abbreviation expiresAt := (SemanticCache.expiresAt Embedding).
Abbreviation embedding := (SemanticCache.embedding Embedding).
Abbreviation response := (SemanticCache.response Embedding).

Variable qe : Embedding.
Variable o : SemanticCache.FindOptions.
Variable now : Z.

Abbreviation sim e := (cosineSimilarity qe (embedding e)).
Abbreviation floor := (SemanticCache.minSimilarity o).
Abbreviation scanned := (scanned cosineSimilarity qe o now).

Lemma scanned_step seen (st : Scan) ke :
  scanned seen st -> scanned (seen ++ [ke]) (scan_step qe o now st ke).
Proof.
  destruct ke as [key entry]. unfold scanned, SemanticCache.scan_step.
  intros Hinv.
  destruct (expiresAt entry <? now) eqn:Hexp; simpl.
  { destruct (SemanticCache.bestMatch _ st) as [r|].
    - destruct Hinv as (Hh & Hf & (e & Hin & He) & Hmax).
      repeat split; auto.
      + exists e. split; [apply in_or_app; now left | exact He].
      + intros k e' Hin' Hc. apply in_app_or in Hin'.
        destruct Hin' as [Hin'|[Heq|[]]]; [eauto|].
        injection Heq as <- <-. unfold comparable in Hc.
        rewrite Hexp in Hc. discriminate.
    - destruct Hinv as (Hh & Hnone). split; auto.
      intros k e' Hin' Hc. apply in_app_or in Hin'.
      destruct Hin' as [Hin'|[Heq|[]]]; [eauto|].
      injection Heq as <- <-. unfold comparable in Hc.
      rewrite Hexp in Hc. discriminate. }
  destruct (SemanticCache.wrong_model Embedding o entry) eqn:Hwm.
  { destruct (SemanticCache.bestMatch _ st) as [r|].
    - destruct Hinv as (Hh & Hf & (e & Hin & He) & Hmax).
      repeat split; auto.
      + exists e. split; [apply in_or_app; now left | exact He].
      + intros k e' Hin' Hc. apply in_app_or in Hin'.
        destruct Hin' as [Hin'|[Heq|[]]]; [eauto|].
        injection Heq as <- <-. unfold comparable in Hc.
        rewrite Hwm, andb_false_r in Hc. discriminate.
    - destruct Hinv as (Hh & Hnone). split; auto.
      intros k e' Hin' Hc. apply in_app_or in Hin'.
      destruct Hin' as [Hin'|[Heq|[]]]; [eauto|].
      injection Heq as <- <-. unfold comparable in Hc.
      rewrite Hwm, andb_false_r in Hc. discriminate. }
  assert (Hcomp : comparable o now entry = true).
  { unfold comparable. now rewrite Hexp, Hwm. }
  destruct (Qltb (SemanticCache.highestSimilarity _ st) (sim entry)) eqn:Hlt;
    destruct (Qleb (SemanticCache.minSimilarity o) (sim entry)) eqn:Hle;
    simpl.
  - (* the entry becomes the best match *)
    apply Qltb_lt in Hlt. apply Qleb_le in Hle.
    repeat split; auto.
    + exists entry. repeat split; auto.
      apply in_or_app. right. now left.
    + intros k e' Hin' Hc. apply in_app_or in Hin'.
      destruct Hin' as [Hin'|[Heq|[]]].
      * destruct (SemanticCache.bestMatch _ st) as [r|].
        -- destruct Hinv as (Hh & _ & _ & Hmax).
           apply Qle_trans with (SemanticCache.similarity r); [eauto|].
           rewrite <- Hh. now apply Qlt_le_weak.
        -- destruct Hinv as (Hh & Hnone). rewrite Hh in Hlt.
           destruct (Qlt_le_dec (-1) (sim e')) as [H1|H1].
           ++ destruct (Qlt_le_dec (sim e') floor) as [H2|H2].
              ** apply Qlt_le_weak.
                 now apply Qlt_le_trans with floor.
              ** exfalso. apply (Hnone k e' Hin' Hc). now split.
           ++ apply Qle_trans with (-1)%Q; auto. now apply Qlt_le_weak.
      * injection Heq as <- <-. apply Qle_refl.
  - (* below the floor *)
    apply Qleb_gt in Hle.
    destruct (SemanticCache.bestMatch _ st) as [r|].
    + destruct Hinv as (Hh & Hf & (e & Hin & He) & Hmax).
      repeat split; auto.
      * exists e. split; [apply in_or_app; now left | exact He].
      * intros k e' Hin' Hc. apply in_app_or in Hin'.
        destruct Hin' as [Hin'|[Heq|[]]]; [eauto|].
        injection Heq as <- <-. apply Qlt_le_weak.
        now apply Qlt_le_trans with floor.
    + destruct Hinv as (Hh & Hnone). split; auto.
      intros k e' Hin' Hc. apply in_app_or in Hin'.
      destruct Hin' as [Hin'|[Heq|[]]]; [eauto|].
      injection Heq as <- <-. intros [_ H]. now apply (Qlt_not_le _ _ Hle).
  - (* not above the best so far *)
    apply Qltb_ge in Hlt.
    destruct (SemanticCache.bestMatch _ st) as [r|].
    + destruct Hinv as (Hh & Hf & (e & Hin & He) & Hmax).
      repeat split; auto.
      * exists e. split; [apply in_or_app; now left | exact He].
      * intros k e' Hin' Hc. apply in_app_or in Hin'.
        destruct Hin' as [Hin'|[Heq|[]]]; [eauto|].
        injection Heq as <- <-. now rewrite <- Hh.
    + destruct Hinv as (Hh & Hnone). split; auto.
      intros k e' Hin' Hc. apply in_app_or in Hin'.
      destruct Hin' as [Hin'|[Heq|[]]]; [eauto|].
      injection Heq as <- <-. intros [H _]. rewrite Hh in Hlt.
      now apply (Qlt_not_le _ _ H).
  - apply Qltb_ge in Hlt.
    destruct (SemanticCache.bestMatch _ st) as [r|].
    + destruct Hinv as (Hh & Hf & (e & Hin & He) & Hmax).
      repeat split; auto.
      * exists e. split; [apply in_or_app; now left | exact He].
      * intros k e' Hin' Hc. apply in_app_or in Hin'.
        destruct Hin' as [Hin'|[Heq|[]]]; [eauto|].
        injection Heq as <- <-. now rewrite <- Hh.
    + destruct Hinv as (Hh & Hnone). split; auto.
      intros k e' Hin' Hc. apply in_app_or in Hin'.
      destruct Hin' as [Hin'|[Heq|[]]]; [eauto|].
      injection Heq as <- <-. intros [H _]. rewrite Hh in Hlt.
      now apply (Qlt_not_le _ _ H).
Qed.

Lemma scanned_fold l : forall seen (st : Scan),
  scanned seen st ->
  scanned (seen ++ l) (fold_left (scan_step qe o now) l st).
Proof.
  induction l as [|ke l IH]; intros seen st H; simpl.
  - now rewrite app_nil_r.
  - replace (seen ++ ke :: l) with ((seen ++ [ke]) ++ l)
      by now rewrite <- app_assoc.
    apply IH. now apply scanned_step.
Qed.

(** The cache that the loop leaves holds no entry that had expired. *)
Lemma get_delete_none (m : Cache) k k' :
  JsMap.get k m = None -> JsMap.get k (JsMap.delete k' m) = None.
Proof.
  induction m as [|[k0 v0] m IH]; simpl; auto.
  destruct (String.eqb_spec k0 k) as [->|Hne]; [discriminate|].
  intros H. destruct (String.eqb k0 k'); simpl; auto.
  destruct (String.eqb_spec k0 k); [congruence|auto].
Qed.

Lemma scan_keeps_none l : forall (st : Scan) k,
  JsMap.get k (SemanticCache.scan_cache _ st) = None ->
  JsMap.get k
    (SemanticCache.scan_cache _ (fold_left (scan_step qe o now) l st))
  = None.
Proof.
  induction l as [|[key entry] l IH]; intros st k H; simpl; auto.
  apply IH. unfold SemanticCache.scan_step.
  destruct (expiresAt entry <? now); simpl.
  - now apply get_delete_none.
  - destruct (SemanticCache.wrong_model _ o entry); auto.
    destruct (_ && _); auto.
Qed.

Lemma scan_deletes l : forall (st : Scan) k e,
  In (k, e) l -> expiresAt e < now ->
  JsMap.get k
    (SemanticCache.scan_cache _ (fold_left (scan_step qe o now) l st))
  = None.
Proof.
  induction l as [|[key entry] l IH]; intros st k e Hin Hexp; simpl.
  - destruct Hin.
  - destruct Hin as [Heq|Hin]; [|eauto].
    injection Heq as -> ->. apply scan_keeps_none.
    unfold SemanticCache.scan_step.
    apply Z.ltb_lt in Hexp. rewrite Hexp. simpl.
    apply get_delete_same.
Qed.

(** The loop only removes entries. *)
Lemma scan_subset l : forall (st : Scan) k e,
  In (k, e)
    (SemanticCache.scan_cache _ (fold_left (scan_step qe o now) l st)) ->
  In (k, e) (SemanticCache.scan_cache _ st).
Proof.
  induction l as [|[key entry] l IH]; intros st k e Hin; simpl in Hin; auto.
  apply IH in Hin. unfold SemanticCache.scan_step in Hin.
  destruct (expiresAt entry <? now); simpl in Hin.
  - apply In_delete in Hin. tauto.
  - destruct (SemanticCache.wrong_model _ o entry); auto.
    destruct (_ && _); auto.
Qed.
End SemanticFacts.

Lemma findSimilar_scanned {R E} (getE : string -> E) (cos : E -> E -> Q)
    (c : SemanticCache.t R E) q o now :
  scanned cos (getE q) o now c
    (fold_left (SemanticCache.scan_step E cos (getE q) o now) c
       {| SemanticCache.highestSimilarity := (-1)%Q;
          SemanticCache.bestMatch := None;
          SemanticCache.scan_cache := c |}).
Proof.
  apply (scanned_fold E cos (getE q) o now c []).
  unfold scanned; simpl. split; [reflexivity | intros k e []].
Qed.

Lemma findSimilar_none {R E} (getE : string -> E) (cos : E -> E -> Q)
    (c : SemanticCache.t R E) q o now :
  (forall k e, In (k, e) c ->
     (cos (getE q) (SemanticCache.embedding E e)
      < SemanticCache.minSimilarity o)%Q) ->
  fst (SemanticCache.findSimilar E getE cos c q o now) = None.
Proof.
  intros Hlow. pose proof (findSimilar_scanned getE cos c q o now) as Hinv.
  unfold scanned in Hinv. unfold SemanticCache.findSimilar. cbn [fst].
  destruct (SemanticCache.bestMatch _ _) as [r|]; [|reflexivity].
  destruct Hinv as (_ & Hfloor & (e & Hin & _ & Hs & _) & _).
  exfalso. apply (Qlt_not_le _ _ (Hlow _ e Hin)).
  rewrite Hs in Hfloor. exact Hfloor.
Qed.

Lemma findSimilar_subset {R E} (getE : string -> E) (cos : E -> E -> Q)
    (c : SemanticCache.t R E) q o now k e :
  In (k, e) (snd (SemanticCache.findSimilar E getE cos c q o now)) ->
  In (k, e) c.
Proof.
  unfold SemanticCache.findSimilar. cbn [snd]. intros Hin.
  now apply scan_subset in Hin.
Qed.

(** ** Properties of the caches *)

(** C3. Whenever [findSimilar] returns a result, its similarity is at
    least [minSimilarity], it is the similarity of an entry of the cache
    that is not expired and not of another model, and no such entry is
    more similar to the query; when no such entry reaches
    [minSimilarity], [findSimilar] returns none. *)
Theorem C3_findSimilar_best_above_floor :
  forall (R E : Type) (getE : string -> E) (cos : E -> E -> Q)
         (c : SemanticCache.t R E) (q : string)
         (o : SemanticCache.FindOptions) (now : Z),
    let sim e := cos (getE q) (SemanticCache.embedding E e) in
    let found := fst (SemanticCache.findSimilar E getE cos c q o now) in
    (forall r, found = Some r ->
       (SemanticCache.minSimilarity o <= SemanticCache.similarity r)%Q
       /\ (exists e, In (SemanticCache.cacheKey r, e) c
                     /\ comparable o now e = true
                     /\ SemanticCache.similarity r = sim e
                     /\ SemanticCache.res_response r
                        = SemanticCache.response E e)
       /\ (forall k e, In (k, e) c -> comparable o now e = true ->
              (sim e <= SemanticCache.similarity r)%Q))
    /\ ((forall k e, In (k, e) c -> comparable o now e = true ->
           (sim e < SemanticCache.minSimilarity o)%Q) ->
        found = None).
Proof.
  intros R E getE cos c q o now sim found.
  pose proof (findSimilar_scanned getE cos c q o now) as Hinv.
  unfold scanned in Hinv.
  assert (Hfound : found
            = SemanticCache.bestMatch E
                (fold_left (SemanticCache.scan_step E cos (getE q) o now) c
                   {| SemanticCache.highestSimilarity := (-1)%Q;
                      SemanticCache.bestMatch := None;
                      SemanticCache.scan_cache := c |})) by reflexivity.
  rewrite <- Hfound in Hinv. clear Hfound.
  split.
  - intros r Hr. rewrite Hr in Hinv.
    destruct Hinv as (_ & Hfloor & Hfrom & Hmax). auto.
  - intros Hlow. destruct found as [r|]; [|reflexivity].
    destruct Hinv as (_ & Hfloor & (e & Hin & Hc & Hs & _) & _).
    exfalso. apply (Qlt_not_le _ _ (Hlow _ e Hin Hc)).
    rewrite Hs in Hfloor. exact Hfloor.
Qed.

Lemma C3_findSimilar_witness :
  (exists r, fst (Sample.findSimilar Sample.answers "a cube" Sample.floor08 500)
             = Some r
             /\ (0.8 <= SemanticCache.similarity r)%Q)
  /\ fst (Sample.findSimilar Sample.answers "a sphere" Sample.floor08 500)
     = None.
Proof.
  split.
  - destruct (C3_findSimilar_best_above_floor string Sample.Embedding
                Sample.getEmbedding Sample.cosineSimilarity Sample.answers
                "a cube" Sample.floor08 500) as [H _].
    eexists. split; [reflexivity|].
    refine (proj1 (H _ _)). reflexivity.
  - apply (C3_findSimilar_best_above_floor string Sample.Embedding
             Sample.getEmbedding Sample.cosineSimilarity Sample.answers
             "a sphere" Sample.floor08 500).
    intros k e [H|[H|[]]] _; injection H as <- <-; reflexivity.
Defined.

(** C4, as the code has it.  An entry stored at time [t] with a TTL
    [tau] cannot be retrieved at any time after [t + tau]:
    [AICache.get] returns nothing and deletes the entry, and
    [findSimilar] neither returns nor keeps it.  (A TTL of [0] given to
    [AICache.set] stands for the default TTL.) *)
Theorem C4_expired_entry_unretrievable :
  forall (T R E : Type) (getE : string -> E) (cos : E -> E -> Q)
         (c : AICache.t T) (key : string) (d : T)
         (sc : SemanticCache.t R E) (q : string) (r : R)
         (m sp : option string) (q' : string)
         (fo : SemanticCache.FindOptions) (tau t t' : Z),
    tau <> 0 -> NoDup (JsMap.keys sc) -> t + tau < t' ->
    let got := AICache.get (AICache.set c key d (Some tau) t) key t' in
    let stored :=
      SemanticCache.store E getE sc q r
        {| SemanticCache.st_model := m; SemanticCache.st_systemPrompt := sp;
           SemanticCache.st_ttl := tau |} t in
    let found := SemanticCache.findSimilar E getE cos (snd stored) q' fo t' in
    fst got = None
    /\ JsMap.has key (AICache.cache (snd got)) = false
    /\ (forall x, fst found = Some x ->
          SemanticCache.cacheKey x <> fst stored)
    /\ JsMap.has (fst stored) (snd found) = false.
Proof.
  intros T R E getE cos c key d sc q r m sp q' fo tau t t' Htau Hnd Hlate.
  split; [|split; [|split]].
  - cbv zeta. unfold AICache.get, AICache.set. cbn [AICache.cache AICache.with_cache].
    rewrite get_set_same. cbn [AICache.expiresAt].
    unfold or_default. destruct (Z.eqb_spec tau 0) as [|_]; [contradiction|].
    destruct (Z.ltb_spec (t + tau) t'); [reflexivity | lia].
  - cbv zeta. unfold AICache.get, AICache.set. cbn [AICache.cache AICache.with_cache].
    rewrite get_set_same. cbn [AICache.expiresAt].
    unfold or_default. destruct (Z.eqb_spec tau 0) as [|_]; [contradiction|].
    destruct (Z.ltb_spec (t + tau) t'); [|lia].
    cbn [snd AICache.cache AICache.with_cache]. apply has_delete_same.
  - cbv zeta. intros x Hx Hkey.
    pose proof (findSimilar_scanned getE cos
                  (snd (SemanticCache.store E getE sc q r
                          {| SemanticCache.st_model := m;
                             SemanticCache.st_systemPrompt := sp;
                             SemanticCache.st_ttl := tau |} t)) q' fo t')
      as Hinv.
    unfold scanned in Hinv.
    unfold SemanticCache.findSimilar in Hx. cbn [fst] in Hx.
    rewrite Hx in Hinv.
    destruct Hinv as (_ & _ & (e & Hin & Hc & _) & _).
    rewrite Hkey in Hin. unfold SemanticCache.store in Hin.
    cbn [fst snd] in Hin.
    apply In_get in Hin; [|now apply NoDup_set].
    rewrite get_set_same in Hin. injection Hin as <-.
    unfold comparable in Hc. cbn [SemanticCache.expiresAt] in Hc.
    destruct (Z.ltb_spec (t + tau) t'); [discriminate | lia].
  - cbv zeta. unfold JsMap.has, SemanticCache.findSimilar. cbn [snd].
    erewrite scan_deletes; [reflexivity | |].
    + unfold SemanticCache.store. cbn [fst snd]. apply In_set_same.
    + cbn [SemanticCache.expiresAt]. exact Hlate.
Qed.

Lemma C4_expired_entry_witness :
  let late := 1003 in
  let got :=
    AICache.get
      (AICache.set (AICache.create None None None None) "k" "v" (Some 1000) 2)
      "k" late in
  let stored :=
    SemanticCache.store Sample.Embedding Sample.getEmbedding
      (snd (SemanticCache.store Sample.Embedding Sample.getEmbedding
              [] "a box" "cube"
              {| SemanticCache.st_model := Some "gpt-4o";
                 SemanticCache.st_systemPrompt := None;
                 SemanticCache.st_ttl := 1000 |} 1))
      "a gear" "wheel"
      {| SemanticCache.st_model := None;
         SemanticCache.st_systemPrompt := None;
         SemanticCache.st_ttl := 1000 |} 2 in
  let found := Sample.findSimilar (snd stored) "a gear" Sample.floor08 late in
  fst got = None
  /\ JsMap.has "k" (AICache.cache (snd got)) = false
  /\ (forall x, fst found = Some x ->
        SemanticCache.cacheKey x <> fst stored)
  /\ JsMap.has (fst stored) (snd found) = false.
Proof.
  apply (C4_expired_entry_unretrievable string string Sample.Embedding
           Sample.getEmbedding Sample.cosineSimilarity
           (AICache.create None None None None) "k" "v"
           (snd (SemanticCache.store Sample.Embedding Sample.getEmbedding
                   [] "a box" "cube"
                   {| SemanticCache.st_model := Some "gpt-4o";
                      SemanticCache.st_systemPrompt := None;
                      SemanticCache.st_ttl := 1000 |} 1))
           "a gear" "wheel" None None "a gear" Sample.floor08 1000 2 1003).
  - lia.
  - vm_compute. constructor; [simpl; tauto | constructor].
  - lia.
Defined.

(** An entry is still served at the very time it expires: [get] and
    [findSimilar] compare with a strict inequality. *)
Lemma C4_counterexample_at_expiry :
  100 + 10 <= 110
  /\ fst (AICache.get
            (AICache.set (AICache.create None None None None) "k" "v"
               (Some 10) 100) "k" 110) = Some "v"
  /\ 1 + 1000 <= 1001
  /\ option_map (SemanticCache.res_response (R := string))
       (fst (Sample.findSimilar Sample.answers "a box" Sample.floor08 1001))
     = Some "cube".
Proof. repeat split; try lia; reflexivity. Qed.

Section AICacheFacts.
Context {T : Type}.
Implicit Types (m : JsMap.t (AICache.CacheItem T)) (c : AICache.t T).

Lemma length_set k (v : AICache.CacheItem T) m :
  (List.length (JsMap.set k v m) <= S (List.length m))%nat.
Proof.
  induction m as [|[k' v'] m IH]; simpl; [lia|].
  destruct (String.eqb k' k); simpl; lia.
Qed.

Lemma length_delete k m :
  (List.length (JsMap.delete k m) <= List.length m)%nat.
Proof. apply filter_length_le. Qed.

Lemma length_delete_lt k m :
  In k (JsMap.keys m) ->
  (List.length (JsMap.delete k m) < List.length m)%nat.
Proof.
  induction m as [|[k' v'] m IH]; simpl; [tauto|].
  destruct (String.eqb_spec k' k) as [->|Hne]; simpl.
  - intros _. pose proof (length_delete k m). unfold JsMap.delete in *. lia.
  - intros [H|H]; [contradiction|]. specialize (IH H).
    unfold JsMap.delete in *. lia.
Qed.

(** The loop of [removeOldestItem] ends on a key of the cache as soon as
    one entry is older than the time it starts from. *)
Lemma oldest_found m : forall acc,
  match fst (fold_left AICache.oldest_step m acc) with
  | Some k => fst acc = Some k \/ In k (JsMap.keys m)
  | None =>
      fst acc = None
      /\ forall k item, In (k, item) m ->
           snd acc <= AICache.timestamp item
  end.
Proof.
  induction m as [|[k item] m IH]; intros acc; simpl.
  - destruct (fst acc); auto. split; [reflexivity | intros ? ? []].
  - specialize (IH (AICache.oldest_step acc (k, item))).
    assert (Hstep : AICache.oldest_step acc (k, item)
                    = if AICache.timestamp item <? snd acc
                      then (Some k, AICache.timestamp item) else acc)
      by reflexivity.
    destruct (fold_left AICache.oldest_step m
                (AICache.oldest_step acc (k, item))) as [[k0|] ts0];
      rewrite Hstep in IH; cbn [fst] in *;
      destruct (Z.ltb_spec (AICache.timestamp item) (snd acc));
      cbn [fst snd] in IH.
    + destruct IH as [H0|H0]; [injection H0 as <-|]; auto.
    + destruct IH; auto.
    + destruct IH; discriminate.
    + destruct IH as [H0 H1]. split; [assumption|].
      intros k' item' [Heq|Hin]; [injection Heq as <- <-; lia | eauto].
Qed.

(** [set] keeps the cache within [maxSize] when it can evict: when the
    cache holds an entry stored before the current millisecond. *)
Lemma set_within_maxSize c key d customTtl now :
  AICache.size c <= AICache.maxSize (AICache.options c) ->
  (forall k item, In (k, item) (AICache.cache c) -> k <> "") ->
  (exists k item, In (k, item) (AICache.cache c)
                  /\ AICache.timestamp item < now) ->
  AICache.size (AICache.set c key d customTtl now)
  <= AICache.maxSize (AICache.options c).
Proof.
  intros Hsize Hkeys (k & item & Hin & Hold).
  unfold AICache.set, AICache.size, JsMap.size in *.
  destruct (Z.leb_spec (AICache.maxSize (AICache.options c))
              (Z.of_nat (List.length (AICache.cache c)))) as [Hfull|Hroom].
  - unfold AICache.removeOldestItem.
    pose proof (oldest_found (AICache.cache c) (None, now)) as Hfound.
    destruct (fst (fold_left AICache.oldest_step (AICache.cache c) (None, now)))
      as [k0|].
    + destruct Hfound as [Hfound|Hfound]; [discriminate|].
      assert (Hk0 : k0 <> "").
      { unfold JsMap.keys in Hfound. apply in_map_iff in Hfound.
        destruct Hfound as ([k1 i1] & <- & Hin1). eauto. }
      simpl. destruct (String.eqb_spec k0 ""); [contradiction|].
      cbn [AICache.cache AICache.with_cache AICache.options negb].
      pose proof (length_delete_lt k0 (AICache.cache c) Hfound).
      match goal with
      | |- Z.of_nat (List.length (JsMap.set ?a ?b ?m)) <= _ =>
          pose proof (length_set a b m)
      end.
      lia.
    + destruct Hfound as [_ Hfound]. specialize (Hfound _ _ Hin).
      simpl in Hfound. lia.
  - cbn [AICache.cache AICache.with_cache AICache.options].
    match goal with
    | |- Z.of_nat (List.length (JsMap.set ?a ?b ?m)) <= _ =>
        pose proof (length_set a b m)
    end.
    lia.
Qed.
End AICacheFacts.

(** C10, evaluated.  With [maxSize = 1], two [set]s on different keys
    at the same millisecond leave two entries: [removeOldestItem] only
    removes an entry whose timestamp is less than [Date.now()]. *)
Theorem C10_set_exceeds_maxSize :
  let c0 := AICache.create (T := string) None (Some 1) None None in
  let c1 := AICache.set c0 "a" "x" None 5 in
  let c2 := AICache.set c1 "b" "y" None 5 in
  AICache.maxSize (AICache.options c1) = 1
  /\ AICache.size c1 <= AICache.maxSize (AICache.options c1)
  /\ AICache.size c2 = 2
  /\ AICache.maxSize (AICache.options c2) = 1.
Proof. vm_compute. repeat split; congruence. Qed.

(** ** Properties of the router and of the strategy presets *)

(** C7. The presets of a new manager are ordered by [minSimilarity]
    (0.65 < 0.80 < 0.95) and the conservative one uses the exact cache;
    after [setStrategy(s)], [getMCPParams] returns the configuration of
    [s] with the two multi-provider settings, unchanged by
    [setStrategy]. *)
Theorem C7_strategy_presets :
  forall (o : option MCPConfigManager.Options),
    let m := MCPConfigManager.create o in
    let preset := MCPConfigManager.strategyConfigs m in
    (MCPConfigManager.s_minSimilarity (preset MCPConfigManager.aggressive)
       == 0.65)%Q
    /\ (MCPConfigManager.s_minSimilarity (preset MCPConfigManager.balanced)
          == 0.80)%Q
    /\ (MCPConfigManager.s_minSimilarity (preset MCPConfigManager.conservative)
          == 0.95)%Q
    /\ (MCPConfigManager.s_minSimilarity (preset MCPConfigManager.aggressive)
        < MCPConfigManager.s_minSimilarity (preset MCPConfigManager.balanced))%Q
    /\ (MCPConfigManager.s_minSimilarity (preset MCPConfigManager.balanced)
        < MCPConfigManager.s_minSimilarity
            (preset MCPConfigManager.conservative))%Q
    /\ MCPConfigManager.s_cacheStrategy (preset MCPConfigManager.conservative)
       = exact
    /\ forall (m' : MCPConfigManager.t) (s : MCPConfigManager.Strategy),
         let c := MCPConfigManager.strategyConfigs m' s in
         MCPConfigManager.getMCPParams (MCPConfigManager.setStrategy m' s)
         = {| cacheStrategy := MCPConfigManager.s_cacheStrategy c;
              minSimilarity := Some (MCPConfigManager.s_minSimilarity c);
              cacheTTL := Some (MCPConfigManager.s_cacheTTL c);
              priority := Some (MCPConfigManager.s_priority c);
              storeResult := Some (MCPConfigManager.s_storeResult c);
              multiProviderEnabled :=
                Some (MCPConfigManager.mgr_multiProviderEnabled m');
              preferredProvider := MCPConfigManager.mgr_preferredProvider m' |}
         /\ MCPConfigManager.getMCPParams (MCPConfigManager.setStrategy m' s)
            = MCPConfigManager.getStrategyParams m' s.
Proof.
  intros o m preset.
  repeat split; try reflexivity.
Qed.

Section RouterFacts.
Variable metadata : AIModelType -> SmartRouter.ModelMetadata.
Variable options : SmartRouter.SelectOptions.

Abbreviation best_step := SmartRouter.best_step.
Abbreviation scoreModel := (SmartRouter.scoreModel metadata options).

Lemma models_complete (m : AIModelType) : In m SmartRouter.models.
Proof. destruct m; simpl; tauto. Qed.

(** The second loop either keeps its starting model or moves to a
    scored one. *)
Lemma best_keeps_or_moves l : forall acc,
  fst (fold_left best_step l acc) = fst acc
  \/ In (fst (fold_left best_step l acc)) (map fst l).
Proof.
  induction l as [|ms l IH]; intros acc; simpl; [now left|].
  destruct (IH (best_step acc ms)) as [H|H]; [|now right; right].
  rewrite H. unfold SmartRouter.best_step.
  destruct (_ && _); simpl; [right; now left | now left].
Qed.

(** It moves as soon as one scored model meets the requirements with
    a total above the starting score. *)
Lemma best_moves l : forall acc,
  (exists ms, In ms l
              /\ SmartRouter.meetsRequirements (snd ms) = true
              /\ (snd acc < SmartRouter.totalScore (snd ms))%Q) ->
  In (fst (fold_left best_step l acc)) (map fst l).
Proof.
  induction l as [|x l IH]; intros acc (ms & Hin & Hmeets & Hlt).
  - destruct Hin.
  - simpl.
    destruct (SmartRouter.meetsRequirements (snd x)
              && Qltb (snd acc) (SmartRouter.totalScore (snd x))) eqn:E.
    + replace (best_step acc x)
        with (fst x, SmartRouter.totalScore (snd x))
        by (unfold SmartRouter.best_step; now rewrite E).
      destruct (best_keeps_or_moves l (fst x, SmartRouter.totalScore (snd x)))
        as [H|H]; [left; now rewrite H | now right].
    + replace (best_step acc x) with acc
        by (unfold SmartRouter.best_step; now rewrite E).
      right. apply IH. exists ms. repeat split; auto.
      destruct Hin as [->|Hin]; auto.
      apply Qltb_lt in Hlt. rewrite Hmeets, Hlt in E. discriminate.
Qed.

Lemma scored_in_modelScores m sc :
  scoreModel m = Some sc ->
  In (m, sc) (SmartRouter.modelScores metadata options).
Proof.
  intros H. unfold SmartRouter.modelScores. apply in_flat_map.
  exists m. split; [apply models_complete|]. rewrite H. now left.
Qed.

Lemma modelScores_scored m :
  In m (map fst (SmartRouter.modelScores metadata options)) ->
  exists sc, scoreModel m = Some sc.
Proof.
  rewrite in_map_iff. intros [[m' sc] [<- Hin]].
  unfold SmartRouter.modelScores in Hin. apply in_flat_map in Hin.
  destruct Hin as (m0 & _ & Hin).
  destruct (scoreModel m0) as [sc0|] eqn:E; [|destruct Hin].
  destruct Hin as [Heq|[]]. injection Heq as <- <-. eauto.
Qed.

Lemma AIProviderType_eqb_eq a b : AIProviderType_eqb a b = true -> a = b.
Proof. destruct a, b; simpl; congruence. Qed.

Lemma scored_has_preferred_provider m sc P :
  SmartRouter.o_preferredProvider options = Some P ->
  scoreModel m = Some sc ->
  SmartRouter.provider (metadata m) = P.
Proof.
  unfold SmartRouter.scoreModel. intros ->.
  destruct (AIProviderType_eqb (SmartRouter.provider (metadata m)) P) eqn:E;
    simpl; [|discriminate].
  intros _. now apply AIProviderType_eqb_eq.
Qed.
End RouterFacts.

(** C8. With [preferredProvider = P], if some model of provider [P]
    passes the capability gate with a positive total score, the model
    that [selectModel] returns is of provider [P]. *)
Theorem C8_preferred_provider_gating :
  forall (metadata : AIModelType -> SmartRouter.ModelMetadata)
         (options : SmartRouter.SelectOptions) (P : AIProviderType)
         (m : AIModelType) (sc : SmartRouter.Score),
    SmartRouter.o_preferredProvider options = Some P ->
    SmartRouter.provider (metadata m) = P ->
    SmartRouter.scoreModel metadata options m = Some sc ->
    SmartRouter.meetsRequirements sc = true ->
    (0 < SmartRouter.totalScore sc)%Q ->
    SmartRouter.getProviderForModel metadata
      (SmartRouter.selectModel metadata options) = P.
Proof.
  intros metadata options P m sc HP _ Hsc Hmeets Hpos.
  unfold SmartRouter.getProviderForModel, SmartRouter.selectModel.
  assert (Hin : In (fst (fold_left SmartRouter.best_step
                           (SmartRouter.modelScores metadata options)
                           (claude_3_7_sonnet_20250219, (-1)%Q)))
                  (map fst (SmartRouter.modelScores metadata options))).
  { apply best_moves. exists (m, sc). simpl. repeat split; auto.
    - now apply scored_in_modelScores.
    - apply Qlt_trans with 0%Q; [reflexivity | exact Hpos]. }
  apply modelScores_scored in Hin. destruct Hin as [sc' Hsc'].
  eapply scored_has_preferred_provider; eauto.
Qed.

Lemma C8_preferred_provider_witness :
  SmartRouter.getProviderForModel SmartRouter.modelsMetadata
    (SmartRouter.selectModel SmartRouter.modelsMetadata
       {| SmartRouter.o_taskType := Some "code";
          SmartRouter.o_promptTokenEstimate := None;
          SmartRouter.o_outputTokenEstimate := None;
          SmartRouter.o_priority := Some quality;
          SmartRouter.o_requiredCapabilities := Some ["code"];
          SmartRouter.o_preferredProvider := Some OPENAI;
          SmartRouter.o_complexityLevel := Some high |}) = OPENAI.
Proof.
  eapply (C8_preferred_provider_gating SmartRouter.modelsMetadata _ OPENAI
            gpt_4o).
  - reflexivity.
  - reflexivity.
  - vm_compute. reflexivity.
  - reflexivity.
  - reflexivity.
Defined.

(** ** The exact cache key *)

Section KeyFacts.

(** A key is cut at the first colon when what precedes has none. *)
Lemma cut_at_colon a : forall a' b b',
  no_colon a = true -> no_colon a' = true ->
  (a ++ ":" ++ b)%string = (a' ++ ":" ++ b')%string ->
  a = a' /\ b = b'.
Proof.
  induction a as [|c a IH]; intros [|c' a'] b b' Ha Ha' H; simpl in *.
  - injection H as ->. auto.
  - injection H as <- _. discriminate.
  - injection H as -> _. discriminate.
  - injection H as -> H.
    apply andb_true_iff in Ha, Ha'.
    destruct (IH a' b b') as [-> ->]; tauto.
Qed.

Lemma append_same_prefix a b b' :
  (a ++ b)%string = (a ++ b')%string -> b = b'.
Proof.
  induction a as [|c a IH]; simpl; intros H; [assumption|].
  injection H as H. auto.
Qed.

Lemma show_model_no_colon (m : option AIModelType) :
  no_colon (MCPService.show modelName m) = true.
Proof. destruct m as [[]|]; reflexivity. Qed.

Lemma show_model_inj (m1 m2 : option AIModelType) :
  MCPService.show modelName m1 = MCPService.show modelName m2 -> m1 = m2.
Proof.
  destruct m1 as [[]|], m2 as [[]|]; simpl; intros H;
    try reflexivity; discriminate.
Qed.
End KeyFacts.

(** C9, as the code has it.  Requests that agree on model, temperature,
    systemPrompt and prompt have the same exact cache key.  Conversely,
    two requests with the same key have the same model; they agree on
    the four fields when the temperature and the system prompt, as the
    template literal renders them, contain no colon and tell the two
    requests' values apart; and requests whose model, temperature and
    system prompt are rendered alike have the same key only if they
    have the same prompt. *)
Theorem C9_exact_key_identifies_request :
  forall (Data : Type) (numToString : Q -> string)
         (r1 r2 : MCPService.AIRequest Data),
    let key := MCPService.generateExactCacheKey Data numToString in
    let temp r :=
      MCPService.show numToString (MCPService.temperature Data r) in
    let sys r :=
      MCPService.show (fun s => s) (MCPService.systemPrompt Data r) in
    (MCPService.model Data r1 = MCPService.model Data r2 ->
     MCPService.temperature Data r1 = MCPService.temperature Data r2 ->
     MCPService.systemPrompt Data r1 = MCPService.systemPrompt Data r2 ->
     MCPService.prompt Data r1 = MCPService.prompt Data r2 ->
     key r1 = key r2)
    /\ (no_colon (temp r1) = true -> no_colon (temp r2) = true ->
        no_colon (sys r1) = true -> no_colon (sys r2) = true ->
        (temp r1 = temp r2 ->
         MCPService.temperature Data r1 = MCPService.temperature Data r2) ->
        (sys r1 = sys r2 ->
         MCPService.systemPrompt Data r1 = MCPService.systemPrompt Data r2) ->
        key r1 = key r2 ->
        MCPService.model Data r1 = MCPService.model Data r2
        /\ MCPService.temperature Data r1 = MCPService.temperature Data r2
        /\ MCPService.systemPrompt Data r1 = MCPService.systemPrompt Data r2
        /\ MCPService.prompt Data r1 = MCPService.prompt Data r2)
    /\ (key r1 = key r2 ->
        MCPService.model Data r1 = MCPService.model Data r2)
    /\ (key r1 = key r2 -> temp r1 = temp r2 -> sys r1 = sys r2 ->
        MCPService.prompt Data r1 = MCPService.prompt Data r2).
Proof.
  intros Data numToString r1 r2 key temp sys. split; [|split; [|split]].
  - intros Hm Ht Hs Hp. unfold key, MCPService.generateExactCacheKey.
    now rewrite Hm, Ht, Hs, Hp.
  - intros Ht1 Ht2 Hs1 Hs2 Htemp Hsys Hkey.
    unfold key, MCPService.generateExactCacheKey in Hkey.
    simpl in Hkey. injection Hkey as Hkey.
    apply cut_at_colon in Hkey; try apply show_model_no_colon.
    destruct Hkey as [Hm Hkey]. apply show_model_inj in Hm.
    apply cut_at_colon in Hkey; auto.
    destruct Hkey as [HT Hkey].
    apply cut_at_colon in Hkey; auto.
    destruct Hkey as [HS HP]. auto.
  - intros Hkey.
    unfold key, MCPService.generateExactCacheKey in Hkey.
    simpl in Hkey. injection Hkey as Hkey.
    apply cut_at_colon in Hkey; try apply show_model_no_colon.
    destruct Hkey as [Hm _]. now apply show_model_inj in Hm.
  - intros Hkey Ht Hs.
    unfold key, MCPService.generateExactCacheKey in Hkey.
    simpl in Hkey. injection Hkey as Hkey.
    apply cut_at_colon in Hkey; try apply show_model_no_colon.
    destruct Hkey as [_ Hkey].
    fold (temp r1) (temp r2) (sys r1) (sys r2) in Hkey.
    rewrite Ht, Hs in Hkey.
    apply append_same_prefix in Hkey. simpl in Hkey. injection Hkey as Hkey.
    apply append_same_prefix in Hkey. simpl in Hkey.
    now injection Hkey as Hkey.
Qed.

(** Four requests with a temperature and a system prompt.  The second
    differs from the first in [maxTokens] only, which the key leaves
    out; the third in the temperature, the fourth in the system
    prompt. *)
Lemma C9_exact_key_witness :
  let r1 := Sample.styled (Some 0.5%Q) (Some "You are a CAD assistant")
              (Some 100) in
  let r2 := Sample.styled (Some 0.5%Q) (Some "You are a CAD assistant")
              None in
  let r3 := Sample.styled (Some 0.7%Q) (Some "You are a CAD assistant")
              (Some 100) in
  let r4 := Sample.styled (Some 0.5%Q) None (Some 100) in
  let key :=
    MCPService.generateExactCacheKey Sample.Data Sample.numToString in
  r1 <> r2 /\ key r1 = key r2
  /\ (key r1 = key r2 ->
      MCPService.temperature Sample.Data r1
      = MCPService.temperature Sample.Data r2
      /\ MCPService.systemPrompt Sample.Data r1
         = MCPService.systemPrompt Sample.Data r2)
  /\ key r1 <> key r3
  /\ key r1 <> key r4.
Proof.
  intros r1 r2 r3 r4 key.
  destruct (C9_exact_key_identifies_request Sample.Data Sample.numToString
              r1 r2) as (Hsame12 & Hback12 & _).
  destruct (C9_exact_key_identifies_request Sample.Data Sample.numToString
              r1 r3) as (_ & Hback13 & _).
  destruct (C9_exact_key_identifies_request Sample.Data Sample.numToString
              r1 r4) as (_ & Hback14 & _).
  split; [discriminate|]. split; [apply Hsame12; reflexivity|].
  split; [|split].
  - intros Hkey.
    destruct (Hback12 eq_refl eq_refl eq_refl eq_refl
                (fun _ => eq_refl) (fun _ => eq_refl) Hkey)
      as (_ & Ht & Hs & _).
    split; [exact Ht | exact Hs].
  - intros Hkey.
    assert (Hrender :
              MCPService.show Sample.numToString
                (MCPService.temperature Sample.Data r1)
              = MCPService.show Sample.numToString
                  (MCPService.temperature Sample.Data r3) ->
              MCPService.temperature Sample.Data r1
              = MCPService.temperature Sample.Data r3)
      by (intros Hr; vm_compute in Hr; discriminate Hr).
    destruct (Hback13 eq_refl eq_refl eq_refl eq_refl Hrender
                (fun _ => eq_refl) Hkey) as (_ & Ht & _).
    discriminate Ht.
  - intros Hkey.
    assert (Hrender :
              MCPService.show (fun s => s)
                (MCPService.systemPrompt Sample.Data r1)
              = MCPService.show (fun s => s)
                  (MCPService.systemPrompt Sample.Data r4) ->
              MCPService.systemPrompt Sample.Data r1
              = MCPService.systemPrompt Sample.Data r4)
      by (intros Hr; vm_compute in Hr; discriminate Hr).
    destruct (Hback14 eq_refl eq_refl eq_refl eq_refl
                (fun _ => eq_refl) Hrender Hkey) as (_ & _ & Hs & _).
    discriminate Hs.
Defined.

(** Two requests that differ in systemPrompt and prompt, with one key:
    the colon in a system prompt is not told from the separator. *)
Lemma C9_counterexample_colon :
  let r1 :=
    {| MCPService.prompt := "c";
       MCPService.model := Some gpt_4o;
       MCPService.systemPrompt := Some "a:b";
       MCPService.temperature := Some 0.5%Q;
       MCPService.maxTokens := None;
       MCPService.parseResponse := None;
       MCPService.metadata := None;
       MCPService.mcpParams := None |} in
  let r2 :=
    {| MCPService.prompt := "b:c";
       MCPService.model := Some gpt_4o;
       MCPService.systemPrompt := Some "a";
       MCPService.temperature := Some 0.5%Q;
       MCPService.maxTokens := None;
       MCPService.parseResponse := None;
       MCPService.metadata := None;
       MCPService.mcpParams := None |} in
  MCPService.generateExactCacheKey Sample.Data Sample.numToString r1
  = MCPService.generateExactCacheKey Sample.Data Sample.numToString r2
  /\ MCPService.systemPrompt Sample.Data r1
     <> MCPService.systemPrompt Sample.Data r2
  /\ MCPService.prompt Sample.Data r1 <> MCPService.prompt Sample.Data r2.
Proof. split; [reflexivity | split; discriminate]. Qed.

(** ** The queue *)

Section QueueFacts.
Context {Data : Type}.
Abbreviation Entry := (MCPService.QueueEntry Data).
Abbreviation pick_step := (MCPService.pick_step Data).
Abbreviation q_priority := (MCPService.q_priority Data).
Abbreviation q_timestamp := (MCPService.q_timestamp Data).

Lemma picked_step seen acc id (e : Entry) :
  picked seen acc -> -1 <= q_priority e ->
  picked (seen ++ [(id, e)]) (pick_step acc (id, e)).
Proof.
  unfold picked, MCPService.pick_step, MCPService.older.
  destruct acc as [h o sel].
  cbn [MCPService.selectedRequestId MCPService.highestPriority
       MCPService.oldestTimestamp].
  intros Hinv Hge.
  assert (Hlast : In (id, e) (seen ++ [(id, e)]))
    by (apply in_or_app; right; now left).
  destruct sel as [id0|].
  - destruct Hinv as (e0 & Hin & -> & -> & Hmax).
    assert (Hold : In (id0, e0) (seen ++ [(id, e)]))
      by (apply in_or_app; now left).
    destruct (Z.ltb_spec (q_priority e0) (q_priority e)) as [Hlt|Hnlt];
      [|destruct (Z.eqb_spec (q_priority e) (q_priority e0)) as [Heq|Hne];
        [destruct (Z.ltb_spec (q_timestamp e) (q_timestamp e0)) as [Hts|Hts]|]];
      cbn [andb MCPService.selectedRequestId MCPService.highestPriority
           MCPService.oldestTimestamp];
      [exists e | exists e | exists e0 | exists e0];
      (split; [assumption|]); (split; [lia|]);
      (split; [reflexivity|]);
      intros id' e' Hin'; apply in_app_or in Hin';
      (destruct Hin' as [Hin'|[Hin'|[]]];
       [destruct (Hmax _ _ Hin') | injection Hin' as <- <-]);
      split; lia.
  - destruct Hinv as (-> & -> & ->).
    destruct (Z.ltb_spec (-1) (q_priority e)) as [Hlt|Hnlt];
      [|destruct (Z.eqb_spec (q_priority e) (-1)) as [Heq|Hne]; [|lia]];
      cbn [andb MCPService.selectedRequestId MCPService.highestPriority
           MCPService.oldestTimestamp];
      exists e;
      (split; [assumption|]); (split; [auto|]); (split; [reflexivity|]);
      intros id' e' [Hin'|[]]; injection Hin' as <- <-; split; lia.
Qed.

Lemma picked_fold l : forall seen acc,
  picked seen acc ->
  (forall id (e : Entry), In (id, e) l -> -1 <= q_priority e) ->
  picked (seen ++ l) (fold_left pick_step l acc).
Proof.
  induction l as [|[id e] l IH]; intros seen acc H Hge; simpl.
  - now rewrite app_nil_r.
  - replace (seen ++ (id, e) :: l) with ((seen ++ [(id, e)]) ++ l)
      by now rewrite <- app_assoc.
    apply IH.
    + apply picked_step; auto. apply (Hge id). now left.
    + intros id' e' Hin. apply (Hge id'). now right.
Qed.
End QueueFacts.

(** What [getNextRequest] does on a queue whose weights are all at
    least [-1], the value its search starts from: on such a queue, when
    it is not empty, it removes and returns an entry of the greatest
    weight and, among the entries of that weight, of the least
    timestamp.  The default weights are high = 100 > normal = 50 >
    low = 10.  (The queue is a [Map]: its ids are distinct; and its ids
    are not empty, as the ids that [enqueue] makes are.) *)
Theorem getNextRequest_highest_then_oldest :
  forall (Data : Type) (q : JsMap.t (MCPService.QueueEntry Data)),
    q <> [] ->
    NoDup (JsMap.keys q) ->
    (forall id e, In (id, e) q ->
       id <> "" /\ -1 <= MCPService.q_priority Data e) ->
    (exists id e,
        MCPService.getNextRequest Data q = (Some (id, e), JsMap.delete id q)
        /\ In (id, e) q
        /\ ~ In id (JsMap.keys (JsMap.delete id q))
        /\ forall id' e', In (id', e') q ->
             MCPService.q_priority Data e' <= MCPService.q_priority Data e
             /\ (MCPService.q_priority Data e' = MCPService.q_priority Data e ->
                 MCPService.q_timestamp Data e
                 <= MCPService.q_timestamp Data e'))
    /\ (let weight :=
          MCPService.level
            (MCPService.priorityLevels MCPService.defaultOptions) in
        weight MCPService.p_high = 100
        /\ weight MCPService.p_normal = 50
        /\ weight MCPService.p_low = 10
        /\ weight MCPService.p_low < weight MCPService.p_normal
           < weight MCPService.p_high).
Proof.
  intros Data q Hne Hnd Hwf.
  split; [|cbv; repeat split; reflexivity].
  assert (Hinv : picked q (MCPService.pick Data q)).
  { apply (picked_fold q []).
    - unfold picked; simpl. auto.
    - intros id e Hin. now apply (Hwf id e). }
  unfold MCPService.getNextRequest. unfold picked in Hinv.
  destruct (MCPService.selectedRequestId (MCPService.pick Data q)) as [id|].
  - destruct Hinv as (e & Hin & _ & _ & Hmax).
    exists id, e.
    assert (Hid : truthy (Some id) = true).
    { simpl. destruct (String.eqb_spec id ""); [|reflexivity].
      now destruct (Hwf _ _ Hin). }
    rewrite Hid, (In_get _ _ _ Hnd Hin). simpl.
    repeat split; auto.
    + intros Hk. apply keys_delete in Hk. tauto.
    + now destruct (Hmax _ _ H).
    + now destruct (Hmax _ _ H).
  - destruct Hinv as (-> & _). now destruct Hne.
Qed.

Lemma getNextRequest_highest_then_oldest_witness :
  exists id e,
    MCPService.getNextRequest Sample.Data Sample.queue3
    = (Some (id, e), JsMap.delete id Sample.queue3)
    /\ id = "req_2_b".
Proof.
  destruct (getNextRequest_highest_then_oldest Sample.Data Sample.queue3)
    as [(id & e & Hget & _) _].
  - discriminate.
  - repeat constructor; simpl; intuition discriminate.
  - intros id e [H|[H|[H|[]]]]; injection H as <- <-; simpl;
      split; (discriminate || lia).
  - exists id, e. split; [exact Hget|].
    vm_compute in Hget. injection Hget as <- _. reflexivity.
Defined.

(** C6, evaluated.  With the weights high = -2 > normal = -3 > low = -4,
    a request enqueued at high priority on an idle service is never
    selected: no weight is greater than the [-1] that the search of
    [getNextRequest] starts from, so it returns nothing on a queue that
    is not empty, and the request stays in the queue. *)
Theorem C6_negative_weights_never_selected :
  let s :=
    Sample.run (Sample.service Sample.negativeLevels)
      [MCPService.Enqueue Sample.Data (Sample.request "draw a cube")
         MCPService.p_high 0 "k3x"] in
  map (fun ie => (fst ie, MCPService.q_priority Sample.Data (snd ie)))
    (MCPService.requestQueue _ _ s) = [("req_0_k3x", -2)]
  /\ fst (MCPService.getNextRequest Sample.Data (MCPService.requestQueue _ _ s))
     = None
  /\ MCPService.inflight _ _ s = None
  /\ MCPService.settled _ _ s = [].
Proof. vm_compute. repeat split. Qed.

(** ** The executor *)

Lemma sleeps_app tr1 tr2 : sleeps (tr1 ++ tr2) = sleeps tr1 ++ sleeps tr2.
Proof.
  induction tr1 as [|[] tr1 IH]; simpl; auto. now rewrite IH.
Qed.

Lemma apiCalls_app tr1 tr2 :
  apiCalls (tr1 ++ tr2) = (apiCalls tr1 + apiCalls tr2)%nat.
Proof.
  induction tr1 as [|[] tr1 IH]; simpl; auto.
Qed.

(** The test of the [catch], [retryCount < maxRetries], holds of the
    counts below the number of counts that [maxRetries] exceeds. *)
Lemma below_countsBelow n x :
  MCPService.below n x = true <-> (n < MCPService.countsBelow x)%nat.
Proof.
  destruct x as [q| |]; cbn; [|split; [discriminate|lia]..].
  rewrite Qltb_lt. split; intros H.
  - assert (Hz : (inject_Z (Z.of_nat n) < inject_Z (Qceiling q))%Q)
      by (eapply Qlt_le_trans; [exact H | apply Qle_ceiling]).
    rewrite <- Zlt_Qlt in Hz. lia.
  - eapply Qle_lt_trans; [|apply (Qceiling_lt q)].
    rewrite <- Zle_Qle. lia.
Qed.

Lemma not_below_countsBelow n x :
  MCPService.below n x = false <-> (MCPService.countsBelow x <= n)%nat.
Proof.
  pose proof (below_countsBelow n x) as H.
  destruct (MCPService.below n x); split; intros H'; try easy.
  - assert (n < MCPService.countsBelow x)%nat by now apply H. lia.
  - destruct (Nat.lt_ge_cases n (MCPService.countsBelow x)) as [Hlt|Hge];
      [apply H in Hlt; discriminate | assumption].
Qed.

(** A natural number exceeds exactly the counts below it. *)
Lemma countsBelow_nat (m : nat) :
  MCPService.countsBelow (MCPService.Num (inject_Z (Z.of_nat m))) = m.
Proof. cbn. rewrite Qceiling_Z. lia. Qed.

Ltac retry_test :=
  repeat match goal with
         | H : MCPService.below ?n ?x = true |- _ =>
             lazymatch goal with
             | _ : (n < MCPService.countsBelow x)%nat |- _ => fail
             | _ => pose proof (proj1 (below_countsBelow n x) H)
             end
         | H : MCPService.below ?n ?x = false |- _ =>
             lazymatch goal with
             | _ : (MCPService.countsBelow x <= n)%nat |- _ => fail
             | _ => pose proof (proj1 (not_below_countsBelow n x) H)
             end
         end.

Section ExecutorFacts.
Variable Data : Type.
Variable Embedding : Type.
Variable getEmbedding : string -> Embedding.
Variable cosineSimilarity : Embedding -> Embedding -> Q.
Variable numToString : Q -> string.
Variable fetch : nat -> MCPService.FetchOutcome.

Abbreviation World := (MCPService.World Data Embedding).
Abbreviation AIRequest := (MCPService.AIRequest Data).
Abbreviation trace := (MCPService.trace Data Embedding).
Abbreviation calls := (MCPService.calls Data Embedding).
Abbreviation track := (MCPService.track Data Embedding).
Abbreviation lookupExact :=
  (MCPService.lookupExact Data Embedding numToString).
Abbreviation lookupSemantic :=
  (MCPService.lookupSemantic Data Embedding getEmbedding cosineSimilarity).
Abbreviation storeInCaches :=
  (MCPService.storeInCaches Data Embedding getEmbedding numToString).
Abbreviation finishResponse :=
  (MCPService.finishResponse Data Embedding getEmbedding numToString).
Abbreviation callProviderAPI :=
  (MCPService.callProviderAPI Data Embedding fetch).
Abbreviation attempt :=
  (MCPService.attempt Data Embedding getEmbedding cosineSimilarity
     numToString fetch).
Abbreviation executeRequest :=
  (MCPService.executeRequest Data Embedding getEmbedding cosineSimilarity
     numToString fetch).

Implicit Types (w : World) (request : AIRequest) (o : MCPService.MCPOptions).

Lemma quiet_refl w : quiet w w.
Proof. repeat split. Qed.

Lemma quiet_trans w1 w2 w3 : quiet w1 w2 -> quiet w2 w3 -> quiet w1 w3.
Proof.
  unfold quiet. intros (A1 & B1 & C1) (A2 & B2 & C2).
  repeat split; congruence.
Qed.

Lemma quiet_track a b w : quiet w (track a b w).
Proof.
  unfold quiet, MCPService.track, MCPService.emit. simpl.
  rewrite sleeps_app, apiCalls_app. simpl.
  rewrite app_nil_r, Nat.add_0_r. auto.
Qed.

Lemma quiet_lookupExact o w request : quiet w (fst (lookupExact o w request)).
Proof.
  unfold MCPService.lookupExact.
  destruct (MCPService.uses_exact _); [|apply quiet_refl].
  destruct (AICache.get _ _ _) as [r c]. simpl.
  eapply quiet_trans; [|apply quiet_track]. repeat split.
Qed.

Lemma quiet_lookupSemantic o w request cached :
  quiet w (fst (fst (lookupSemantic o w request cached))).
Proof.
  unfold MCPService.lookupSemantic.
  destruct cached; [apply quiet_refl|].
  destruct (_ && _); [|apply quiet_refl].
  destruct (SemanticCache.findSimilar _ _ _ _ _ _ _) as [[res|] c]; simpl;
    (eapply quiet_trans; [|apply quiet_track]); repeat split.
Qed.

Lemma quiet_storeInCaches o w request r ttl :
  quiet w (storeInCaches o w request r ttl).
Proof.
  unfold MCPService.storeInCaches.
  destruct (MCPService.uses_exact _), (_ && _); repeat split.
Qed.

Lemma quiet_finishResponse o startTime w request r :
  quiet w (fst (finishResponse o startTime w request r)).
Proof.
  unfold MCPService.finishResponse.
  destruct (MCPService.runParser _ _ _) as [parsed [msg|]];
    destruct (storeResult _) as [[|]|]; simpl;
    repeat (first [ apply quiet_refl
                  | apply quiet_track
                  | apply quiet_storeInCaches
                  | eapply quiet_trans; [|apply quiet_track]
                  | eapply quiet_trans; [|apply quiet_storeInCaches] ]).
Qed.

(** One call of [callProviderAPI] is one call of the provider. *)
Lemma callProviderAPI_effects w request p :
  let w' := fst (callProviderAPI w request p) in
  sleeps (trace w') = sleeps (trace w)
  /\ apiCalls (trace w') = S (apiCalls (trace w))
  /\ calls w' = S (calls w).
Proof.
  unfold MCPService.callProviderAPI.
  destruct (MCPService.result _) as [msg|st msg|txt a b c]; simpl;
    rewrite !sleeps_app, !apiCalls_app; simpl;
    rewrite !app_nil_r; repeat split; lia.
Qed.

(** An attempt never sleeps, calls the provider at most once, and
    fails only after having called it. *)
Lemma attempt_effects o w request :
  let w' := fst (attempt o w request) in
  sleeps (trace w') = sleeps (trace w)
  /\ (apiCalls (trace w') <= S (apiCalls (trace w)))%nat
  /\ (apiCalls (trace w) <= apiCalls (trace w'))%nat
  /\ (calls w' + apiCalls (trace w) = calls w + apiCalls (trace w'))%nat.
Proof.
  unfold MCPService.attempt.
  pose proof (quiet_lookupExact o w request) as H1.
  destruct (lookupExact o w request) as [w1 exactHit]. cbn [fst] in H1.
  pose proof (quiet_lookupSemantic o w1 request exactHit) as H2.
  destruct (lookupSemantic o w1 request exactHit) as [[w2 cached] s].
  cbn [fst] in H2.
  pose proof (quiet_trans _ _ _ H1 H2) as (A & B & C).
  destruct cached as [r|].
  - cbv zeta. cbn [fst].
    destruct (quiet_track "mcp" "cache_hit" w2) as (A' & B' & C').
    rewrite A', B', C', A, B, C. repeat split; lia.
  - pose proof (callProviderAPI_effects w2 request
                  (MCPService.getProviderForModel (MCPService.model Data request)))
      as (A' & B' & C').
    destruct (callProviderAPI w2 request _) as [w3 [err|r]];
      cbv zeta in *; cbn [fst] in *.
    + rewrite A', B', C', A, B, C. repeat split; lia.
    + pose proof (quiet_finishResponse o (MCPService.clock _ _ w) w3 request r)
        as (A'' & B'' & C'').
      destruct (finishResponse o _ w3 request r) as [w4 res].
      cbn [fst] in *.
      rewrite A'', B'', C'', A', B', C', A, B, C. repeat split; lia.
Qed.
Lemma sleep_effects d w :
  let w' := MCPService.sleep Data Embedding d w in
  sleeps (trace w') = sleeps (trace w) ++ [d]
  /\ apiCalls (trace w') = apiCalls (trace w)
  /\ calls w' = calls w.
Proof.
  unfold MCPService.sleep, MCPService.elapse, MCPService.emit. simpl.
  rewrite sleeps_app, apiCalls_app. simpl. repeat split; lia.
Qed.

Lemma executeRequest_effects o w request c :
  let w' := fst (executeRequest o w request c) in
  exists k,
    (c + k
     <= Nat.max c (MCPService.countsBelow (MCPService.maxRetries o)))%nat
    /\ sleeps (trace w')
       = sleeps (trace w) ++ map (MCPService.backoff o) (seq c k)
    /\ (apiCalls (trace w') <= apiCalls (trace w) + k + 1)%nat
    /\ (calls w' + apiCalls (trace w) = calls w + apiCalls (trace w'))%nat.
Proof.
  funelim (executeRequest o w request c); cbv zeta; cbn [fst].
  - (* the attempt returns *)
    pose proof (attempt_effects o w request) as (A & B & B' & C).
    match goal with
    | H : attempt o w request = _ |- _ => rewrite H in A, B, B', C
    end.
    cbn [fst] in *.
    exists 0%nat. simpl. rewrite app_nil_r. repeat split; try lia; auto.
  - (* the attempt throws and is retried *)
    pose proof (attempt_effects o w request) as (A & B & B' & C).
    match goal with
    | H : attempt o w request = _ |- _ => rewrite H in A, B, B', C
    end.
    cbn [fst] in *.
    pose proof (sleep_effects (MCPService.backoff o retryCount) w1)
      as (As & Bs & Cs). cbv zeta in *.
    match goal with
    | IH : exists _, _ |- _ => destruct IH as (k & Hk & HA & HB & HC)
    end.
    exists (S k). rewrite HA, As, A, <- app_assoc. simpl. retry_test.
    repeat split; try lia; auto.
  - (* the attempt throws and the retries are exhausted *)
    pose proof (attempt_effects o w request) as (A & B & B' & C).
    match goal with
    | H : attempt o w request = _ |- _ => rewrite H in A, B, B', C
    end.
    cbn [fst] in *.
    destruct (quiet_track "error" "request_failed" w1) as (A' & B2 & C').
    exists 0%nat. rewrite A', B2, C'. simpl. rewrite app_nil_r.
    repeat split; try lia; auto.
Qed.

(** *** When every call of the provider fails *)

Abbreviation all_fail := (all_fail fetch).

Abbreviation unanswered :=
  (unanswered getEmbedding cosineSimilarity numToString).

Lemma unanswered_sleep o request d w :
  unanswered o request w ->
  unanswered o request (MCPService.sleep Data Embedding d w).
Proof. intros [H1 H2]. split; assumption. Qed.

Lemma unanswered_attempt_fails o w request :
  all_fail -> unanswered o request w ->
  exists w1 err,
    attempt o w request = (w1, inr err)
    /\ unanswered o request w1
    /\ apiCalls (trace w1) = S (apiCalls (trace w)).
Proof.
  intros all_fail [Hx Hs]. unfold MCPService.attempt.
  assert (Hexact : exists w1,
             lookupExact o w request = (w1, None)
             /\ unanswered o request w1 /\ quiet w w1).
  { unfold MCPService.lookupExact, AICache.get.
    destruct (MCPService.uses_exact _).
    - rewrite Hx. eexists. split; [reflexivity|].
      split; [split; assumption | ].
      eapply quiet_trans; [|apply quiet_track]. repeat split.
    - exists w. repeat split; assumption. }
  destruct Hexact as (w1 & -> & [Hx1 Hs1] & Q1).
  assert (Hsem : exists w2 s,
             lookupSemantic o w1 request None = (w2, None, s)
             /\ unanswered o request w2 /\ quiet w1 w2).
  { unfold MCPService.lookupSemantic.
    destruct (_ && _).
    - match goal with
      | |- context [SemanticCache.findSimilar ?E ?g ?cs ?c ?q ?fo ?t] =>
          pose proof (findSimilar_none g cs c q fo t Hs1) as Hnone;
          pose proof (fun k e => findSimilar_subset g cs c q fo t k e) as Hsub;
          destruct (SemanticCache.findSimilar E g cs c q fo t) as [found c']
      end.
      cbn [fst snd] in Hnone, Hsub. subst found.
      eexists. eexists. split; [reflexivity|].
      split; [split; [assumption | intros k e Hin; apply (Hs1 k); auto]|].
      eapply quiet_trans; [|apply quiet_track]. repeat split.
    - exists w1. eexists. repeat split; assumption. }
  destruct Hsem as (w2 & s & -> & [Hx2 Hs2] & Q2).
  destruct (quiet_trans _ _ _ Q1 Q2) as (_ & B & _).
  pose proof (callProviderAPI_effects w2 request
                (MCPService.getProviderForModel (MCPService.model Data request)))
    as (_ & B' & _).
  assert (Hun : unanswered o request
                  (fst (callProviderAPI w2 request
                          (MCPService.getProviderForModel
                             (MCPService.model Data request))))).
  { unfold MCPService.callProviderAPI.
    destruct (MCPService.result _); split; assumption. }
  assert (Hfail : exists err,
             snd (callProviderAPI w2 request
                    (MCPService.getProviderForModel
                       (MCPService.model Data request))) = inl err).
  { unfold MCPService.callProviderAPI.
    pose proof (all_fail (calls (track "mcp" "api_call" w2))) as Hf.
    destruct (MCPService.result _); simpl in *; [eauto | eauto | discriminate]. }
  destruct Hfail as [err Herr].
  destruct (callProviderAPI w2 request _) as [w3 res].
  cbv zeta in *. cbn [fst snd] in *. subst res.
  exists w3, err. repeat split; [apply Hun | apply Hun | congruence].
Qed.

End ExecutorFacts.

(** * Further properties of the code *)

(** ** Loops that delete from the map they walk *)

Section SweepFacts.
Context {V : Type}.
Variable expired : V -> bool.
Implicit Types (m l : JsMap.t V).

(** Deleting, for each entry of [l] that has expired, the entries of
    its key. *)
Abbreviation sweep_step :=
  (fun m (e : string * V) =>
     if expired (snd e) then JsMap.delete (fst e) m else m).

Lemma filter_twice (f g : string * V -> bool) m :
  filter f (filter g m) = filter (fun e => g e && f e) m.
Proof.
  induction m as [|e m IH]; simpl; auto.
  destruct (g e); simpl; [destruct (f e)|]; now rewrite IH.
Qed.

Lemma sweep_filter l : forall m,
  fold_left sweep_step l m
  = filter (fun e =>
              negb (existsb (fun e' => String.eqb (fst e) (fst e')
                                       && expired (snd e')) l)) m.
Proof.
  induction l as [|x l IH]; intros m; simpl.
  - induction m as [|e m IHm]; simpl; congruence.
  - rewrite IH. destruct (expired (snd x)) eqn:Hx.
    + unfold JsMap.delete. rewrite filter_twice.
      apply filter_ext. intros e. rewrite andb_true_r.
      now rewrite negb_orb.
    + apply filter_ext. intros e. now rewrite andb_false_r.
Qed.

(** On a map (distinct keys) swept by its own entries, what is left is
    what has not expired, in the same order. *)
Lemma sweep_self m :
  NoDup (JsMap.keys m) ->
  fold_left sweep_step m m = filter (fun e => negb (expired (snd e))) m.
Proof.
  intros Hnd. rewrite sweep_filter. apply filter_ext_in.
  intros [k v] Hin. simpl. f_equal.
  destruct (expired v) eqn:Hv.
  - apply existsb_exists. exists (k, v). simpl.
    now rewrite String.eqb_refl, Hv.
  - destruct (existsb _ m) eqn:Hex; [|reflexivity].
    apply existsb_exists in Hex. destruct Hex as ([k' v'] & Hin' & Hkv).
    simpl in Hkv. apply andb_true_iff in Hkv. destruct Hkv as [Hk Hv'].
    apply String.eqb_eq in Hk. subst k'.
    pose proof (In_get _ _ _ Hnd Hin) as G1.
    pose proof (In_get _ _ _ Hnd Hin') as G2.
    congruence.
Qed.
End SweepFacts.

(** ** More on [AICache] *)

Section AICacheMore.
Context {T : Type}.
Implicit Types (m : JsMap.t (AICache.CacheItem T)) (c : AICache.t T).

(** The loop of [removeOldestItem] ends on the least timestamp below the
    one it starts from, and on the key of an entry that has it. *)
Lemma oldest_min m : forall acc,
  let r := fold_left AICache.oldest_step m acc in
  (forall k item, In (k, item) m -> snd r <= AICache.timestamp item)
  /\ snd r <= snd acc
  /\ (r = acc
      \/ exists k item, In (k, item) m /\ fst r = Some k
                        /\ snd r = AICache.timestamp item
                        /\ AICache.timestamp item < snd acc).
Proof.
  induction m as [|[k item] m IH]; intros acc; simpl.
  - split; [intros ? ? []|]. split; [lia | now left].
  - specialize (IH (AICache.oldest_step acc (k, item))).
    cbv zeta in IH. destruct IH as (Hall & Hle & Hcase).
    remember (fold_left AICache.oldest_step m
                (AICache.oldest_step acc (k, item))) as r eqn:Hr.
    clear Hr.
    assert (Hstep : AICache.oldest_step acc (k, item)
                    = if AICache.timestamp item <? snd acc
                      then (Some k, AICache.timestamp item) else acc)
      by reflexivity.
    rewrite Hstep in Hle, Hcase. clear Hstep.
    destruct (Z.ltb_spec (AICache.timestamp item) (snd acc)) as [Hlt|Hge];
      cbn [fst snd] in *.
    + split; [|split; [lia|]].
      * intros k' item' [Heq|Hin]; [injection Heq as <- <-; lia | eauto].
      * right. destruct Hcase as [->|(k0 & i0 & Hin & H1 & H2 & H3)].
        -- exists k, item. simpl. repeat split; auto.
        -- exists k0, i0. repeat split; auto. lia.
    + split; [|split; [lia|]].
      * intros k' item' [Heq|Hin]; [injection Heq as <- <-|eauto].
        destruct Hcase as [->|(k0 & i0 & _ & _ & H2 & H3)]; lia.
      * destruct Hcase as [->|(k0 & i0 & Hin & H1 & H2 & H3)];
          [now left|].
        right. exists k0, i0. repeat split; auto.
Qed.

Lemma length_delete_one k (v : AICache.CacheItem T) m :
  NoDup (JsMap.keys m) -> In (k, v) m ->
  S (List.length (JsMap.delete k m)) = List.length m.
Proof.
  induction m as [|[k' v'] m IH]; simpl; [tauto|].
  intros Hnd Hin. inversion Hnd as [|? ? Hnotin Hnd']; subst.
  destruct (String.eqb_spec k' k) as [->|Hne]; simpl.
  - f_equal. unfold JsMap.delete.
    rewrite forallb_filter_id; [reflexivity|].
    apply forallb_forall. intros [k1 v1] Hin1. simpl.
    destruct (String.eqb_spec k1 k) as [->|]; [|reflexivity].
    exfalso. apply Hnotin. change k with (fst (k, v1)). now apply in_map.
  - destruct Hin as [Heq|Hin]; [congruence|]. f_equal. now apply IH.
Qed.
End AICacheMore.

Lemma get_filter {V} (f : string * V -> bool) k (m : JsMap.t V) :
  NoDup (JsMap.keys m) ->
  JsMap.get k (filter f m)
  = match JsMap.get k m with
    | Some v => if f (k, v) then Some v else None
    | None => None
    end.
Proof.
  induction m as [|[k' v'] m IH]; simpl; [reflexivity|].
  intros Hnd. inversion Hnd as [|? ? Hnotin Hnd']; subst.
  destruct (String.eqb_spec k' k) as [->|Hne].
  - destruct (f (k, v')) eqn:Hf; simpl.
    + now rewrite String.eqb_refl.
    + rewrite (IH Hnd').
      destruct (JsMap.get k m) as [v|] eqn:G; [|reflexivity].
      exfalso. apply Hnotin. apply get_In in G.
      change k with (fst (k, v)). now apply in_map.
  - destruct (f (k', v')); simpl; [|now apply IH].
    destruct (String.eqb_spec k' k); [contradiction | now apply IH].
Qed.

Lemma get_set_other {V} k k' (v : V) (m : JsMap.t V) :
  k' <> k -> JsMap.get k' (JsMap.set k v m) = JsMap.get k' m.
Proof.
  intros Hne. induction m as [|[k0 v0] m IH]; simpl.
  - destruct (String.eqb_spec k k'); [congruence | reflexivity].
  - destruct (String.eqb_spec k0 k) as [->|Hk]; simpl.
    + destruct (String.eqb_spec k k'); [congruence | reflexivity].
    + destruct (String.eqb_spec k0 k'); [reflexivity | exact IH].
Qed.

Lemma In_set_other {V} k k' (v v' : V) (m : JsMap.t V) :
  k' <> k -> In (k', v') m -> In (k', v') (JsMap.set k v m).
Proof.
  intros Hne. induction m as [|[k0 v0] m IH]; simpl; [tauto|].
  destruct (String.eqb_spec k0 k) as [->|Hk]; simpl.
  - intros [H|H]; [injection H as <- <-; congruence | now right].
  - intros [H|H]; [now left | right; auto].
Qed.

(** X1. What [set] stores under a key, [get] returns for that key at
    every time up to the entry's expiry, and leaves the cache as it is.
    The expiry is the time of the [set] plus the TTL given, or plus the
    cache's TTL when none (or 0) is given. *)
Theorem X1_get_returns_what_set_stored :
  forall (T : Type) (c : AICache.t T) (key : string) (d : T)
         (customTtl : option Z) (t t' : Z),
    t' <= t + or_default customTtl (AICache.ttl (AICache.options c)) ->
    AICache.get (AICache.set c key d customTtl t) key t'
    = (Some d, AICache.set c key d customTtl t).
Proof.
  intros T c key d customTtl t t' Hfresh.
  unfold AICache.get.
  assert (Hget : JsMap.get key
                   (AICache.cache (AICache.set c key d customTtl t))
                 = Some {| AICache.data := d; AICache.timestamp := t;
                           AICache.expiresAt :=
                             t + or_default customTtl
                                   (AICache.ttl (AICache.options c));
                           AICache.hash := key |}).
  { unfold AICache.set. cbn [AICache.cache AICache.with_cache].
    apply get_set_same. }
  rewrite Hget. cbn [AICache.expiresAt AICache.data].
  destruct (Z.ltb_spec
              (t + or_default customTtl (AICache.ttl (AICache.options c))) t');
    [lia | reflexivity].
Qed.

Lemma X1_get_returns_what_set_stored_witness :
  fst (AICache.get (AICache.set Sample.cache3 "b" "again" (Some 0) 10) "b" 110)
  = Some "again".
Proof.
  rewrite (X1_get_returns_what_set_stored string Sample.cache3 "b" "again"
             (Some 0) 10 110); [reflexivity|].
  vm_compute. discriminate.
Defined.

(** X2. [removeOldestItem] evicts an oldest entry and nothing else: when
    some entry was stored before the current millisecond, it deletes
    one entry whose timestamp no other entry is below, and keeps all
    others; when no entry was, it leaves the cache as it is.  (The
    cache is a [Map], and its keys are not empty.) *)
Theorem X2_removeOldestItem_evicts_an_oldest :
  forall (T : Type) (c : AICache.t T) (now : Z),
    NoDup (JsMap.keys (AICache.cache c)) ->
    (forall k item, In (k, item) (AICache.cache c) -> k <> "") ->
    ((exists k item, In (k, item) (AICache.cache c)
                     /\ AICache.timestamp item < now) ->
     exists k item,
       In (k, item) (AICache.cache c)
       /\ (forall k' item', In (k', item') (AICache.cache c) ->
             AICache.timestamp item <= AICache.timestamp item')
       /\ AICache.cache (AICache.removeOldestItem c now)
          = JsMap.delete k (AICache.cache c)
       /\ (forall k' item', In (k', item') (AICache.cache c) -> k' <> k ->
             In (k', item') (AICache.cache (AICache.removeOldestItem c now)))
       /\ AICache.size (AICache.removeOldestItem c now) = AICache.size c - 1)
    /\ ((forall k item, In (k, item) (AICache.cache c) ->
           now <= AICache.timestamp item) ->
        AICache.removeOldestItem c now = c).
Proof.
  intros T c now Hnd Hkeys.
  pose proof (oldest_min (AICache.cache c) (None, now)) as Hmin.
  cbv zeta in Hmin. destruct Hmin as (Hall & Hle & Hcase).
  unfold AICache.removeOldestItem.
  destruct (fold_left AICache.oldest_step (AICache.cache c) (None, now))
    as [oldestKey oldestTimestamp].
  cbn [fst snd] in *. split.
  - intros (k1 & i1 & Hin1 & Hold1).
    destruct Hcase as [Heq|(k & item & Hin & -> & -> & Hlt)].
    + injection Heq as -> ->. specialize (Hall _ _ Hin1). lia.
    + exists k, item.
      assert (Hk : truthy (Some k) = true).
      { simpl. destruct (String.eqb_spec k ""); [|reflexivity].
        exfalso. now apply (Hkeys _ _ Hin). }
      rewrite Hk. cbn [AICache.cache AICache.with_cache].
      split; [assumption|]. split; [exact Hall|]. split; [reflexivity|].
      split.
      * intros k' item' Hin' Hne. apply In_delete. now split.
      * unfold AICache.size, JsMap.size.
        cbn [AICache.cache AICache.with_cache].
        pose proof (length_delete_one k item _ Hnd Hin). lia.
  - intros Hnone.
    destruct Hcase as [Heq|(k & item & Hin & _ & _ & Hlt)].
    + injection Heq as -> ->. reflexivity.
    + specialize (Hnone _ _ Hin). lia.
Qed.

Lemma X2_removeOldestItem_witness :
  AICache.cache (AICache.removeOldestItem Sample.cache3 5)
  = JsMap.delete "a" (AICache.cache Sample.cache3).
Proof.
  destruct (X2_removeOldestItem_evicts_an_oldest string Sample.cache3 5)
    as [Hevict _].
  - vm_compute. repeat constructor; simpl; intuition discriminate.
  - intros k item [H|[H|[H|[]]]]; injection H as <- _; discriminate.
  - destruct Hevict as (k & item & _ & _ & Heq & _).
    + exists "a". eexists. split; [left; reflexivity | vm_compute; reflexivity].
    + reflexivity.
Defined.

Section AICacheEviction.
Context {T : Type}.
Implicit Types (c : AICache.t T).

(** [removeOldestItem] leaves the cache as it is, or deletes the key of
    an entry with the least timestamp. *)
Lemma removeOldestItem_cases c now :
  AICache.removeOldestItem c now = c
  \/ exists k item,
       In (k, item) (AICache.cache c)
       /\ AICache.timestamp item < now
       /\ (forall k' item', In (k', item') (AICache.cache c) ->
             AICache.timestamp item <= AICache.timestamp item')
       /\ AICache.removeOldestItem c now
          = AICache.with_cache c (JsMap.delete k (AICache.cache c)).
Proof.
  pose proof (oldest_min (AICache.cache c) (None, now)) as Hmin.
  cbv zeta in Hmin. destruct Hmin as (Hall & Hle & Hcase).
  unfold AICache.removeOldestItem.
  destruct (fold_left AICache.oldest_step (AICache.cache c) (None, now))
    as [oldestKey oldestTimestamp].
  cbn [fst snd] in *.
  destruct Hcase as [Heq|(k & item & Hin & -> & -> & Hlt)].
  - injection Heq as -> ->. now left.
  - destruct (truthy (Some k)); [|now left].
    right. exists k, item. auto.
Qed.

Lemma NoDup_delete k (m : JsMap.t (AICache.CacheItem T)) :
  NoDup (JsMap.keys m) -> NoDup (JsMap.keys (JsMap.delete k m)).
Proof.
  induction m as [|[k' v'] m IH]; simpl; auto.
  intros Hnd. inversion Hnd as [|? ? Hnotin Hnd']; subst.
  destruct (String.eqb k' k); simpl; auto.
  constructor; auto. intros Hin. apply keys_delete in Hin. tauto.
Qed.
End AICacheEviction.

(** X3. [set] stores the entry under its key and removes at most one
    other key: an entry under another key is still there afterwards,
    unless the cache was full and its key was that of an oldest entry
    (even when the key set was already present).  When the cache can
    evict (it holds an entry stored before the current millisecond), a
    cache within [maxSize] stays within [maxSize]. *)
Theorem X3_set_removes_at_most_an_oldest_entry :
  forall (T : Type) (c : AICache.t T) (key : string) (d : T)
         (customTtl : option Z) (now : Z),
    let c' := AICache.set c key d customTtl now in
    JsMap.get key (AICache.cache c')
    = Some {| AICache.data := d; AICache.timestamp := now;
              AICache.expiresAt :=
                now + or_default customTtl (AICache.ttl (AICache.options c));
              AICache.hash := key |}
    /\ (forall k item, In (k, item) (AICache.cache c) -> k <> key ->
          In (k, item) (AICache.cache c')
          \/ (AICache.maxSize (AICache.options c) <= AICache.size c
              /\ exists oldest,
                   In (k, oldest) (AICache.cache c)
                   /\ forall k' item', In (k', item') (AICache.cache c) ->
                        AICache.timestamp oldest <= AICache.timestamp item'))
    /\ (AICache.size c <= AICache.maxSize (AICache.options c) ->
        (forall k item, In (k, item) (AICache.cache c) -> k <> "") ->
        (exists k item, In (k, item) (AICache.cache c)
                        /\ AICache.timestamp item < now) ->
        AICache.size c' <= AICache.maxSize (AICache.options c)).
Proof.
  intros T c key d customTtl now c'. split; [|split].
  - unfold c', AICache.set. cbn [AICache.cache AICache.with_cache].
    apply get_set_same.
  - intros k item Hin Hne. unfold c', AICache.set.
    cbn [AICache.cache AICache.with_cache].
    destruct (Z.leb_spec (AICache.maxSize (AICache.options c))
                (JsMap.size (AICache.cache c))) as [Hfull|Hroom].
    + destruct (removeOldestItem_cases c now)
        as [->|(k0 & i0 & Hin0 & _ & Hmin & ->)].
      * left. now apply In_set_other.
      * cbn [AICache.cache AICache.with_cache].
        destruct (String.eqb_spec k k0) as [->|Hk].
        -- right. split; [exact Hfull|]. exists i0. auto.
        -- left. apply In_set_other; [assumption|].
           apply In_delete. now split.
    + left. now apply In_set_other.
  - intros Hsize Hkeys Hold. now apply set_within_maxSize.
Qed.

(** X4. [clearExpired] removes exactly the entries that have expired
    (those [get] would refuse) and keeps the others in their order, so
    it never changes what [get] answers at that time. *)
Theorem X4_clearExpired_keeps_the_live_entries :
  forall (T : Type) (c : AICache.t T) (now : Z),
    NoDup (JsMap.keys (AICache.cache c)) ->
    AICache.cache (AICache.clearExpired c now)
    = filter (fun e => negb (AICache.expiresAt (snd e) <? now))
        (AICache.cache c)
    /\ AICache.options (AICache.clearExpired c now) = AICache.options c
    /\ forall key,
         fst (AICache.get (AICache.clearExpired c now) key now)
         = fst (AICache.get c key now).
Proof.
  intros T c now Hnd.
  assert (Hcache : AICache.cache (AICache.clearExpired c now)
                   = filter (fun e => negb (AICache.expiresAt (snd e) <? now))
                       (AICache.cache c)).
  { unfold AICache.clearExpired. cbn [AICache.cache AICache.with_cache].
    apply (sweep_self (fun v => AICache.expiresAt v <? now)). exact Hnd. }
  split; [exact Hcache|]. split; [reflexivity|].
  intros key. unfold AICache.get. rewrite Hcache.
  rewrite get_filter by exact Hnd. cbn [snd].
  destruct (JsMap.get key (AICache.cache c)) as [item|]; [|reflexivity].
  destruct (AICache.expiresAt item <? now) eqn:E; simpl; [reflexivity|].
  now rewrite E.
Qed.

Lemma X4_clearExpired_witness :
  JsMap.keys (AICache.cache (AICache.clearExpired Sample.cache3 60))
  = ["a"; "c"]
  /\ fst (AICache.get (AICache.clearExpired Sample.cache3 60) "b" 60)
     = fst (AICache.get Sample.cache3 "b" 60).
Proof.
  destruct (X4_clearExpired_keeps_the_live_entries string Sample.cache3 60)
    as (Hcache & _ & Hget).
  - vm_compute. repeat constructor; simpl; intuition discriminate.
  - split; [now rewrite Hcache | apply Hget].
Defined.

Section ShrinkFacts.
Context {T : Type}.
Variable clock : nat -> Z.
Implicit Types (c : AICache.t T).

Lemma shrink_spec fuel : forall i c,
  (List.length (AICache.cache c) <= fuel)%nat ->
  NoDup (JsMap.keys (AICache.cache c)) ->
  (forall k item, In (k, item) (AICache.cache c) ->
     k <> "" /\ forall j, AICache.timestamp item < clock j) ->
  0 <= AICache.maxSize (AICache.options c) ->
  exists c',
    AICache.shrink fuel clock i c = Some c'
    /\ AICache.options c' = AICache.options c
    /\ AICache.size c'
       = Z.min (AICache.size c) (AICache.maxSize (AICache.options c))
    /\ (forall k item, In (k, item) (AICache.cache c') ->
          In (k, item) (AICache.cache c))
    /\ (forall k item k' item',
          In (k, item) (AICache.cache c) ->
          ~ In (k, item) (AICache.cache c') ->
          In (k', item') (AICache.cache c') ->
          AICache.timestamp item <= AICache.timestamp item').
Proof.
  induction fuel as [|fuel IH]; intros i c Hlen Hnd Hwf Hmax; simpl.
  - assert (Hnil : AICache.cache c = [])
      by (destruct (AICache.cache c); [reflexivity | simpl in Hlen; lia]).
    unfold JsMap.size, AICache.size, JsMap.size. rewrite Hnil. simpl.
    destruct (Z.ltb_spec (AICache.maxSize (AICache.options c)) 0); [lia|].
    exists c. rewrite Hnil. repeat split; auto; try (simpl; lia); tauto.
  - unfold AICache.size.
    destruct (Z.ltb_spec (AICache.maxSize (AICache.options c))
                (JsMap.size (AICache.cache c))) as [Hbig|Hfit].
    + (* one more round *)
      assert (Hne : exists k item, In (k, item) (AICache.cache c)).
      { destruct (AICache.cache c) as [|[k item] m] eqn:E.
        - unfold JsMap.size in Hbig. simpl in Hbig. lia.
        - exists k, item. now left. }
      destruct Hne as (k1 & i1 & Hin1).
      destruct (removeOldestItem_cases c (clock i))
        as [Hsame|(k0 & i0 & Hin0 & Hlt0 & Hmin & Heq)].
      * exfalso.
        pose proof (oldest_min (AICache.cache c) (None, clock i)) as Hm.
        cbv zeta in Hm. destruct Hm as (Hall & _ & Hcase).
        unfold AICache.removeOldestItem in Hsame.
        destruct (fold_left AICache.oldest_step (AICache.cache c)
                    (None, clock i)) as [ok ot].
        cbn [fst snd] in *.
        destruct Hcase as [Hacc|(k & item & Hin & -> & -> & Hlt)].
        -- injection Hacc as -> ->. specialize (Hall _ _ Hin1).
           destruct (Hwf _ _ Hin1) as [_ Hts]. specialize (Hts i). lia.
        -- assert (Hk : truthy (Some k) = true).
           { simpl. destruct (String.eqb_spec k ""); [|reflexivity].
             exfalso. now apply (proj1 (Hwf _ _ Hin)). }
           rewrite Hk in Hsame.
           apply (f_equal (fun x => List.length (AICache.cache x))) in Hsame.
           cbn [AICache.cache AICache.with_cache] in Hsame.
           pose proof (length_delete_one k item _ Hnd Hin). lia.
      * rewrite Heq.
        pose proof (length_delete_one k0 i0 _ Hnd Hin0) as Hlen0.
        destruct (IH (S i)
                    (AICache.with_cache c (JsMap.delete k0 (AICache.cache c))))
          as (c' & Hrun & Hopt & Hsize & Hsub & Hnew).
        -- cbn [AICache.cache AICache.with_cache]. lia.
        -- cbn [AICache.cache AICache.with_cache]. now apply NoDup_delete.
        -- cbn [AICache.cache AICache.with_cache].
           intros k item Hin. apply In_delete in Hin. apply Hwf. tauto.
        -- exact Hmax.
        -- cbn [AICache.cache AICache.with_cache AICache.options] in *.
           exists c'. split; [exact Hrun|]. split; [exact Hopt|].
           unfold AICache.size, JsMap.size in *.
           cbn [AICache.cache AICache.with_cache] in Hsize.
           split; [lia|]. split.
           ++ intros k item Hin. apply Hsub in Hin.
              apply In_delete in Hin. tauto.
           ++ intros k item k' item' Hin Hout Hin'.
              destruct (String.eqb_spec k k0) as [->|Hk].
              ** pose proof (In_get _ _ _ Hnd Hin) as G1.
                 pose proof (In_get _ _ _ Hnd Hin0) as G2.
                 assert (item = i0) by congruence. subst item.
                 apply Hmin with k'. apply Hsub in Hin'.
                 apply In_delete in Hin'. tauto.
              ** apply (Hnew k item k' item'); auto.
                 apply In_delete. now split.
    + exists c. unfold AICache.size. repeat split; auto; try lia.
      intros k item k' item' Hin Hout. contradiction.
Qed.
End ShrinkFacts.

(** X5. [setMaxSize] on a cache whose entries were all stored before it
    is called: the loop ends within as many rounds as the cache has
    entries, the cache is left with [min(size, maxSize)] entries, all of
    them entries it had, and every entry it has lost is at most as
    recent as every entry it has kept.  ([maxSize] is not negative: the
    loop cannot end below an empty cache.) *)
Theorem X5_setMaxSize_keeps_the_newest :
  forall (T : Type) (clock : nat -> Z) (c : AICache.t T) (newMax : Z),
    NoDup (JsMap.keys (AICache.cache c)) ->
    (forall k item, In (k, item) (AICache.cache c) ->
       k <> "" /\ forall j, AICache.timestamp item < clock j) ->
    0 <= newMax ->
    exists c',
      AICache.setMaxSize (List.length (AICache.cache c)) clock c newMax
      = Some c'
      /\ AICache.maxSize (AICache.options c') = newMax
      /\ AICache.size c' = Z.min (AICache.size c) newMax
      /\ (forall k item, In (k, item) (AICache.cache c') ->
            In (k, item) (AICache.cache c))
      /\ (forall k item k' item',
            In (k, item) (AICache.cache c) ->
            ~ In (k, item) (AICache.cache c') ->
            In (k', item') (AICache.cache c') ->
            AICache.timestamp item <= AICache.timestamp item').
Proof.
  intros T clock c newMax Hnd Hwf Hmax. unfold AICache.setMaxSize.
  match goal with
  | |- context [AICache.shrink _ _ _ ?c0] =>
      destruct (shrink_spec clock (List.length (AICache.cache c)) 0%nat c0)
        as (c' & Hrun & Hopt & Hsize & Hsub & Hnew); auto
  end.
  exists c'. rewrite Hopt. auto.
Qed.

Lemma X5_setMaxSize_witness :
  exists c',
    AICache.setMaxSize 3 (fun _ => 5) Sample.cache3 1 = Some c'
    /\ JsMap.keys (AICache.cache c') = ["c"].
Proof.
  destruct (X5_setMaxSize_keeps_the_newest string (fun _ => 5)
              Sample.cache3 1) as (c' & Hrun & _).
  - vm_compute. repeat constructor; simpl; intuition discriminate.
  - intros k item [H|[H|[H|[]]]]; injection H as <- <-;
      (split; [discriminate | intros _; reflexivity]).
  - lia.
  - exists c'. split; [exact Hrun|].
    vm_compute in Hrun. injection Hrun as <-. reflexivity.
Defined.

(** ** The hashes *)

Lemma toInt32_spec z :
  (exists k, toInt32 z = z + k * 2 ^ 32)
  /\ - 2 ^ 31 <= toInt32 z < 2 ^ 31.
Proof.
  unfold toInt32. split.
  - exists (- ((z + 2 ^ 31) / 2 ^ 32)).
    pose proof (Z.div_mod (z + 2 ^ 31) (2 ^ 32)). lia.
  - pose proof (Z.mod_pos_bound (z + 2 ^ 31) (2 ^ 32)). lia.
Qed.

Lemma toInt32_congr a b k : a = b + k * 2 ^ 32 -> toInt32 a = toInt32 b.
Proof.
  intros ->. unfold toInt32.
  replace (b + k * 2 ^ 32 + 2 ^ 31) with (b + 2 ^ 31 + k * 2 ^ 32) by lia.
  now rewrite Z.mod_add by lia.
Qed.

Lemma toInt32_fits z : - 2 ^ 31 <= z < 2 ^ 31 -> toInt32 z = z.
Proof.
  intros H. unfold toInt32. rewrite Z.mod_small; lia.
Qed.

(** One round of the loop multiplies by 31 and adds the character
    code, modulo [2 ^ 32]. *)
Lemma hash_round h c :
  toInt32 (toInt32 (Z.shiftl (toInt32 h) 5) - h + c) = toInt32 (31 * h + c).
Proof.
  rewrite Z.shiftl_mul_pow2 by lia.
  destruct (toInt32_spec h) as [[k1 H1] _].
  destruct (toInt32_spec (toInt32 h * 2 ^ 5)) as [[k2 H2] _].
  apply toInt32_congr with (k := 32 * k1 + k2).
  change (2 ^ 5) with 32 in *. change (2 ^ 32) with 4294967296 in *. lia.
Qed.

Lemma poly31_congr s : forall a b k,
  a = b + k * 2 ^ 32 -> exists k', poly31 a s = poly31 b s + k' * 2 ^ 32.
Proof.
  induction s as [|c s IH]; intros a b k H; cbn [poly31].
  - now exists k.
  - apply (IH _ _ (31 * k)).
    change (2 ^ 32) with 4294967296 in *. lia.
Qed.

Lemma simpleHash_from_poly31 s : forall h c,
  SemanticCache.simpleHash_from h (String c s)
  = toInt32 (poly31 h (String c s)).
Proof.
  induction s as [|c' s IH]; intros h c.
  - simpl. apply hash_round.
  - change (SemanticCache.simpleHash_from h (String c (String c' s)))
      with (SemanticCache.simpleHash_from
              (toInt32 (toInt32 (Z.shiftl (toInt32 h) 5) - h
                        + Z.of_nat (nat_of_ascii c))) (String c' s)).
    rewrite IH, hash_round.
    change (poly31 h (String c (String c' s)))
      with (poly31 (31 * h + Z.of_nat (nat_of_ascii c)) (String c' s)).
    destruct (toInt32_spec (31 * h + Z.of_nat (nat_of_ascii c)))
      as [[k Hk] _].
    destruct (poly31_congr (String c' s) _ _ _ Hk) as [k' Hk'].
    now apply toInt32_congr with (k := k').
Qed.

Lemma hash_from_simpleHash s : forall h,
  AICache.hash_from h s = SemanticCache.simpleHash_from h s.
Proof. induction s as [|c s IH]; intros h; simpl; auto. Qed.

Lemma hex_of_Z_inj a b : 0 <= a -> 0 <= b -> hex_of_Z a = hex_of_Z b -> a = b.
Proof.
  intros Ha Hb H. unfold hex_of_Z in H.
  assert (Hnn : forall n, N.to_hex_uint n <> Hexadecimal.Nil).
  { intros n Hn.
    pose proof (HexadecimalN.Unsigned.to_of (N.to_hex_uint n)) as E.
    rewrite HexadecimalN.Unsigned.of_to, Hn in E. discriminate. }
  apply (f_equal HexadecimalString.NilZero.uint_of_string) in H.
  rewrite !HexadecimalString.NilZero.usu in H by apply Hnn.
  injection H as H. apply HexadecimalN.Unsigned.to_uint_inj in H. lia.
Qed.

(** X6. [simpleHash] of a string that is not empty is the polynomial in
    31 of its character codes, started from the seed, wrapped to a
    signed 32-bit integer; of the empty string it is the seed as it is
    given. *)
Theorem X6_simpleHash_is_the_polynomial_in_31 :
  forall (str : string) (seed : Z),
    (str <> "" ->
     SemanticCache.simpleHash str seed = toInt32 (poly31 seed str)
     /\ - 2 ^ 31 <= SemanticCache.simpleHash str seed < 2 ^ 31)
    /\ SemanticCache.simpleHash "" seed = seed.
Proof.
  intros str seed. split; [|reflexivity].
  intros Hne. destruct str as [|c s]; [congruence|].
  unfold SemanticCache.simpleHash. rewrite simpleHash_from_poly31.
  split; [reflexivity | apply toInt32_spec].
Qed.

(** X7. The key that [getKeyForRequest] gives a payload is the
    hexadecimal rendering of the absolute value of the wrapped
    polynomial in 31 of its JSON text: two payloads get the same key
    exactly when these absolute values agree, and payloads with
    different texts do share keys. *)
Theorem X7_getKeyForRequest_collisions :
  (forall (s1 s2 : string) (now1 now2 : Z) (rnd1 rnd2 : string),
     AICache.getKeyForRequest (Some s1) now1 rnd1
     = AICache.getKeyForRequest (Some s2) now2 rnd2
     <-> Z.abs (toInt32 (poly31 0 s1)) = Z.abs (toInt32 (poly31 0 s2)))
  /\ (forall (s : string) (now : Z) (rnd : string),
        AICache.getKeyForRequest (Some s) now rnd
        = ("cache-" ++ hex_of_Z (Z.abs (SemanticCache.simpleHash s 0)))%string)
  /\ AICache.getKeyForRequest (Some "Aa") 0 "0.1"
     = AICache.getKeyForRequest (Some "BB") 5 "0.2".
Proof.
  assert (Hh : forall s, AICache.hash_from 0 s = toInt32 (poly31 0 s)).
  { intros [|c s]; [reflexivity|].
    rewrite hash_from_simpleHash. apply simpleHash_from_poly31. }
  split; [|split].
  - intros s1 s2 now1 now2 rnd1 rnd2.
    unfold AICache.getKeyForRequest, AICache.hashString. rewrite !Hh.
    split.
    + intros H. simpl in H. injection H as H.
      apply hex_of_Z_inj in H; [exact H | lia | lia].
    + now intros ->.
  - intros s now rnd. unfold AICache.getKeyForRequest, AICache.hashString.
    now rewrite hash_from_simpleHash.
  - reflexivity.
Qed.

(** ** More on the semantic cache *)

Section SemanticMore.
Context {R : Type}.
Variable Embedding : Type.
Variable getEmbedding : string -> Embedding.
Variable cosineSimilarity : Embedding -> Embedding -> Q.
Implicit Types (st : SemanticCache.Scan R Embedding).

Abbreviation scan_step :=
  (SemanticCache.scan_step (R := R) Embedding cosineSimilarity).
Abbreviation live now :=
  (fun e : string * SemanticCache.Entry R Embedding =>
     negb (SemanticCache.expiresAt _ (snd e) <? now)).

(** The loop deletes from its cache as [clearExpired] does. *)
Lemma scan_cache_sweep qe o now l : forall st,
  SemanticCache.scan_cache _ (fold_left (scan_step qe o now) l st)
  = fold_left
      (fun m e =>
         if SemanticCache.expiresAt _ (snd e) <? now
         then JsMap.delete (fst e) m else m)
      l (SemanticCache.scan_cache _ st).
Proof.
  induction l as [|[key entry] l IH]; intros st; simpl; [reflexivity|].
  rewrite IH. f_equal. unfold SemanticCache.scan_step.
  destruct (SemanticCache.expiresAt _ entry <? now); [reflexivity|].
  destruct (SemanticCache.wrong_model _ o entry); [reflexivity|].
  now destruct (_ && _).
Qed.

(** The best match found does not depend on the expired entries. *)
Lemma scan_best_live qe o now l : forall st st',
  SemanticCache.highestSimilarity _ st = SemanticCache.highestSimilarity _ st' ->
  SemanticCache.bestMatch _ st = SemanticCache.bestMatch _ st' ->
  SemanticCache.bestMatch _ (fold_left (scan_step qe o now) l st)
  = SemanticCache.bestMatch _
      (fold_left (scan_step qe o now) (filter (live now) l) st').
Proof.
  induction l as [|[key entry] l IH]; intros st st' Hh Hb;
    cbn [fold_left filter]; [exact Hb|].
  cbn [snd].
  destruct (SemanticCache.expiresAt _ entry <? now) eqn:Hexp;
    cbn [negb fold_left].
  - apply IH; unfold SemanticCache.scan_step; rewrite Hexp; assumption.
  - apply IH; unfold SemanticCache.scan_step; rewrite Hexp;
      destruct (SemanticCache.wrong_model _ o entry); auto;
      rewrite Hh; destruct (_ && _); auto.
Qed.
End SemanticMore.

(** Storing, then looking the query up. *)
Lemma store_then_findSimilar :
  forall (R E : Type) (getE : string -> E) (cos : E -> E -> Q)
         (c : SemanticCache.t R E) (q : string) (r : R)
         (so : SemanticCache.StoreOptions) (fo : SemanticCache.FindOptions)
         (t t' : Z),
    NoDup (JsMap.keys c) ->
    t' <= t + SemanticCache.st_ttl so ->
    SemanticCache.st_model so = SemanticCache.opt_model fo
    \/ truthy (SemanticCache.st_model so) = false
    \/ truthy (SemanticCache.opt_model fo) = false ->
    (-1 < cos (getE q) (getE q))%Q ->
    (SemanticCache.minSimilarity fo <= cos (getE q) (getE q))%Q ->
    let stored := SemanticCache.store E getE c q r so t in
    let found :=
      fst (SemanticCache.findSimilar E getE cos (snd stored) q fo t') in
    exists x,
      found = Some x
      /\ (cos (getE q) (getE q) <= SemanticCache.similarity x)%Q
      /\ ((forall k e, In (k, e) c -> k <> fst stored ->
             comparable fo t' e = true ->
             (cos (getE q) (SemanticCache.embedding E e)
              < cos (getE q) (getE q))%Q) ->
          SemanticCache.cacheKey x = fst stored
          /\ SemanticCache.res_response x = r).
Proof.
  intros R E getE cos c q r so fo t t' Hnd Hlive Hmodel Hself Hfloor
    stored found.
  set (entry := {| SemanticCache.embedding := getE q;
                   SemanticCache.response := r;
                   SemanticCache.query := q;
                   SemanticCache.systemPrompt := SemanticCache.st_systemPrompt so;
                   SemanticCache.model := SemanticCache.st_model so;
                   SemanticCache.expiresAt := t + SemanticCache.st_ttl so |}).
  assert (Hin : In (fst stored, entry) (snd stored))
    by (unfold stored, SemanticCache.store; cbn [fst snd]; apply In_set_same).
  assert (Hnd' : NoDup (JsMap.keys (snd stored)))
    by (unfold stored, SemanticCache.store; cbn [fst snd]; now apply NoDup_set).
  assert (Hcomp : comparable fo t' entry = true).
  { unfold comparable, SemanticCache.wrong_model.
    cbn [SemanticCache.expiresAt SemanticCache.model entry].
    destruct (Z.ltb_spec (t + SemanticCache.st_ttl so) t'); [lia|].
    cbn [negb andb].
    destruct Hmodel as [Heq|[Hf|Hf]].
    - rewrite Heq. destruct (SemanticCache.opt_model fo) as [a|].
      + rewrite String.eqb_refl. cbn. now rewrite andb_false_r.
      + reflexivity.
    - rewrite Hf. now rewrite andb_false_r.
    - now rewrite Hf. }
  pose proof (findSimilar_scanned getE cos (snd stored) q fo t') as Hinv.
  unfold scanned in Hinv.
  assert (Hfound : found
            = SemanticCache.bestMatch E
                (fold_left (SemanticCache.scan_step E cos (getE q) fo t')
                   (snd stored)
                   {| SemanticCache.highestSimilarity := (-1)%Q;
                      SemanticCache.bestMatch := None;
                      SemanticCache.scan_cache := snd stored |}))
    by reflexivity.
  rewrite <- Hfound in Hinv. clear Hfound.
  destruct found as [x|].
  - destruct Hinv as (_ & _ & (e & Hine & Hce & Hse & Hre) & Hmax).
    exists x. split; [reflexivity|]. split.
    + apply (Hmax _ _ Hin Hcomp).
    + intros Hless.
      assert (Hkey : SemanticCache.cacheKey x = fst stored).
      { destruct (String.eqb_spec (SemanticCache.cacheKey x) (fst stored))
          as [|Hne]; [assumption|].
        exfalso.
        assert (Hs : snd stored = JsMap.set (fst stored) entry c)
          by reflexivity.
        rewrite Hs in Hine. apply In_set in Hine.
        destruct Hine as [[Hk _]|Hine]; [now apply Hne|].
        specialize (Hless _ _ Hine Hne Hce).
        specialize (Hmax _ _ Hin Hcomp). cbn [SemanticCache.embedding entry] in Hmax.
        rewrite Hse in Hmax. now apply (Qlt_not_le _ _ Hless). }
      split; [exact Hkey|].
      rewrite Hkey in Hine.
      pose proof (In_get _ _ _ Hnd' Hine) as G1.
      pose proof (In_get _ _ _ Hnd' Hin) as G2.
      assert (e = entry) by congruence. subst e. exact Hre.
  - exfalso. destruct Hinv as (_ & Hnone).
    apply (Hnone _ _ Hin Hcomp). now split.
Qed.

(** X8. A response stored in the semantic cache is found again: until
    it expires, [findSimilar] with the query it was stored for (and a
    model it does not exclude, and a floor the query's similarity to
    itself reaches) returns a result at least that similar; it returns
    the stored response itself when every other comparable entry is
    less similar. *)
Theorem X8_store_then_findSimilar :
  forall (R E : Type) (getE : string -> E) (cos : E -> E -> Q)
         (c : SemanticCache.t R E) (q : string) (r : R)
         (so : SemanticCache.StoreOptions) (fo : SemanticCache.FindOptions)
         (t t' : Z),
    NoDup (JsMap.keys c) ->
    t' <= t + SemanticCache.st_ttl so ->
    SemanticCache.st_model so = SemanticCache.opt_model fo
    \/ truthy (SemanticCache.st_model so) = false
    \/ truthy (SemanticCache.opt_model fo) = false ->
    (-1 < cos (getE q) (getE q))%Q ->
    (SemanticCache.minSimilarity fo <= cos (getE q) (getE q))%Q ->
    let stored := SemanticCache.store E getE c q r so t in
    let found :=
      fst (SemanticCache.findSimilar E getE cos (snd stored) q fo t') in
    exists x,
      found = Some x
      /\ (cos (getE q) (getE q) <= SemanticCache.similarity x)%Q
      /\ ((forall k e, In (k, e) c -> k <> fst stored ->
             comparable fo t' e = true ->
             (cos (getE q) (SemanticCache.embedding E e)
              < cos (getE q) (getE q))%Q) ->
          SemanticCache.cacheKey x = fst stored
          /\ SemanticCache.res_response x = r).
Proof. exact store_then_findSimilar. Qed.

Lemma X8_store_then_findSimilar_witness :
  let stored :=
    SemanticCache.store Sample.Embedding Sample.getEmbedding Sample.answers
      "a sphere" "ball"
      {| SemanticCache.st_model := None; SemanticCache.st_systemPrompt := None;
         SemanticCache.st_ttl := 1000 |} 3 in
  exists x,
    fst (Sample.findSimilar (snd stored) "a sphere" Sample.floor08 1003)
    = Some x
    /\ (1 <= SemanticCache.similarity x)%Q
    /\ ((forall k e, In (k, e) Sample.answers -> k <> fst stored ->
           comparable Sample.floor08 1003 e = true ->
           (Sample.cosineSimilarity (Sample.getEmbedding "a sphere")
              (SemanticCache.embedding _ e) < 1)%Q) ->
        SemanticCache.cacheKey x = fst stored
        /\ SemanticCache.res_response x = "ball").
Proof.
  apply (X8_store_then_findSimilar string Sample.Embedding
           Sample.getEmbedding Sample.cosineSimilarity Sample.answers
           "a sphere" "ball"
           {| SemanticCache.st_model := None;
              SemanticCache.st_systemPrompt := None;
              SemanticCache.st_ttl := 1000 |} Sample.floor08 3 1003).
  - vm_compute. repeat constructor; simpl; intuition discriminate.
  - simpl. lia.
  - left. reflexivity.
  - reflexivity.
  - vm_compute. discriminate.
Defined.

(** X9. [findSimilar] leaves in the cache exactly the entries that have
    not expired, in their order, whatever it finds; and what it finds
    does not depend on the expired entries: a lookup in the cache it
    leaves finds what the same lookup in the cache it was given
    finds. *)
Theorem X9_findSimilar_purges_the_expired :
  forall (R E : Type) (getE : string -> E) (cos : E -> E -> Q)
         (c : SemanticCache.t R E) (q : string)
         (o : SemanticCache.FindOptions) (now : Z),
    NoDup (JsMap.keys c) ->
    let c' := snd (SemanticCache.findSimilar E getE cos c q o now) in
    c' = filter (fun e => negb (SemanticCache.expiresAt E (snd e) <? now)) c
    /\ forall q' o',
         fst (SemanticCache.findSimilar E getE cos c' q' o' now)
         = fst (SemanticCache.findSimilar E getE cos c q' o' now).
Proof.
  intros R E getE cos c q o now Hnd c'.
  assert (Hc' : c' = filter (fun e => negb (SemanticCache.expiresAt E (snd e)
                                            <? now)) c).
  { unfold c', SemanticCache.findSimilar. cbn [snd].
    rewrite scan_cache_sweep. cbn [SemanticCache.scan_cache].
    apply (sweep_self (fun v => SemanticCache.expiresAt E v <? now)).
    exact Hnd. }
  split; [exact Hc'|].
  intros q' o'. rewrite Hc'. unfold SemanticCache.findSimilar. cbn [fst].
  symmetry. apply scan_best_live; reflexivity.
Qed.

Lemma X9_findSimilar_purges_witness :
  let c' := snd (Sample.findSimilar Sample.answers "a cube" Sample.floor08 1002) in
  map (fun e => SemanticCache.query _ (snd e)) c' = ["a gear"]
  /\ forall q' o',
       fst (Sample.findSimilar c' q' o' 1002)
       = fst (Sample.findSimilar Sample.answers q' o' 1002).
Proof.
  destruct (X9_findSimilar_purges_the_expired string Sample.Embedding
              Sample.getEmbedding Sample.cosineSimilarity Sample.answers
              "a cube" Sample.floor08 1002) as [H1 H2].
  - vm_compute. repeat constructor; simpl; intuition discriminate.
  - split; [|exact H2].
    unfold Sample.findSimilar. rewrite H1. reflexivity.
Defined.

(** ** More on the router *)

Section RouterMore.
Variable metadata : AIModelType -> SmartRouter.ModelMetadata.
Variable options : SmartRouter.SelectOptions.

(** The second loop ends on a greatest total among the scores that
    meet the requirements, when one is above its starting score. *)
Lemma best_max l : forall acc,
  let r := fold_left SmartRouter.best_step l acc in
  (snd acc <= snd r)%Q
  /\ (forall ms, In ms l -> SmartRouter.meetsRequirements (snd ms) = true ->
        (SmartRouter.totalScore (snd ms) <= snd r)%Q)
  /\ (r = acc
      \/ exists ms, In ms l
                    /\ SmartRouter.meetsRequirements (snd ms) = true
                    /\ r = (fst ms, SmartRouter.totalScore (snd ms))
                    /\ (snd acc < SmartRouter.totalScore (snd ms))%Q).
Proof.
  induction l as [|x l IH]; intros acc; simpl.
  - split; [apply Qle_refl|]. split; [intros ? []| now left].
  - specialize (IH (SmartRouter.best_step acc x)). cbv zeta in IH.
    destruct IH as (Hle & Hall & Hcase).
    remember (fold_left SmartRouter.best_step l
                (SmartRouter.best_step acc x)) as r eqn:Hr. clear Hr.
    unfold SmartRouter.best_step in Hle, Hcase.
    destruct (SmartRouter.meetsRequirements (snd x)) eqn:Hmeets;
      cbn [andb] in *.
    + destruct (Qltb (snd acc) (SmartRouter.totalScore (snd x))) eqn:Hlt.
      * apply Qltb_lt in Hlt. cbn [fst snd] in *.
        split; [apply Qle_trans with (SmartRouter.totalScore (snd x));
                [now apply Qlt_le_weak | exact Hle]|].
        split.
        -- intros ms [<-|Hin] Hm; auto.
        -- right. destruct Hcase as [->|(ms & Hin & Hm & -> & Hlt')].
           ++ exists x. repeat split; auto.
           ++ exists ms. repeat split; auto.
              now apply Qlt_trans with (SmartRouter.totalScore (snd x)).
      * apply Qltb_ge in Hlt.
        split; [exact Hle|]. split.
        -- intros ms [<-|Hin] Hm; auto.
           now apply Qle_trans with (snd acc).
        -- destruct Hcase as [->|(ms & Hin & Hm & -> & Hlt')];
             [now left|].
           right. exists ms. repeat split; auto.
    + split; [exact Hle|]. split.
      * intros ms [<-|Hin] Hm; [congruence | auto].
      * destruct Hcase as [->|(ms & Hin & Hm & -> & Hlt')]; [now left|].
        right. exists ms. repeat split; auto.
Qed.

Lemma modelScores_In m sc :
  In (m, sc) (SmartRouter.modelScores metadata options) ->
  SmartRouter.scoreModel metadata options m = Some sc.
Proof.
  unfold SmartRouter.modelScores. intros Hin. apply in_flat_map in Hin.
  destruct Hin as (m0 & _ & Hin).
  destruct (SmartRouter.scoreModel metadata options m0) as [sc0|] eqn:E;
    [|destruct Hin].
  destruct Hin as [Heq|[]]. now injection Heq as <- <-.
Qed.

Lemma selectModel_cases :
  let m := SmartRouter.selectModel metadata options in
  (m = claude_3_7_sonnet_20250219
   /\ forall m' sc',
        SmartRouter.scoreModel metadata options m' = Some sc' ->
        SmartRouter.meetsRequirements sc' = true ->
        (SmartRouter.totalScore sc' <= -1)%Q)
  \/ exists sc,
       SmartRouter.scoreModel metadata options m = Some sc
       /\ SmartRouter.meetsRequirements sc = true
       /\ (-1 < SmartRouter.totalScore sc)%Q
       /\ forall m' sc',
            SmartRouter.scoreModel metadata options m' = Some sc' ->
            SmartRouter.meetsRequirements sc' = true ->
            (SmartRouter.totalScore sc' <= SmartRouter.totalScore sc)%Q.
Proof.
  cbv zeta. unfold SmartRouter.selectModel.
  pose proof (best_max (SmartRouter.modelScores metadata options)
                (claude_3_7_sonnet_20250219, (-1)%Q)) as H.
  cbv zeta in H. destruct H as (_ & Hall & Hcase).
  destruct Hcase as [Heq|([m sc] & Hin & Hm & Heq & Hlt)];
    rewrite Heq in *; cbn [fst snd] in *.
  - left. split; [reflexivity|]. intros m' sc' Hsc' Hm'.
    apply (Hall (m', sc')); [now apply scored_in_modelScores | exact Hm'].
  - right. exists sc. split; [now apply modelScores_In|].
    split; [exact Hm|]. split; [exact Hlt|].
    intros m' sc' Hsc' Hm'.
    apply (Hall (m', sc')); [now apply scored_in_modelScores | exact Hm'].
Qed.
End RouterMore.

(** X10. [selectModel] returns a model of the preferred provider that
    has every required capability at the level of the complexity and
    whose total score, above -1, no other such model exceeds; when no
    such model has a total above -1 it returns
    claude-3-7-sonnet-20250219, whatever that model's provider and
    capabilities. *)
Theorem X10_selectModel_is_a_best_eligible_model :
  forall (metadata : AIModelType -> SmartRouter.ModelMetadata)
         (options : SmartRouter.SelectOptions),
    let m := SmartRouter.selectModel metadata options in
    let eligible m' sc' :=
      SmartRouter.scoreModel metadata options m' = Some sc'
      /\ SmartRouter.meetsRequirements sc' = true in
    (m = claude_3_7_sonnet_20250219
     /\ forall m' sc', eligible m' sc' ->
          (SmartRouter.totalScore sc' <= -1)%Q)
    \/ (exists sc,
          eligible m sc
          /\ (-1 < SmartRouter.totalScore sc)%Q
          /\ (forall p, SmartRouter.o_preferredProvider options = Some p ->
                SmartRouter.provider (metadata m) = p)
          /\ forallb
               (SmartRouter.capabilityMet (metadata m)
                  (SmartRouter.complexityFactors
                     (SmartRouter.over
                        (SmartRouter.o_complexityLevel options) medium)))
               (SmartRouter.over
                  (SmartRouter.o_requiredCapabilities options) [])
             = true
          /\ forall m' sc', eligible m' sc' ->
               (SmartRouter.totalScore sc' <= SmartRouter.totalScore sc)%Q).
Proof.
  intros metadata options m eligible.
  destruct (selectModel_cases metadata options)
    as [[Hdef Hall]|(sc & Hsc & Hm & Hlt & Hall)]; fold m in Hdef || fold m in Hsc.
  - left. split; [exact Hdef|]. intros m' sc' [H1 H2]. eauto.
  - right. exists sc. split; [now split|]. split; [exact Hlt|].
    split; [|split].
    + intros p Hp. eapply scored_has_preferred_provider; eauto.
    + unfold SmartRouter.scoreModel in Hsc.
      destruct (match SmartRouter.o_preferredProvider options with
                | Some p => _ | None => _ end); [discriminate|].
      destruct (forallb _ _); [reflexivity|].
      cbn [negb] in Hsc. injection Hsc as <-. discriminate.
    + intros m' sc' [H1 H2]. eauto.
Qed.

(** X11. The model that [selectOptimalModel] gives a request is an
    OpenAI model only if the request's [mcpParams] name ['OPENAI'], in
    capitals, as the preferred provider: in every other case (no
    [mcpParams], no preferred provider, ['CLAUDE'], or the lower-case
    ['claude'] and ['openai'], which no model of the table has) it is
    a Claude model. *)
Theorem X11_selectOptimalModel_provider :
  forall (Data : Type) (o : MCPService.MCPOptions)
         (r : MCPService.AIRequest Data),
    let m := MCPService.selectOptimalModel Data o r in
    let P := SmartRouter.getProviderForModel SmartRouter.modelsMetadata m in
    (P = CLAUDE
     \/ (P = OPENAI
         /\ preferredProvider (MCPService.params Data o r) = Some OPENAI))
    /\ (preferredProvider (MCPService.params Data o r) = Some claude
        \/ preferredProvider (MCPService.params Data o r) = Some openai ->
        m = claude_3_7_sonnet_20250219).
Proof.
  intros Data o r m P.
  unfold MCPService.selectOptimalModel in m.
  match goal with
  | m := SmartRouter.selectModel _ ?opts |- _ =>
      pose proof (selectModel_cases SmartRouter.modelsMetadata opts) as H;
      pose proof (fun m' sc' =>
                    scored_has_preferred_provider SmartRouter.modelsMetadata
                      opts m' sc'
                      (SmartRouter.over
                         (preferredProvider (MCPService.params Data o r))
                         CLAUDE) eq_refl) as HP
  end.
  cbv zeta in H. fold m in H.
  split.
  - destruct H as [[Hdef _]|(sc & Hsc & _)].
    + left. unfold P. now rewrite Hdef.
    + specialize (HP _ _ Hsc). fold m in HP. unfold P.
      unfold SmartRouter.getProviderForModel. rewrite HP.
      destruct (preferredProvider (MCPService.params Data o r))
        as [[| | |]|] eqn:E; cbn [SmartRouter.over] in *.
      * exfalso. clear - HP. destruct m; discriminate.
      * exfalso. clear - HP. destruct m; discriminate.
      * now left.
      * right. now split.
      * now left.
  - intros Hlower. destruct H as [[Hdef _]|(sc & Hsc & _)]; [exact Hdef|].
    specialize (HP _ _ Hsc). fold m in HP. exfalso.
    destruct Hlower as [E|E]; rewrite E in HP; cbn [SmartRouter.over] in HP;
      clear - HP; destruct m; discriminate.
Qed.

(** X12. For each task type of the router's table, whatever the
    manager's strategy, priority and preferred provider, the model
    that [getRecommendedModel] recommends for a higher complexity has
    a reasoning rating at least as high: low, medium (the default),
    high. *)
Theorem X12_recommended_reasoning_grows_with_complexity :
  forall (m : MCPConfigManager.t),
    Forall
      (fun taskType =>
         let recommended c :=
           MCPConfigManager.getRecommendedModel m taskType c None in
         (reasoningOf (recommended (Some low))
          <= reasoningOf (recommended (Some medium)))%Q
         /\ (reasoningOf (recommended (Some medium))
             <= reasoningOf (recommended (Some high)))%Q
         /\ recommended None = recommended (Some medium))
      (map fst SmartRouter.taskWeights).
Proof.
  intros m. unfold MCPConfigManager.getRecommendedModel.
  generalize (MCPConfigManager.s_priority
                (MCPConfigManager.strategyConfigs m
                   (MCPConfigManager.currentStrategy m))).
  generalize (MCPConfigManager.mgr_preferredProvider m).
  intros [[| | |]|] [| |];
    repeat (constructor;
            [split; [|split];
             [vm_compute; intro H; discriminate H
             |vm_compute; intro H; discriminate H
             |reflexivity]|]);
    constructor.
Qed.

(** A task type that is the name of a member of [Object.prototype]
    finds that member in [taskWeights]: no capability is weighed, and
    every model gets the quality score 5.  Any other task type that the
    table does not have gets the default weights. *)
Lemma calculateQualityScore_inherited md taskType cx :
  SmartRouter.inherited taskType = true ->
  SmartRouter.calculateQualityScore md taskType cx = 5%Q.
Proof.
  intros H. unfold SmartRouter.calculateQualityScore.
  assert (Hnone : SmartRouter.getRelevantCapabilities taskType = []).
  { unfold SmartRouter.getRelevantCapabilities.
    destruct (SmartRouter.prop taskType SmartRouter.taskWeights) eqn:P;
      [|now rewrite H].
    exfalso. revert H P.
    unfold SmartRouter.inherited, SmartRouter.inheritedNames,
      SmartRouter.taskWeights.
    cbn [existsb SmartRouter.prop].
    repeat match goal with
           | |- context [String.eqb ?a ?b] =>
               destruct (String.eqb_spec a b); subst; try discriminate
           end; cbn; congruence. }
  rewrite Hnone. reflexivity.
Qed.

(** ** More on the configuration manager *)

(** X13. [updateStrategyConfig(s, u)] changes the configuration of [s]
    only, and there only the fields that [u] has: [getStrategyParams]
    of another strategy is unchanged, [getMCPParams] is unchanged
    unless [s] is the current strategy, in which case it shows the
    update at once; a later [setStrategy] does not lose the update. *)
Theorem X13_updateStrategyConfig_frame :
  forall (m : MCPConfigManager.t) (s : MCPConfigManager.Strategy)
         (u : MCPConfigManager.PartialConfig),
    let m' := MCPConfigManager.updateStrategyConfig m s u in
    let old := MCPConfigManager.strategyConfigs m s in
    let updated :=
      {| cacheStrategy :=
           SmartRouter.over (MCPConfigManager.u_cacheStrategy u)
             (MCPConfigManager.s_cacheStrategy old);
         minSimilarity :=
           Some (SmartRouter.over (MCPConfigManager.u_minSimilarity u)
                   (MCPConfigManager.s_minSimilarity old));
         cacheTTL :=
           Some (SmartRouter.over (MCPConfigManager.u_cacheTTL u)
                   (MCPConfigManager.s_cacheTTL old));
         priority :=
           Some (SmartRouter.over (MCPConfigManager.u_priority u)
                   (MCPConfigManager.s_priority old));
         storeResult :=
           Some (SmartRouter.over (MCPConfigManager.u_storeResult u)
                   (MCPConfigManager.s_storeResult old));
         multiProviderEnabled :=
           Some (MCPConfigManager.mgr_multiProviderEnabled m);
         preferredProvider := MCPConfigManager.mgr_preferredProvider m |} in
    MCPConfigManager.getStrategyParams m' s = updated
    /\ (forall s', s' <> s ->
          MCPConfigManager.getStrategyParams m' s'
          = MCPConfigManager.getStrategyParams m s')
    /\ (MCPConfigManager.currentStrategy m <> s ->
        MCPConfigManager.getMCPParams m' = MCPConfigManager.getMCPParams m)
    /\ (MCPConfigManager.currentStrategy m = s ->
        MCPConfigManager.getMCPParams m' = updated)
    /\ MCPConfigManager.getMCPParams (MCPConfigManager.setStrategy m' s)
       = updated.
Proof.
  intros m s u m' old updated.
  assert (Hs : MCPConfigManager.Strategy_eqb s s = true)
    by (destruct s; reflexivity).
  assert (Hne : forall s', s' <> s ->
                  MCPConfigManager.Strategy_eqb s' s = false)
    by (intros s' H; destruct s', s; try reflexivity; congruence).
  unfold MCPConfigManager.getMCPParams, MCPConfigManager.getStrategyParams,
    MCPConfigManager.params_of.
  cbn [m' MCPConfigManager.updateStrategyConfig MCPConfigManager.setStrategy
       MCPConfigManager.strategyConfigs MCPConfigManager.currentStrategy
       MCPConfigManager.mgr_multiProviderEnabled
       MCPConfigManager.mgr_preferredProvider].
  rewrite Hs. repeat split.
  - intros s' H. now rewrite (Hne s' H).
  - intros H. now rewrite (Hne _ H).
  - intros ->. now rewrite Hs.
Qed.

(** ** More on the executor *)

(** The purge keeps the keys distinct. *)
Lemma findSimilar_NoDup {R E} (getE : string -> E) (cos : E -> E -> Q)
    (c : SemanticCache.t R E) q o now :
  NoDup (JsMap.keys c) ->
  NoDup (JsMap.keys (snd (SemanticCache.findSimilar E getE cos c q o now))).
Proof.
  intros Hnd. unfold SemanticCache.findSimilar. cbn [snd].
  rewrite scan_cache_sweep. cbn [SemanticCache.scan_cache].
  rewrite (sweep_self (fun v => SemanticCache.expiresAt E v <? now) c Hnd).
  unfold JsMap.keys. clear - Hnd. induction c as [|[k v] c IH]; simpl; auto.
  inversion Hnd as [|? ? Hnotin Hnd']; subst.
  destruct (negb _); simpl; auto.
  constructor; auto. intros Hin. apply Hnotin.
  apply in_map_iff in Hin. destruct Hin as ([k' v'] & <- & Hin).
  apply filter_In in Hin. apply in_map_iff. exists (k', v'). tauto.
Qed.

Section ExecutorMore.
Variable Data : Type.
Variable Embedding : Type.
Variable getEmbedding : string -> Embedding.
Variable cosineSimilarity : Embedding -> Embedding -> Q.
Variable numToString : Q -> string.
Variable fetch : nat -> MCPService.FetchOutcome.

Abbreviation World := (MCPService.World Data Embedding).
Abbreviation AIRequest := (MCPService.AIRequest Data).
Abbreviation trace := (MCPService.trace Data Embedding).
Abbreviation calls := (MCPService.calls Data Embedding).
Abbreviation clock := (MCPService.clock Data Embedding).
Abbreviation exactCache := (MCPService.exactCache Data Embedding).
Abbreviation semanticCache := (MCPService.semanticCache Data Embedding).
Abbreviation track := (MCPService.track Data Embedding).
Abbreviation params := (MCPService.params Data).
Abbreviation key := (MCPService.generateExactCacheKey Data numToString).
Abbreviation lookupExact :=
  (MCPService.lookupExact Data Embedding numToString).
Abbreviation lookupSemantic :=
  (MCPService.lookupSemantic Data Embedding getEmbedding cosineSimilarity).
Abbreviation finishResponse :=
  (MCPService.finishResponse Data Embedding getEmbedding numToString).
Abbreviation callProviderAPI :=
  (MCPService.callProviderAPI Data Embedding fetch).
Abbreviation attempt :=
  (MCPService.attempt Data Embedding getEmbedding cosineSimilarity
     numToString fetch).
Abbreviation executeRequest :=
  (MCPService.executeRequest Data Embedding getEmbedding cosineSimilarity
     numToString fetch).
Abbreviation unanswered :=
  (unanswered getEmbedding cosineSimilarity numToString).

Implicit Types (w : World) (request : AIRequest) (o : MCPService.MCPOptions).

(** How [executeRequest] goes on after an attempt. *)
Lemma executeRequest_answered o w request c w1 r :
  attempt o w request = (w1, inl r) ->
  executeRequest o w request c = (w1, r).
Proof.
  funelim (executeRequest o w request c);
    match goal with
    | H : attempt o w request = _ |- _ => rewrite H
    end; intros Ha; try discriminate.
  now injection Ha as <- <-.
Qed.

Lemma executeRequest_retries o w request c w1 err :
  attempt o w request = (w1, inr err) ->
  (c < MCPService.countsBelow (MCPService.maxRetries o))%nat ->
  executeRequest o w request c
  = executeRequest o
      (MCPService.sleep Data Embedding (MCPService.backoff o c) w1)
      request (S c).
Proof.
  funelim (executeRequest o w request c);
    match goal with
    | H : attempt o w request = _ |- _ => rewrite H
    end; intros Ha Hc; try discriminate; retry_test.
  - now injection Ha as <- <-.
  - lia.
Qed.

(** The two lookups of a world that cannot answer. *)
Lemma unanswered_lookups o w request :
  unanswered o request w ->
  exists w2 s,
    (let (w1, exactHit) := lookupExact o w request in
     lookupSemantic o w1 request exactHit) = (w2, None, s)
    /\ unanswered o request w2
    /\ exactCache w2 = exactCache w
    /\ clock w2 = clock w
    /\ quiet w w2
    /\ (NoDup (JsMap.keys (semanticCache w)) ->
        NoDup (JsMap.keys (semanticCache w2)))
    /\ (forall k e, In (k, e) (semanticCache w2) ->
          In (k, e) (semanticCache w)).
Proof.
  intros [Hx Hs].
  assert (Hexact : exists w1,
             lookupExact o w request = (w1, None)
             /\ unanswered o request w1 /\ exactCache w1 = exactCache w
             /\ clock w1 = clock w /\ quiet w w1
             /\ semanticCache w1 = semanticCache w).
  { unfold MCPService.lookupExact, AICache.get.
    destruct (MCPService.uses_exact _).
    - rewrite Hx. eexists. split; [reflexivity|].
      split; [split; assumption | ]. split; [reflexivity|].
      split; [reflexivity|]. split; [|reflexivity].
      eapply quiet_trans; [|apply quiet_track]. repeat split.
    - exists w. repeat split; assumption. }
  destruct Hexact as (w1 & -> & [Hx1 Hs1] & E1 & C1 & Q1 & SC1).
  unfold MCPService.lookupSemantic.
  destruct (_ && _).
  - match goal with
    | |- context [SemanticCache.findSimilar ?E ?g ?cs ?c ?q ?fo ?t] =>
        pose proof (findSimilar_none g cs c q fo t Hs1) as Hnone;
        pose proof (fun k e => findSimilar_subset g cs c q fo t k e) as Hsub;
        pose proof (findSimilar_NoDup g cs c q fo t) as Hnd;
        destruct (SemanticCache.findSimilar E g cs c q fo t) as [found c']
    end.
    cbn [fst snd] in Hnone, Hsub, Hnd. subst found.
    eexists. eexists. split; [reflexivity|].
    split; [split; [assumption | intros k e Hin; apply (Hs1 k); auto]|].
    split; [exact E1|]. split; [exact C1|]. split; [|split].
    + eapply quiet_trans; [exact Q1|].
      eapply quiet_trans; [|apply quiet_track]. repeat split.
    + rewrite <- SC1. exact Hnd.
    + rewrite <- SC1. exact Hsub.
  - exists w1. eexists. split; [reflexivity|].
    split; [split; assumption|]. split; [exact E1|]. split; [exact C1|].
    split; [exact Q1|]. rewrite SC1. split; auto.
Qed.

(** An attempt that the caches cannot answer and the provider fails. *)
Lemma attempt_miss_fails o w request :
  unanswered o request w ->
  failed (MCPService.result (fetch (calls w))) = true ->
  exists w1 err,
    attempt o w request = (w1, inr err)
    /\ unanswered o request w1
    /\ calls w1 = S (calls w)
    /\ apiCalls (trace w1) = S (apiCalls (trace w))
    /\ sleeps (trace w1) = sleeps (trace w)
    /\ exactCache w1 = exactCache w
    /\ (forall k e, In (k, e) (semanticCache w1) ->
          In (k, e) (semanticCache w)).
Proof.
  intros Hun Hfail. unfold MCPService.attempt.
  destruct (unanswered_lookups o w request Hun)
    as (w2 & s & Hlook & [Hx2 Hs2] & E2 & C2 & (QS & QA & QC) & _ & SUB2).
  destruct (lookupExact o w request) as [w1 exactHit].
  rewrite Hlook.
  pose proof (callProviderAPI_effects Data Embedding fetch w2 request
                (MCPService.getProviderForModel (MCPService.model Data request)))
    as (S' & B' & C').
  unfold MCPService.callProviderAPI in *.
  cbn [MCPService.calls MCPService.track MCPService.emit] in *.
  rewrite QC in *.
  destruct (MCPService.result (fetch (calls w))); try discriminate;
    cbn [fst snd] in *;
    (eexists; eexists; split; [reflexivity|];
     split; [split; assumption|];
     split; [exact C'|]; split; [congruence|]; split; [congruence|];
     split; [exact E2 | exact SUB2]).
Qed.

(** An attempt that the caches cannot answer and the provider
    answers. *)
Lemma attempt_miss_ok o w request content inTok outTok total :
  unanswered o request w ->
  MCPService.result (fetch (calls w))
  = MCPService.HttpOk content inTok outTok total ->
  exists w3 r,
    attempt o w request
    = (fst (finishResponse o (clock w) w3 request r),
       inl (snd (finishResponse o (clock w) w3 request r)))
    /\ MCPService.rawResponse Data r = Some content
    /\ MCPService.success Data r = true
    /\ MCPService.error Data r = None
    /\ (exists u, MCPService.usage Data r = Some u
                  /\ MCPService.promptTokens u = inTok
                  /\ MCPService.completionTokens u = outTok)
    /\ exactCache w3 = exactCache w
    /\ clock w3
       = clock w + Z.max 0 (MCPService.latency (fetch (calls w)))
    /\ calls w3 = S (calls w)
    /\ apiCalls (trace w3) = S (apiCalls (trace w))
    /\ sleeps (trace w3) = sleeps (trace w)
    /\ unanswered o request w3
    /\ (NoDup (JsMap.keys (semanticCache w)) ->
        NoDup (JsMap.keys (semanticCache w3)))
    /\ (forall k e, In (k, e) (semanticCache w3) ->
          In (k, e) (semanticCache w)).
Proof.
  intros Hun Hok. unfold MCPService.attempt.
  destruct (unanswered_lookups o w request Hun)
    as (w2 & s & Hlook & Hun2 & E2 & C2 & (QS & QA & QC) & ND2 & SUB2).
  destruct (lookupExact o w request) as [w1 exactHit].
  rewrite Hlook.
  pose proof (callProviderAPI_effects Data Embedding fetch w2 request
                (MCPService.getProviderForModel (MCPService.model Data request)))
    as (S' & B' & C').
  unfold MCPService.callProviderAPI in *.
  cbn [MCPService.calls MCPService.track MCPService.emit] in *.
  rewrite QC in *. rewrite Hok in *. cbn [fst snd] in *.
  match goal with
  | |- context [finishResponse o (clock w) ?w3 request ?r] =>
      exists w3, r; destruct (finishResponse o (clock w) w3 request r)
  end.
  split; [reflexivity|]. split; [reflexivity|]. split; [reflexivity|].
  split; [reflexivity|]. split.
  { destruct (MCPService.is_claude _); eexists; repeat split. }
  split; [exact E2|]. split.
  { unfold MCPService.elapse.
    cbn [MCPService.clock MCPService.track MCPService.emit].
    now rewrite C2. }
  split; [exact C'|]. split; [congruence|]. split; [congruence|].
  split; [exact Hun2|]. split; [exact ND2 | exact SUB2].
Qed.

(** What [finishResponse] returns and stores. *)
Lemma finishResponse_stores o startTime w request r :
  let out := finishResponse o startTime w request r in
  let res := MCPService.response Data (snd out) in
  MCPService.cacheHit Data (snd out) = false
  /\ MCPService.rawResponse Data res = MCPService.rawResponse Data r
  /\ MCPService.usage Data res = MCPService.usage Data r
  /\ MCPService.data Data res = fst (MCPService.runParser Data request r)
  /\ MCPService.success Data res
     = match snd (MCPService.runParser Data request r) with
       | Some _ => false
       | None => MCPService.success Data r
       end
  /\ MCPService.error Data res
     = (if truthy (snd (MCPService.runParser Data request r))
        then snd (MCPService.runParser Data request r)
        else MCPService.error Data r)
  /\ clock (fst out) = clock w
  /\ quiet w (fst out)
  /\ (MCPService.uses_exact (params o request) = true ->
      storeResult (params o request) = Some true ->
      JsMap.get (key request) (AICache.cache (exactCache (fst out)))
      = Some {| AICache.data := res;
                AICache.timestamp := clock w;
                AICache.expiresAt :=
                  clock w
                  + or_default
                      (Some (or_default (cacheTTL (params o request))
                               (MCPService.defaultTTL o)))
                      (AICache.ttl (AICache.options (exactCache w)));
                AICache.hash := key request |}).
Proof.
  cbv zeta. pose proof (quiet_finishResponse Data Embedding getEmbedding
                          numToString o startTime w request r) as Hq.
  unfold MCPService.finishResponse in *.
  destruct (MCPService.runParser Data request r) as [parsed perr].
  cbn [fst snd] in *.
  repeat (split; [reflexivity|]). split.
  { destruct (storeResult _) as [[|]|]; destruct perr;
      cbn [fst MCPService.clock MCPService.track MCPService.emit];
      try reflexivity; unfold MCPService.storeInCaches;
      destruct (MCPService.uses_exact _), (_ && _); reflexivity. }
  split; [exact Hq|].
  intros Hexact Hstore. rewrite Hstore. cbn [fst].
  unfold MCPService.storeInCaches.
  assert (Hp : MCPService.uses_exact
                 match MCPService.mcpParams Data request with
                 | Some p => p
                 | None =>
                     MCPService.defaultParams
                       (or_default (cacheTTL (params o request))
                          (MCPService.defaultTTL o))
                 end = true).
  { unfold MCPService.params in Hexact.
    destruct (MCPService.mcpParams Data request); [exact Hexact|reflexivity]. }
  rewrite Hp.
  destruct (_ && _); destruct perr;
    cbn [MCPService.exactCache MCPService.track MCPService.emit
         MCPService.with_exact MCPService.with_semantic MCPService.clock];
    unfold AICache.set; cbn [AICache.cache AICache.with_cache];
    rewrite get_set_same; reflexivity.
Qed.

(** An attempt that the exact cache answers. *)
Lemma attempt_exact_hit o w request item :
  MCPService.uses_exact (params o request) = true ->
  JsMap.get (key request) (AICache.cache (exactCache w)) = Some item ->
  clock w <= AICache.expiresAt item ->
  let cached := AICache.data item in
  let total :=
    or_default (option_map MCPService.totalTokens
                  (MCPService.usage Data cached)) 500 in
  exists w1 res,
    attempt o w request = (w1, inl res)
    /\ MCPService.cacheHit Data res = true
    /\ MCPService.similarity Data res = Some 1.0%Q
    /\ MCPService.response Data res
       = {| MCPService.rawResponse := MCPService.rawResponse Data cached;
            MCPService.data := MCPService.data Data cached;
            MCPService.error := MCPService.error Data cached;
            MCPService.processingTime :=
              MCPService.processingTime Data cached;
            MCPService.r_model := MCPService.r_model Data cached;
            MCPService.r_provider := MCPService.r_provider Data cached;
            MCPService.success := MCPService.success Data cached;
            MCPService.fromCache := Some true;
            MCPService.fromMCP := Some true;
            MCPService.usage := MCPService.usage Data cached;
            MCPService.r_metadata := MCPService.r_metadata Data cached |}
    /\ MCPService.savingsEstimate Data res
       = Some {| MCPService.tokens := total;
                 MCPService.sv_cost :=
                   MCPService.estimateCost total
                     (MCPService.model Data request);
                 MCPService.timeMs := 0 |}
    /\ quiet w w1 /\ clock w1 = clock w
    /\ exactCache w1 = exactCache w.
Proof.
  intros Hexact Hget Hlive cached total.
  unfold MCPService.attempt, MCPService.lookupExact, AICache.get.
  rewrite Hexact, Hget.
  destruct (Z.ltb_spec (AICache.expiresAt item) (clock w)) as [|_]; [lia|].
  cbn [MCPService.lookupSemantic].
  eexists. eexists. split; [reflexivity|].
  unfold MCPService.fromCacheResponse.
  cbn [MCPService.cacheHit MCPService.similarity MCPService.response
       MCPService.savingsEstimate MCPService.clock MCPService.track
       MCPService.emit MCPService.with_exact MCPService.exactCache].
  rewrite Z.sub_diag.
  repeat (split; [reflexivity|]). split; [|split; reflexivity].
  eapply quiet_trans; [|apply quiet_track].
  eapply quiet_trans; [|apply quiet_track]. repeat split.
Qed.
(** Failures followed by an answer: every failure is retried after its
    backoff, and the answer ends the request. *)
Lemma executeRequest_eventually_ok o request content inTok outTok total k :
  forall w c,
    unanswered o request w ->
    (c + k <= MCPService.countsBelow (MCPService.maxRetries o))%nat ->
    (forall i, (i < k)%nat ->
       failed (MCPService.result (fetch (calls w + i))) = true) ->
    MCPService.result (fetch (calls w + k))
    = MCPService.HttpOk content inTok outTok total ->
    let out := executeRequest o w request c in
    MCPService.cacheHit Data (snd out) = false
    /\ MCPService.rawResponse Data (MCPService.response Data (snd out))
       = Some content
    /\ apiCalls (trace (fst out)) = (apiCalls (trace w) + k + 1)%nat
    /\ calls (fst out) = (calls w + k + 1)%nat
    /\ sleeps (trace (fst out))
       = sleeps (trace w) ++ map (MCPService.backoff o) (seq c k).
Proof.
  induction k as [|k IH]; intros w c Hun Hc Hfail Hok; cbv zeta.
  - rewrite Nat.add_0_r in Hok.
    destruct (attempt_miss_ok o w request _ _ _ _ Hun Hok)
      as (w3 & r & Hatt & Hraw & _ & _ & _ & _ & _ & C3 & A3 & S3 & _).
    rewrite (executeRequest_answered o w request c _ _ Hatt).
    destruct (finishResponse_stores o (clock w) w3 request r)
      as (F1 & F2 & _ & _ & _ & _ & _ & (QS & QA & QC) & _).
    cbn [fst snd]. rewrite F2, QS, QA, QC, C3, A3, S3, app_nil_r.
    repeat split; auto; lia.
  - destruct (attempt_miss_fails o w request Hun)
      as (w1 & err & Hatt & Hun1 & C1 & A1 & S1 & _).
    { rewrite <- (Nat.add_0_r (calls w)). apply Hfail. lia. }
    rewrite (executeRequest_retries o w request c _ _ Hatt) by lia.
    destruct (sleep_effects Data Embedding (MCPService.backoff o c) w1)
      as (SS & SA & SC). cbv zeta in SS, SA, SC.
    destruct (IH (MCPService.sleep Data Embedding (MCPService.backoff o c) w1)
                (S c)) as (R1 & R2 & R3 & R4 & R5).
    + now apply unanswered_sleep.
    + lia.
    + intros i Hi. rewrite SC, C1.
      replace (S (calls w) + i)%nat with (calls w + S i)%nat by lia.
      apply Hfail. lia.
    + rewrite SC, C1.
      replace (S (calls w) + k)%nat with (calls w + S k)%nat by lia.
      exact Hok.
    + split; [exact R1|]. split; [exact R2|].
      rewrite R3, R4, R5, SS, SA, SC, S1, A1, C1.
      split; [lia|]. split; [lia|].
      rewrite <- app_assoc. reflexivity.
Qed.
End ExecutorMore.

(** X14. A completion is stored in the exact cache and served from it:
    when the caches cannot answer a request whose strategy uses the
    exact cache and the provider answers, the same request executed
    again before the entry expires is a cache hit with similarity 1, the
    same raw response, data and success flag, marked [fromCache], and
    makes no provider call. *)
Theorem X14_exact_cache_round_trip :
  forall (Data E : Type) (getE : string -> E) (cos : E -> E -> Q)
         (num : Q -> string) (fetch : nat -> MCPService.FetchOutcome)
         (o : MCPService.MCPOptions) (w : MCPService.World Data E)
         (request : MCPService.AIRequest Data)
         (content : string) (inTok outTok total d : Z),
    MCPService.uses_exact (MCPService.params Data o request) = true ->
    storeResult (MCPService.params Data o request) = Some true ->
    unanswered getE cos num o request w ->
    MCPService.result (fetch (MCPService.calls _ _ w))
    = MCPService.HttpOk content inTok outTok total ->
    0 <= d
    <= or_default
         (Some (or_default (cacheTTL (MCPService.params Data o request))
                  (MCPService.defaultTTL o)))
         (AICache.ttl (AICache.options (MCPService.exactCache _ _ w))) ->
    let first :=
      MCPService.executeRequest Data E getE cos num fetch o w request 0%nat in
    let second :=
      MCPService.executeRequest Data E getE cos num fetch o
        (MCPService.elapse Data E d (fst first)) request 0%nat in
    let r1 := MCPService.response Data (snd first) in
    let r2 := MCPService.response Data (snd second) in
    MCPService.cacheHit Data (snd first) = false
    /\ MCPService.rawResponse Data r1 = Some content
    /\ apiCalls (MCPService.trace _ _ (fst first))
       = S (apiCalls (MCPService.trace _ _ w))
    /\ MCPService.cacheHit Data (snd second) = true
    /\ MCPService.similarity Data (snd second) = Some 1.0%Q
    /\ MCPService.fromCache Data r2 = Some true
    /\ MCPService.rawResponse Data r2 = Some content
    /\ MCPService.data Data r2 = MCPService.data Data r1
    /\ MCPService.success Data r2 = MCPService.success Data r1
    /\ MCPService.error Data r2 = MCPService.error Data r1
    /\ MCPService.usage Data r2 = MCPService.usage Data r1
    /\ apiCalls (MCPService.trace _ _ (fst second))
       = apiCalls (MCPService.trace _ _ (fst first))
    /\ MCPService.calls _ _ (fst second) = MCPService.calls _ _ (fst first).
Proof.
  intros Data E getE cos num fetch o w request content inTok outTok total d
    Hexact Hstore Hun Hok Hd first second r1 r2.
  destruct (attempt_miss_ok Data E getE cos num fetch o w request
              _ _ _ _ Hun Hok)
    as (w3 & r & Hatt & Hraw & _ & _ & _ & E3 & C3 & _ & A3 & _).
  pose proof (executeRequest_answered Data E getE cos num fetch o w request
                0%nat _ _ Hatt) as Hfirst.
  fold first in Hfirst.
  destruct (finishResponse_stores Data E getE num o (MCPService.clock _ _ w)
              w3 request r)
    as (F1 & F2 & _ & _ & _ & _ & FC & (_ & QA & _) & Hitem).
  specialize (Hitem Hexact Hstore). cbv zeta in *.
  assert (Hw : fst first = fst (MCPService.finishResponse Data E getE num o
                                  (MCPService.clock _ _ w) w3 request r))
    by now rewrite Hfirst.
  assert (Hr : snd first = snd (MCPService.finishResponse Data E getE num o
                                  (MCPService.clock _ _ w) w3 request r))
    by now rewrite Hfirst.
  rewrite <- Hw in FC, QA, Hitem. rewrite <- Hr in F1, F2, Hitem.
  rewrite E3 in Hitem.
  match type of Hitem with
  | _ = Some ?it =>
      destruct (attempt_exact_hit Data E getE cos num fetch o
                  (MCPService.elapse Data E d (fst first)) request it)
        as (w1 & res & Hatt2 & H1 & H2 & H3 & _ & (_ & QA2 & QC2) & _)
  end.
  - exact Hexact.
  - exact Hitem.
  - cbn [AICache.expiresAt MCPService.elapse MCPService.clock].
    rewrite FC. lia.
  - pose proof (executeRequest_answered Data E getE cos num fetch o _ request
                  0%nat _ _ Hatt2) as Hsecond.
    fold second in Hsecond.
    assert (Hraw1 : MCPService.rawResponse Data
                      (MCPService.response Data (snd first)) = Some content)
      by congruence.
    assert (Hcalls1 : apiCalls (MCPService.trace _ _ (fst first))
                      = S (apiCalls (MCPService.trace _ _ w)))
      by congruence.
    cbn [MCPService.elapse MCPService.trace MCPService.calls] in QA2, QC2.
    unfold r1, r2. rewrite Hsecond. cbn [fst snd]. rewrite H3.
    cbn [AICache.data MCPService.fromCache MCPService.rawResponse
         MCPService.data MCPService.success MCPService.error
         MCPService.usage].
    repeat split; assumption.
Qed.

Lemma X14_exact_cache_round_trip_witness :
  let run w :=
    MCPService.executeRequest Sample.Data Sample.Embedding
      Sample.getEmbedding Sample.cosineSimilarity Sample.numToString
      Sample.slow MCPService.defaultOptions w (Sample.request "a cube")
      0%nat in
  let first := run Sample.world0 in
  let second := run (MCPService.elapse _ _ 60000 (fst first)) in
  MCPService.cacheHit _ (snd first) = false
  /\ MCPService.cacheHit _ (snd second) = true
  /\ MCPService.rawResponse _ (MCPService.response _ (snd second))
     = Some "a cube"
  /\ apiCalls (MCPService.trace _ _ (fst second)) = 1%nat.
Proof.
  destruct (X14_exact_cache_round_trip Sample.Data Sample.Embedding
              Sample.getEmbedding Sample.cosineSimilarity Sample.numToString
              Sample.slow MCPService.defaultOptions Sample.world0
              (Sample.request "a cube") "a cube" 100 50 150 60000)
    as (H1 & _ & H3 & H4 & _ & _ & H7 & _ & _ & _ & _ & H12 & _).
  - reflexivity.
  - reflexivity.
  - split; [reflexivity | intros k e []].
  - reflexivity.
  - vm_compute. split; discriminate.
  - split; [exact H1|]. split; [exact H4|]. split; [exact H7|].
    etransitivity; [exact H12 | exact H3].
Defined.

(** X15. A response that the request's parser rejects is final: the
    request is not retried, whatever [maxRetries] is; the response has
    [success = false], the parser's message as its error, no data and
    the raw completion; and it is stored in the exact cache like any
    other, so that the same request gets it again. *)
Theorem X15_parser_failure_is_not_retried :
  forall (Data E : Type) (getE : string -> E) (cos : E -> E -> Q)
         (num : Q -> string) (fetch : nat -> MCPService.FetchOutcome)
         (o : MCPService.MCPOptions) (w : MCPService.World Data E)
         (request : MCPService.AIRequest Data)
         (content : string) (inTok outTok total : Z)
         (parse : string -> string + Data) (msg : string),
    unanswered getE cos num o request w ->
    MCPService.result (fetch (MCPService.calls _ _ w))
    = MCPService.HttpOk content inTok outTok total ->
    content <> "" ->
    MCPService.parseResponse Data request = Some parse ->
    parse content = inl msg ->
    msg <> "" ->
    let out :=
      MCPService.executeRequest Data E getE cos num fetch o w request 0%nat in
    let r := MCPService.response Data (snd out) in
    MCPService.success Data r = false
    /\ MCPService.error Data r = Some msg
    /\ MCPService.data Data r = None
    /\ MCPService.rawResponse Data r = Some content
    /\ MCPService.cacheHit Data (snd out) = false
    /\ apiCalls (MCPService.trace _ _ (fst out))
       = S (apiCalls (MCPService.trace _ _ w))
    /\ sleeps (MCPService.trace _ _ (fst out))
       = sleeps (MCPService.trace _ _ w)
    /\ (MCPService.uses_exact (MCPService.params Data o request) = true ->
        storeResult (MCPService.params Data o request) = Some true ->
        option_map AICache.data
          (JsMap.get (MCPService.generateExactCacheKey Data num request)
             (AICache.cache (MCPService.exactCache _ _ (fst out))))
        = Some r).
Proof.
  intros Data E getE cos num fetch o w request content inTok outTok total
    parse msg Hun Hok Hcontent Hparser Hparse Hmsg out r.
  destruct (attempt_miss_ok Data E getE cos num fetch o w request
              _ _ _ _ Hun Hok)
    as (w3 & r0 & Hatt & Hraw & _ & _ & _ & _ & _ & _ & A3 & S3 & _).
  pose proof (executeRequest_answered Data E getE cos num fetch o w request
                0%nat _ _ Hatt) as Hout.
  fold out in Hout.
  destruct (finishResponse_stores Data E getE num o (MCPService.clock _ _ w)
              w3 request r0)
    as (F1 & F2 & _ & F4 & F5 & F6 & _ & (QS & QA & _) & Hitem).
  cbv zeta in *.
  assert (Hw : fst out = fst (MCPService.finishResponse Data E getE num o
                                (MCPService.clock _ _ w) w3 request r0))
    by now rewrite Hout.
  assert (Hr : snd out = snd (MCPService.finishResponse Data E getE num o
                                (MCPService.clock _ _ w) w3 request r0))
    by now rewrite Hout.
  rewrite <- Hw in QS, QA, Hitem.
  rewrite <- Hr in F1, F2, F4, F5, F6, Hitem.
  fold r in F2, F4, F5, F6, Hitem.
  assert (Hrun : MCPService.runParser Data request r0 = (None, Some msg)).
  { unfold MCPService.runParser. rewrite Hparser, Hraw. cbn [truthy].
    destruct (String.eqb_spec content ""); [contradiction|].
    cbn [negb]. now rewrite Hparse. }
  rewrite Hrun in F4, F5, F6. cbn [fst snd truthy] in F4, F5, F6.
  destruct (String.eqb_spec msg ""); [contradiction|]. cbn [negb] in F6.
  rewrite F2, Hraw, QS, QA, A3, S3.
  repeat split; auto.
  intros Hexact Hstore. now rewrite (Hitem Hexact Hstore).
Qed.

Lemma X15_parser_failure_witness :
  let request :=
    {| MCPService.prompt := "a cube";
       MCPService.model := Some claude_3_7_sonnet_20250219;
       MCPService.systemPrompt := None;
       MCPService.temperature := None;
       MCPService.maxTokens := None;
       MCPService.parseResponse :=
         Some (fun _ : string => inl "Unexpected token" : string + string);
       MCPService.metadata := None;
       MCPService.mcpParams := None |} in
  let out :=
    MCPService.executeRequest Sample.Data Sample.Embedding
      Sample.getEmbedding Sample.cosineSimilarity Sample.numToString
      Sample.slow MCPService.defaultOptions Sample.world0 request 0%nat in
  MCPService.success _ (MCPService.response _ (snd out)) = false
  /\ MCPService.error _ (MCPService.response _ (snd out))
     = Some "Unexpected token"
  /\ apiCalls (MCPService.trace _ _ (fst out)) = 1%nat
  /\ sleeps (MCPService.trace _ _ (fst out)) = [].
Proof.
  destruct (X15_parser_failure_is_not_retried Sample.Data Sample.Embedding
              Sample.getEmbedding Sample.cosineSimilarity Sample.numToString
              Sample.slow MCPService.defaultOptions Sample.world0
              {| MCPService.prompt := "a cube";
                 MCPService.model := Some claude_3_7_sonnet_20250219;
                 MCPService.systemPrompt := None;
                 MCPService.temperature := None;
                 MCPService.maxTokens := None;
                 MCPService.parseResponse :=
                   Some (fun _ : string =>
                           inl "Unexpected token" : string + string);
                 MCPService.metadata := None;
                 MCPService.mcpParams := None |}
              "a cube" 100 50 150
              (fun _ : string => inl "Unexpected token") "Unexpected token")
    as (H1 & H2 & _ & _ & _ & H6 & H7 & _).
  - split; [reflexivity | intros k e []].
  - reflexivity.
  - discriminate.
  - reflexivity.
  - reflexivity.
  - discriminate.
  - split; [exact H1|]. split; [exact H2|]. split; [exact H6 | exact H7].
Defined.

(** X16. A request is retried until the provider answers: when the
    caches cannot answer and the provider fails [k] times, with [k] at
    most the number of counts below [maxRetries] ([maxRetries] itself
    when it is a natural number), and then answers, [executeRequest]
    returns that answer after [k + 1] calls, having slept
    [retryDelay * 2^0, ..., retryDelay * 2^(k-1)]. *)
Theorem X16_retried_until_the_provider_answers :
  forall (Data E : Type) (getE : string -> E) (cos : E -> E -> Q)
         (num : Q -> string) (fetch : nat -> MCPService.FetchOutcome)
         (o : MCPService.MCPOptions) (w : MCPService.World Data E)
         (request : MCPService.AIRequest Data)
         (content : string) (inTok outTok total : Z) (k : nat),
    unanswered getE cos num o request w ->
    (k <= MCPService.countsBelow (MCPService.maxRetries o))%nat ->
    (forall i, (i < k)%nat ->
       failed (MCPService.result (fetch (MCPService.calls _ _ w + i)%nat))
       = true) ->
    MCPService.result (fetch (MCPService.calls _ _ w + k)%nat)
    = MCPService.HttpOk content inTok outTok total ->
    let out :=
      MCPService.executeRequest Data E getE cos num fetch o w request 0%nat in
    MCPService.cacheHit Data (snd out) = false
    /\ MCPService.rawResponse Data (MCPService.response Data (snd out))
       = Some content
    /\ apiCalls (MCPService.trace _ _ (fst out))
       = (apiCalls (MCPService.trace _ _ w) + k + 1)%nat
    /\ MCPService.calls _ _ (fst out)
       = (MCPService.calls _ _ w + k + 1)%nat
    /\ sleeps (MCPService.trace _ _ (fst out))
       = sleeps (MCPService.trace _ _ w)
         ++ map (fun retryCount =>
                   MCPService.retryDelay o * 2 ^ Z.of_nat retryCount)
              (seq 0 k).
Proof.
  intros Data E getE cos num fetch o w request content inTok outTok total k
    Hun Hk Hfail Hok.
  apply (executeRequest_eventually_ok Data E getE cos num fetch o request
           content inTok outTok total k w 0%nat); auto.
Qed.

Lemma X16_retried_until_answer_witness :
  let fetch n := if (n <? 2)%nat then Sample.unauthorized n else Sample.slow n in
  let out :=
    MCPService.executeRequest Sample.Data Sample.Embedding
      Sample.getEmbedding Sample.cosineSimilarity Sample.numToString
      fetch MCPService.defaultOptions Sample.world0
      (Sample.request "a cube") 0%nat in
  MCPService.cacheHit _ (snd out) = false
  /\ MCPService.rawResponse _ (MCPService.response _ (snd out))
     = Some "a cube"
  /\ apiCalls (MCPService.trace _ _ (fst out)) = 3%nat
  /\ MCPService.calls _ _ (fst out) = 3%nat
  /\ sleeps (MCPService.trace _ _ (fst out)) = [1000; 2000].
Proof.
  apply (X16_retried_until_the_provider_answers Sample.Data Sample.Embedding
           Sample.getEmbedding Sample.cosineSimilarity Sample.numToString
           (fun n => if (n <? 2)%nat then Sample.unauthorized n
                     else Sample.slow n)
           MCPService.defaultOptions Sample.world0 (Sample.request "a cube")
           "a cube" 100 50 150 2%nat).
  - split; [reflexivity | intros k e []].
  - simpl. lia.
  - intros [|[|i]] Hi; [reflexivity | reflexivity | lia].
  - reflexivity.
Defined.

(** ** More on the service *)

Lemma at_time_clock {Data E} (w : MCPService.World Data E) :
  MCPService.at_time Data E (MCPService.clock Data E w) w = w.
Proof. now destruct w. Qed.

(** What [complete] does. *)
Lemma complete_next :
  forall (Data E : Type) (getE : string -> E) (cos : E -> E -> Q)
         (num : Q -> string) (fetch : nat -> MCPService.FetchOutcome)
         (s : MCPService.Service Data E) (id : string)
         (r : MCPService.MCPResponse Data),
    MCPService.inflight _ _ s = Some (id, r) ->
    NoDup (JsMap.keys (MCPService.requestQueue _ _ s)) ->
    (forall id' e, In (id', e) (MCPService.requestQueue _ _ s) ->
       id' <> "" /\ -1 <= MCPService.q_priority Data e) ->
    let s' := MCPService.complete Data E getE cos num fetch s in
    let q := MCPService.requestQueue _ _ s in
    MCPService.settled _ _ s'
    = MCPService.settled _ _ s ++ [(id, MCPService.Resolved Data r)]
    /\ (q = [] ->
        MCPService.inflight _ _ s' = None
        /\ MCPService.processingQueue _ _ s' = false
        /\ MCPService.requestQueue _ _ s' = [])
    /\ (q <> [] ->
        exists next e,
          In (next, e) q
          /\ (forall id' e', In (id', e') q ->
                MCPService.q_priority Data e' <= MCPService.q_priority Data e
                /\ (MCPService.q_priority Data e' = MCPService.q_priority Data e
                    -> MCPService.q_timestamp Data e
                       <= MCPService.q_timestamp Data e'))
          /\ MCPService.requestQueue _ _ s' = JsMap.delete next q
          /\ MCPService.processingQueue _ _ s' = true
          /\ MCPService.inflight _ _ s'
             = Some (next,
                     snd (MCPService.executeRequest Data E getE cos num fetch
                            (MCPService.options _ _ s)
                            (MCPService.world _ _ s)
                            (MCPService.request Data e) 0%nat))).
Proof.
  intros Data E getE cos num fetch s id r Hin Hnd Hwf s' q.
  unfold s', MCPService.complete. rewrite Hin.
  unfold MCPService.drain.
  cbn [MCPService.requestQueue MCPService.options MCPService.world
       MCPService.timers MCPService.settled].
  fold q. rewrite at_time_clock.
  destruct q as [|x q'] eqn:Hq.
  - cbn. split; [reflexivity|]. split; [auto | congruence].
  - assert (Hne : x :: q' <> []) by discriminate.
    rewrite <- Hq in *. clear x q' Hq.
    destruct (getNextRequest_highest_then_oldest Data q Hne Hnd Hwf)
      as [(next & e & Hget & Hine & _ & Hmax) _].
    assert (Hsize : (0 <? JsMap.size q) = true).
    { unfold JsMap.size. destruct q; [congruence|].
      cbn [List.length]. apply Z.ltb_lt. lia. }
    rewrite Hsize, Hget.
    destruct (MCPService.executeRequest Data E getE cos num fetch
                (MCPService.options _ _ s) (MCPService.world _ _ s)
                (MCPService.request Data e) 0%nat) as [w' resp] eqn:Hexec.
    cbn [MCPService.settled MCPService.inflight MCPService.processingQueue
         MCPService.requestQueue snd].
    split; [reflexivity|]. split; [intros; contradiction|].
    intros _. exists next, e. split; [exact Hine|].
    split; [exact Hmax|]. repeat split. now rewrite Hexec.
Qed.

(** X17. When the request in flight completes, its promise is resolved
    with its response and the drain loop goes on with the waiting
    request of the greatest weight and, among those, the one enqueued
    first: that request leaves the queue and is executed next (weights
    at least -1, as the default 100, 50 and 10 are); on an empty queue
    the loop ends and the service is idle again. *)
Theorem X17_complete_dispatches_by_priority_then_age :
  forall (Data E : Type) (getE : string -> E) (cos : E -> E -> Q)
         (num : Q -> string) (fetch : nat -> MCPService.FetchOutcome)
         (s : MCPService.Service Data E) (id : string)
         (r : MCPService.MCPResponse Data),
    MCPService.inflight _ _ s = Some (id, r) ->
    NoDup (JsMap.keys (MCPService.requestQueue _ _ s)) ->
    (forall id' e, In (id', e) (MCPService.requestQueue _ _ s) ->
       id' <> "" /\ -1 <= MCPService.q_priority Data e) ->
    let s' := MCPService.complete Data E getE cos num fetch s in
    let q := MCPService.requestQueue _ _ s in
    MCPService.settled _ _ s'
    = MCPService.settled _ _ s ++ [(id, MCPService.Resolved Data r)]
    /\ (q = [] ->
        MCPService.inflight _ _ s' = None
        /\ MCPService.processingQueue _ _ s' = false
        /\ MCPService.requestQueue _ _ s' = [])
    /\ (q <> [] ->
        exists next e,
          In (next, e) q
          /\ (forall id' e', In (id', e') q ->
                MCPService.q_priority Data e' <= MCPService.q_priority Data e
                /\ (MCPService.q_priority Data e' = MCPService.q_priority Data e
                    -> MCPService.q_timestamp Data e
                       <= MCPService.q_timestamp Data e'))
          /\ MCPService.requestQueue _ _ s' = JsMap.delete next q
          /\ MCPService.processingQueue _ _ s' = true
          /\ MCPService.inflight _ _ s'
             = Some (next,
                     snd (MCPService.executeRequest Data E getE cos num fetch
                            (MCPService.options _ _ s)
                            (MCPService.world _ _ s)
                            (MCPService.request Data e) 0%nat))).
Proof. exact complete_next. Qed.

Lemma X17_complete_dispatches_witness :
  let s := Sample.two_enqueued in
  let s' :=
    MCPService.complete Sample.Data Sample.Embedding Sample.getEmbedding
      Sample.cosineSimilarity Sample.numToString Sample.slow s in
  Sample.outcomes s' = [("req_0_a", "resolved")]
  /\ option_map fst (MCPService.inflight _ _ s') = Some "req_1_b"
  /\ MCPService.requestQueue _ _ s' = [].
Proof.
  destruct (X17_complete_dispatches_by_priority_then_age Sample.Data
              Sample.Embedding Sample.getEmbedding Sample.cosineSimilarity
              Sample.numToString Sample.slow Sample.two_enqueued "req_0_a"
              (snd (MCPService.executeRequest Sample.Data Sample.Embedding
                      Sample.getEmbedding Sample.cosineSimilarity
                      Sample.numToString Sample.slow MCPService.defaultOptions
                      (MCPService.track _ _ "request" "mcp_request"
                         Sample.world0)
                      (Sample.request "first") 0%nat)))
    as (H1 & _ & H3).
  - vm_compute. reflexivity.
  - vm_compute. repeat constructor. simpl. tauto.
  - vm_compute. intros id' e [H|[]]. injection H as <- <-.
    split; discriminate.
  - cbv zeta. split; [|split].
    + unfold Sample.outcomes. rewrite H1. reflexivity.
    + vm_compute. reflexivity.
    + vm_compute. reflexivity.
Defined.

(** X18. A request enqueued on an idle service with an empty queue is
    dispatched at once: it leaves the queue in the same turn and is
    executed; from then on its timeout does nothing, however long the
    execution takes; and when the execution completes its promise is
    resolved with the response of [executeRequest]. *)
Theorem X18_enqueue_on_idle_service_dispatches :
  forall (Data E : Type) (getE : string -> E) (cos : E -> E -> Q)
         (num : Q -> string) (fetch : nat -> MCPService.FetchOutcome)
         (s : MCPService.Service Data E) (r : MCPService.AIRequest Data)
         (p : MCPService.QueuePriority) (now : Z) (rnd : string),
    MCPService.processingQueue _ _ s = false ->
    MCPService.requestQueue _ _ s = [] ->
    -1 <= MCPService.level
            (MCPService.priorityLevels (MCPService.options _ _ s)) p ->
    let id := MCPService.requestId now rnd in
    let s' := MCPService.enqueue Data E getE cos num fetch s r p now rnd in
    MCPService.requestQueue _ _ s' = []
    /\ MCPService.processingQueue _ _ s' = true
    /\ MCPService.settled _ _ s' = MCPService.settled _ _ s
    /\ MCPService.timers _ _ s'
       = MCPService.timers _ _ s
         ++ [(id, now + MCPService.timeoutMs (MCPService.options _ _ s))]
    /\ exists w routed,
         MCPService.inflight _ _ s'
         = Some (id,
                 snd (MCPService.executeRequest Data E getE cos num fetch
                        (MCPService.options _ _ s) w routed 0%nat))
         /\ MCPService.clock _ _ w = now
         /\ MCPService.prompt Data routed = MCPService.prompt Data r
         /\ (forall m, MCPService.model Data r = Some m -> routed = r)
         /\ MCPService.settled _ _ (MCPService.timeoutFires Data E s' id)
            = MCPService.settled _ _ s
         /\ MCPService.inflight _ _ (MCPService.timeoutFires Data E s' id)
            = MCPService.inflight _ _ s'
         /\ MCPService.settled _ _
              (MCPService.complete Data E getE cos num fetch s')
            = MCPService.settled _ _ s
              ++ [(id,
                   MCPService.Resolved Data
                     (snd (MCPService.executeRequest Data E getE cos num
                             fetch (MCPService.options _ _ s) w routed
                             0%nat)))].
Proof.
  intros Data E getE cos num fetch s r p now rnd Hidle Hempty Hlevel id s'.
  unfold s', MCPService.enqueue.
  set (routing :=
         match MCPService.smartRoutingEnabled (MCPService.options _ _ s),
               MCPService.model Data r with
         | true, None =>
             (MCPService.with_model Data r
                (MCPService.selectOptimalModel Data (MCPService.options _ _ s)
                   r),
              MCPService.track Data E "mcp" "smart_routing"
                (MCPService.track Data E "request" "mcp_request"
                   (MCPService.world _ _ s)))
         | _, _ =>
             (r, MCPService.track Data E "request" "mcp_request"
                   (MCPService.world _ _ s))
         end).
  assert (Hrouted : MCPService.prompt Data (fst routing)
                    = MCPService.prompt Data r
                    /\ forall m, MCPService.model Data r = Some m ->
                         fst routing = r).
  { unfold routing.
    destruct (MCPService.smartRoutingEnabled _), (MCPService.model Data r);
      cbn [fst]; split; auto; discriminate. }
  destruct routing as [r1 w2]. cbn [fst] in Hrouted.
  destruct Hrouted as [Hprompt Hsame].
  cbn [MCPService.processingQueue]. rewrite Hidle, Hempty.
  cbn [JsMap.set]. fold id.
  unfold MCPService.drain.
  cbn [MCPService.requestQueue MCPService.options MCPService.world
       MCPService.timers MCPService.settled].
  set (entry := {| MCPService.request := r1;
                   MCPService.q_priority :=
                     MCPService.level
                       (MCPService.priorityLevels (MCPService.options _ _ s))
                       p;
                   MCPService.q_timestamp := now |}).
  destruct (getNextRequest_highest_then_oldest Data [(id, entry)])
    as [(next & e & Hget & Hine & _) _].
  { discriminate. }
  { repeat constructor. simpl. tauto. }
  { intros id' e [H|[]]. injection H as <- <-. split; [discriminate|exact Hlevel]. }
  destruct Hine as [Heq|[]]. injection Heq as <- <-.
  rewrite Hget.
  assert (Hdel : JsMap.delete id [(id, entry)] = []).
  { unfold JsMap.delete. cbn [filter fst]. now rewrite String.eqb_refl. }
  rewrite Hdel. cbn [JsMap.size List.length Z.of_nat Z.ltb Z.compare].
  cbn [MCPService.request entry].
  destruct (MCPService.executeRequest Data E getE cos num fetch
              (MCPService.options _ _ s) (MCPService.at_time Data E now w2)
              r1 0%nat) as [w' resp] eqn:Hexec.
  cbn [MCPService.requestQueue MCPService.processingQueue MCPService.settled
       MCPService.timers MCPService.inflight].
  repeat (split; [reflexivity|]).
  exists (MCPService.at_time Data E now w2), r1.
  rewrite Hexec. cbn [snd].
  split; [reflexivity|]. split; [reflexivity|]. split; [exact Hprompt|].
  split; [exact Hsame|].
  unfold MCPService.timeoutFires, MCPService.complete, MCPService.drain.
  cbn [MCPService.requestQueue MCPService.processingQueue MCPService.settled
       MCPService.timers MCPService.inflight MCPService.options
       MCPService.world JsMap.has JsMap.get JsMap.size List.length Z.of_nat
       Z.ltb Z.compare].
  destruct (existsb _ _); repeat split; reflexivity.
Qed.

Lemma X18_enqueue_on_idle_witness :
  let s' :=
    Sample.run_slow (Sample.service MCPService.defaultOptions)
      [MCPService.Enqueue Sample.Data (Sample.request "first")
         MCPService.p_normal 0 "a"] in
  MCPService.requestQueue _ _ s' = []
  /\ MCPService.processingQueue _ _ s' = true
  /\ option_map fst (MCPService.inflight _ _ s') = Some "req_0_a"
  /\ Sample.outcomes
       (Sample.run_slow s'
          [MCPService.TimeoutFires Sample.Data "req_0_a";
           MCPService.Complete Sample.Data])
     = [("req_0_a", "resolved")].
Proof.
  destruct (X18_enqueue_on_idle_service_dispatches Sample.Data
              Sample.Embedding Sample.getEmbedding Sample.cosineSimilarity
              Sample.numToString Sample.slow
              (Sample.service MCPService.defaultOptions)
              (Sample.request "first") MCPService.p_normal 0 "a")
    as (H1 & H2 & _).
  - reflexivity.
  - reflexivity.
  - simpl. lia.
  - split; [exact H1|]. split; [exact H2|]. split; vm_compute; reflexivity.
Defined.

Section DeleteFacts.
Context {V : Type}.
Implicit Types (m : JsMap.t V).

Lemma delete_absent k m : ~ In k (JsMap.keys m) -> JsMap.delete k m = m.
Proof.
  induction m as [|[k' v'] m IH]; simpl; [reflexivity|].
  intros Hnotin. destruct (String.eqb_spec k' k) as [->|Hne]; simpl.
  - exfalso. apply Hnotin. now left.
  - f_equal. apply IH. tauto.
Qed.

Lemma keys_delete_NoDup k m :
  NoDup (JsMap.keys m) -> NoDup (JsMap.keys (JsMap.delete k m)).
Proof.
  induction m as [|[k' v'] m IH]; simpl; auto.
  intros Hnd. inversion Hnd as [|? ? Hnotin Hnd']; subst.
  destruct (String.eqb k' k); simpl; auto.
  constructor; auto. intros Hin. apply keys_delete in Hin. tauto.
Qed.

Lemma keys_delete_Permutation k v m :
  NoDup (JsMap.keys m) -> In (k, v) m ->
  Permutation (k :: JsMap.keys (JsMap.delete k m)) (JsMap.keys m).
Proof.
  induction m as [|[k' v'] m IH]; simpl; [tauto|].
  intros Hnd Hin. inversion Hnd as [|? ? Hnotin Hnd']; subst.
  destruct (String.eqb_spec k' k) as [->|Hne]; simpl.
  - fold (JsMap.delete k m). rewrite delete_absent by assumption.
    apply Permutation_refl.
  - destruct Hin as [Heq|Hin]; [congruence|].
    fold (JsMap.delete k m).
    eapply perm_trans; [apply perm_swap|].
    apply perm_skip. now apply IH.
Qed.

Lemma length_delete_present k v m :
  NoDup (JsMap.keys m) -> In (k, v) m ->
  S (List.length (JsMap.delete k m)) = List.length m.
Proof.
  intros Hnd Hin.
  pose proof (Permutation_length (keys_delete_Permutation k v m Hnd Hin)) as H.
  unfold JsMap.keys in H. cbn [List.length] in H.
  now rewrite !length_map in H.
Qed.
End DeleteFacts.

(** The drain loop empties the queue. *)
Lemma complete_all :
  forall (Data E : Type) (getE : string -> E) (cos : E -> E -> Q)
         (num : Q -> string) (fetch : nat -> MCPService.FetchOutcome)
         (n : nat) (s : MCPService.Service Data E) (id : string)
         (r : MCPService.MCPResponse Data),
    MCPService.inflight _ _ s = Some (id, r) ->
    List.length (MCPService.requestQueue _ _ s) = n ->
    NoDup (JsMap.keys (MCPService.requestQueue _ _ s)) ->
    (forall id' e, In (id', e) (MCPService.requestQueue _ _ s) ->
       id' <> "" /\ -1 <= MCPService.q_priority Data e) ->
    let s' :=
      MCPService.run Data E getE cos num fetch s
        (repeat (MCPService.Complete Data) (S n)) in
    MCPService.requestQueue _ _ s' = []
    /\ MCPService.inflight _ _ s' = None
    /\ MCPService.processingQueue _ _ s' = false
    /\ exists l,
         MCPService.settled _ _ s'
         = MCPService.settled _ _ s ++ (id, MCPService.Resolved Data r) :: l
         /\ Permutation (map fst l)
              (JsMap.keys (MCPService.requestQueue _ _ s))
         /\ Forall (fun x => exists r', snd x = MCPService.Resolved Data r') l.
Proof.
  intros Data E getE cos num fetch n.
  induction n as [|n IH]; intros s id r Hin Hlen Hnd Hwf;
    destruct (complete_next Data E getE cos num fetch s id r Hin Hnd Hwf)
      as (Hset & Hempty & Hnext); cbv zeta.
  - cbn [repeat MCPService.run fold_left MCPService.turn].
    assert (Hq : MCPService.requestQueue _ _ s = [])
      by (destruct (MCPService.requestQueue _ _ s); [reflexivity|discriminate]).
    destruct (Hempty Hq) as (H1 & H2 & H3).
    split; [exact H3|]. split; [exact H1|]. split; [exact H2|].
    exists []. rewrite Hset, Hq. repeat split; constructor.
  - assert (Hq : MCPService.requestQueue _ _ s <> [])
      by (destruct (MCPService.requestQueue _ _ s); [discriminate|congruence]).
    destruct (Hnext Hq) as (next & e & Hine & _ & Hqueue & _ & Hfly).
    pose proof (length_delete_present next e _ Hnd Hine) as Hlen'.
    destruct (IH (MCPService.complete Data E getE cos num fetch s) next _ Hfly)
      as (H1 & H2 & H3 & l & Hl & Hperm & Hall).
    + rewrite Hqueue. lia.
    + rewrite Hqueue. now apply keys_delete_NoDup.
    + rewrite Hqueue. intros id' e' Hin'. apply In_delete in Hin'.
      apply Hwf. tauto.
    + cbv zeta in *.
      replace (MCPService.run Data E getE cos num fetch s
                 (repeat (MCPService.Complete Data) (S (S n))))
        with (MCPService.run Data E getE cos num fetch
                (MCPService.complete Data E getE cos num fetch s)
                (repeat (MCPService.Complete Data) (S n)))
        by reflexivity.
      split; [exact H1|]. split; [exact H2|]. split; [exact H3|].
      eexists ((next, _) :: l). split; [|split].
      * rewrite Hl, Hset, <- app_assoc. reflexivity.
      * cbn [map fst]. rewrite Hqueue in Hperm.
        eapply perm_trans; [apply perm_skip; exact Hperm|].
        now apply keys_delete_Permutation with e.
      * constructor; [cbn [snd]; eauto | exact Hall].
Qed.

(** X19. No waiting request is lost: while a request is in flight and
    [n] requests wait (with weights at least -1), [n + 1] completions
    leave the queue empty and the service idle, and have resolved the
    request in flight and then every waiting request, each once. *)
Theorem X19_every_waiting_request_is_resolved :
  forall (Data E : Type) (getE : string -> E) (cos : E -> E -> Q)
         (num : Q -> string) (fetch : nat -> MCPService.FetchOutcome)
         (s : MCPService.Service Data E) (id : string)
         (r : MCPService.MCPResponse Data),
    MCPService.inflight _ _ s = Some (id, r) ->
    NoDup (JsMap.keys (MCPService.requestQueue _ _ s)) ->
    (forall id' e, In (id', e) (MCPService.requestQueue _ _ s) ->
       id' <> "" /\ -1 <= MCPService.q_priority Data e) ->
    let n := List.length (MCPService.requestQueue _ _ s) in
    let s' :=
      MCPService.run Data E getE cos num fetch s
        (repeat (MCPService.Complete Data) (S n)) in
    MCPService.requestQueue _ _ s' = []
    /\ MCPService.inflight _ _ s' = None
    /\ MCPService.processingQueue _ _ s' = false
    /\ exists l,
         MCPService.settled _ _ s'
         = MCPService.settled _ _ s ++ (id, MCPService.Resolved Data r) :: l
         /\ Permutation (map fst l)
              (JsMap.keys (MCPService.requestQueue _ _ s))
         /\ Forall (fun x => exists r', snd x = MCPService.Resolved Data r') l.
Proof.
  intros Data E getE cos num fetch s id r Hin Hnd Hwf n.
  now apply complete_all.
Qed.

Lemma X19_every_waiting_request_witness :
  let s' :=
    Sample.run_slow Sample.two_enqueued
      [MCPService.Complete Sample.Data; MCPService.Complete Sample.Data] in
  MCPService.requestQueue _ _ s' = []
  /\ MCPService.inflight _ _ s' = None
  /\ Sample.outcomes s' = [("req_0_a", "resolved"); ("req_1_b", "resolved")].
Proof.
  destruct (X19_every_waiting_request_is_resolved Sample.Data
              Sample.Embedding Sample.getEmbedding Sample.cosineSimilarity
              Sample.numToString Sample.slow Sample.two_enqueued "req_0_a"
              (snd (MCPService.executeRequest Sample.Data Sample.Embedding
                      Sample.getEmbedding Sample.cosineSimilarity
                      Sample.numToString Sample.slow MCPService.defaultOptions
                      (MCPService.track _ _ "request" "mcp_request"
                         Sample.world0)
                      (Sample.request "first") 0%nat)))
    as (H1 & H2 & _).
  - vm_compute. reflexivity.
  - vm_compute. repeat constructor. simpl. tauto.
  - vm_compute. intros id' e [H|[]]. injection H as <- <-.
    split; discriminate.
  - split; [exact H1|]. split; [exact H2|]. vm_compute. reflexivity.
Defined.

(** ** The semantic cache in the executor *)

Section ExecutorSemantic.
Variable Data : Type.
Variable Embedding : Type.
Variable getEmbedding : string -> Embedding.
Variable cosineSimilarity : Embedding -> Embedding -> Q.
Variable numToString : Q -> string.
Variable fetch : nat -> MCPService.FetchOutcome.

Abbreviation World := (MCPService.World Data Embedding).
Abbreviation AIRequest := (MCPService.AIRequest Data).
Abbreviation clock := (MCPService.clock Data Embedding).
Abbreviation semanticCache := (MCPService.semanticCache Data Embedding).
Abbreviation params := (MCPService.params Data).
Abbreviation finishResponse :=
  (MCPService.finishResponse Data Embedding getEmbedding numToString).
Abbreviation attempt :=
  (MCPService.attempt Data Embedding getEmbedding cosineSimilarity
     numToString fetch).

Implicit Types (w : World) (request : AIRequest) (o : MCPService.MCPOptions).

(** The options of the lookup and of the store of a request. *)
Abbreviation findOptions o request :=
  {| SemanticCache.opt_model := MCPService.modelString Data request;
     SemanticCache.opt_systemPrompt := MCPService.systemPrompt Data request;
     SemanticCache.minSimilarity :=
       MCPService.qor (minSimilarity (params o request)) 0.8 |}.
Abbreviation storeOptions o request :=
  {| SemanticCache.st_model := MCPService.modelString Data request;
     SemanticCache.st_systemPrompt := MCPService.systemPrompt Data request;
     SemanticCache.st_ttl :=
       or_default (cacheTTL (params o request)) (MCPService.defaultTTL o) |}.

Lemma finishResponse_stores_semantic o startTime w request r :
  MCPService.uses_semantic (params o request) = true ->
  MCPService.semanticCacheEnabled o = true ->
  storeResult (params o request) = Some true ->
  let out := finishResponse o startTime w request r in
  semanticCache (fst out)
  = snd (SemanticCache.store Embedding getEmbedding (semanticCache w)
           (MCPService.prompt Data request)
           (MCPService.response Data (snd out))
           (storeOptions o request) (clock w)).
Proof.
  intros Hsem Hen Hstore. cbv zeta.
  unfold MCPService.finishResponse.
  destruct (MCPService.runParser Data request r) as [parsed perr].
  rewrite Hstore. cbn [fst snd MCPService.response].
  unfold MCPService.storeInCaches.
  assert (Hp : MCPService.uses_semantic
                 match MCPService.mcpParams Data request with
                 | Some p => p
                 | None =>
                     MCPService.defaultParams
                       (or_default (cacheTTL (params o request))
                          (MCPService.defaultTTL o))
                 end = true).
  { unfold MCPService.params in Hsem.
    destruct (MCPService.mcpParams Data request); [exact Hsem|discriminate]. }
  rewrite Hp, Hen. cbn [andb].
  destruct (MCPService.uses_exact _); destruct perr; reflexivity.
Qed.

(** An attempt that only the semantic cache answers. *)
Lemma attempt_semantic_hit o w request res c' :
  cacheStrategy (params o request) = semantic ->
  MCPService.semanticCacheEnabled o = true ->
  SemanticCache.findSimilar Embedding getEmbedding cosineSimilarity
    (semanticCache w) (MCPService.prompt Data request)
    (findOptions o request) (clock w) = (Some res, c') ->
  let cached := SemanticCache.res_response res in
  exists w1 out,
    attempt o w request = (w1, inl out)
    /\ MCPService.cacheHit Data out = true
    /\ MCPService.similarity Data out = Some (SemanticCache.similarity res)
    /\ MCPService.response Data out
       = {| MCPService.rawResponse := MCPService.rawResponse Data cached;
            MCPService.data := MCPService.data Data cached;
            MCPService.error := MCPService.error Data cached;
            MCPService.processingTime :=
              MCPService.processingTime Data cached;
            MCPService.r_model := MCPService.r_model Data cached;
            MCPService.r_provider := MCPService.r_provider Data cached;
            MCPService.success := MCPService.success Data cached;
            MCPService.fromCache := Some true;
            MCPService.fromMCP := Some true;
            MCPService.usage := MCPService.usage Data cached;
            MCPService.r_metadata :=
              Some {| MCPService.md_similarity :=
                        Some (SemanticCache.similarity res);
                      MCPService.md_cacheStrategy := Some "semantic" |} |}
    /\ quiet w w1.
Proof.
  intros Hstrategy Hen Hfind cached.
  unfold MCPService.attempt, MCPService.lookupExact,
    MCPService.lookupSemantic, MCPService.uses_exact,
    MCPService.uses_semantic.
  rewrite Hstrategy, Hen. cbn [andb]. rewrite Hfind.
  eexists. eexists. split; [reflexivity|].
  unfold MCPService.fromCacheResponse, MCPService.with_similarity.
  cbn [MCPService.cacheHit MCPService.similarity MCPService.response
       MCPService.rawResponse MCPService.data MCPService.error
       MCPService.processingTime MCPService.r_model MCPService.r_provider
       MCPService.success MCPService.usage MCPService.r_metadata].
  repeat (split; [reflexivity|]).
  eapply quiet_trans; [|apply quiet_track].
  eapply quiet_trans; [|apply quiet_track]. repeat split.
Qed.
End ExecutorSemantic.

(** X20. A completion is stored in the semantic cache and served from
    it: under the strategy [semantic], when the caches cannot answer a
    request and the provider answers, the same request executed again
    before the entry expires is a cache hit on that completion, with
    the similarity of the prompt to itself, marked [fromCache] and
    carrying the similarity in its metadata, and makes no provider
    call.  (The similarity of the prompt to itself reaches the floor
    [minSimilarity || 0.8].) *)
Theorem X20_semantic_cache_round_trip :
  forall (Data E : Type) (getE : string -> E) (cos : E -> E -> Q)
         (num : Q -> string) (fetch : nat -> MCPService.FetchOutcome)
         (o : MCPService.MCPOptions) (w : MCPService.World Data E)
         (request : MCPService.AIRequest Data)
         (content : string) (inTok outTok total d : Z),
    let p := MCPService.params Data o request in
    let self :=
      cos (getE (MCPService.prompt Data request))
        (getE (MCPService.prompt Data request)) in
    cacheStrategy p = semantic ->
    MCPService.semanticCacheEnabled o = true ->
    storeResult p = Some true ->
    unanswered getE cos num o request w ->
    NoDup (JsMap.keys (MCPService.semanticCache _ _ w)) ->
    MCPService.result (fetch (MCPService.calls _ _ w))
    = MCPService.HttpOk content inTok outTok total ->
    0 <= d <= or_default (cacheTTL p) (MCPService.defaultTTL o) ->
    (-1 < self)%Q ->
    (MCPService.qor (minSimilarity p) 0.8 <= self)%Q ->
    let first :=
      MCPService.executeRequest Data E getE cos num fetch o w request 0%nat in
    let second :=
      MCPService.executeRequest Data E getE cos num fetch o
        (MCPService.elapse Data E d (fst first)) request 0%nat in
    let r1 := MCPService.response Data (snd first) in
    let r2 := MCPService.response Data (snd second) in
    MCPService.cacheHit Data (snd first) = false
    /\ MCPService.rawResponse Data r1 = Some content
    /\ MCPService.cacheHit Data (snd second) = true
    /\ (exists s, MCPService.similarity Data (snd second) = Some s
                  /\ (self <= s)%Q
                  /\ MCPService.r_metadata Data r2
                     = Some {| MCPService.md_similarity := Some s;
                               MCPService.md_cacheStrategy :=
                                 Some "semantic" |})
    /\ MCPService.fromCache Data r2 = Some true
    /\ MCPService.rawResponse Data r2 = Some content
    /\ MCPService.data Data r2 = MCPService.data Data r1
    /\ MCPService.success Data r2 = MCPService.success Data r1
    /\ MCPService.error Data r2 = MCPService.error Data r1
    /\ apiCalls (MCPService.trace _ _ (fst second))
       = apiCalls (MCPService.trace _ _ (fst first))
    /\ MCPService.calls _ _ (fst second) = MCPService.calls _ _ (fst first).
Proof.
  intros Data E getE cos num fetch o w request content inTok outTok total d
    p self Hstrategy Hen Hstore Hun Hnd Hok Hd Hself Hfloor first second
    r1 r2.
  assert (Hsem : MCPService.uses_semantic p = true)
    by (unfold MCPService.uses_semantic; now rewrite Hstrategy).
  destruct (attempt_miss_ok Data E getE cos num fetch o w request
              _ _ _ _ Hun Hok)
    as (w3 & r & Hatt & Hraw & _ & _ & _ & _ & C3 & _ & _ & _ & Hun3 & ND3 & _).
  specialize (ND3 Hnd).
  pose proof (executeRequest_answered Data E getE cos num fetch o w request
                0%nat _ _ Hatt) as Hfirst.
  fold first in Hfirst.
  destruct (finishResponse_stores Data E getE num o (MCPService.clock _ _ w)
              w3 request r)
    as (F1 & F2 & _ & _ & _ & _ & FC & _ & _).
  pose proof (finishResponse_stores_semantic Data E getE num o
                (MCPService.clock _ _ w) w3 request r Hsem Hen Hstore)
    as Hstored.
  cbv zeta in *.
  assert (Hw : fst first = fst (MCPService.finishResponse Data E getE num o
                                  (MCPService.clock _ _ w) w3 request r))
    by now rewrite Hfirst.
  assert (Hr : snd first = snd (MCPService.finishResponse Data E getE num o
                                  (MCPService.clock _ _ w) w3 request r))
    by now rewrite Hfirst.
  rewrite <- Hw in FC, Hstored. rewrite <- Hr in F1, F2, Hstored.
  (* the lookup of the second execution *)
  match type of Hstored with
  | _ = snd (SemanticCache.store _ _ ?c ?q ?resp ?so ?t) =>
      destruct (store_then_findSimilar (MCPService.AIResponse Data) E getE
                  cos c q resp so
                  {| SemanticCache.opt_model :=
                       MCPService.modelString Data request;
                     SemanticCache.opt_systemPrompt :=
                       MCPService.systemPrompt Data request;
                     SemanticCache.minSimilarity :=
                       MCPService.qor (minSimilarity p) 0.8 |}
                  t (MCPService.clock _ _ w3 + Z.max 0 d))
        as (x & Hx & Hsim & Hunique)
  end.
  { exact ND3. }
  { cbn [SemanticCache.st_ttl]. fold p. lia. }
  { left. reflexivity. }
  { exact Hself. }
  { exact Hfloor. }
  destruct Hunique as [_ Hresp].
  { intros k e Hin _ _. destruct Hun3 as [_ Hlow].
    eapply Qlt_le_trans; [apply (Hlow k e Hin) | exact Hfloor]. }
  cbv zeta in Hx. rewrite <- Hstored in Hx.
  destruct (SemanticCache.findSimilar E getE cos
              (MCPService.semanticCache _ _ (fst first))
              (MCPService.prompt Data request)
              {| SemanticCache.opt_model :=
                   MCPService.modelString Data request;
                 SemanticCache.opt_systemPrompt :=
                   MCPService.systemPrompt Data request;
                 SemanticCache.minSimilarity :=
                   MCPService.qor (minSimilarity p) 0.8 |}
              (MCPService.clock _ _ w3 + Z.max 0 d)) as [found c'] eqn:Hfind.
  cbn [fst] in Hx. subst found.
  destruct (attempt_semantic_hit Data E getE cos num fetch o
              (MCPService.elapse Data E d (fst first)) request x c')
    as (w1 & out & Hatt2 & H1 & H2 & H3 & (_ & QA2 & QC2)).
  { exact Hstrategy. }
  { exact Hen. }
  { cbn [MCPService.elapse MCPService.semanticCache MCPService.clock].
    rewrite FC. exact Hfind. }
  pose proof (executeRequest_answered Data E getE cos num fetch o _ request
                0%nat _ _ Hatt2) as Hsecond.
  fold second in Hsecond.
  assert (Hraw1 : MCPService.rawResponse Data
                    (MCPService.response Data (snd first)) = Some content)
    by congruence.
  cbn [MCPService.elapse MCPService.trace MCPService.calls] in QA2, QC2.
  unfold r1, r2. rewrite Hsecond. cbn [fst snd]. rewrite H3, Hresp.
  cbn [MCPService.fromCache MCPService.rawResponse MCPService.data
       MCPService.success MCPService.error MCPService.r_metadata].
  split; [exact F1|]. split; [exact Hraw1|]. split; [exact H1|].
  split; [exists (SemanticCache.similarity x); auto|].
  repeat split; assumption.
Qed.

Lemma X20_semantic_cache_round_trip_witness :
  let request :=
    {| MCPService.prompt := "a cube";
       MCPService.model := Some claude_3_7_sonnet_20250219;
       MCPService.systemPrompt := None;
       MCPService.temperature := None;
       MCPService.maxTokens := None;
       MCPService.parseResponse := None;
       MCPService.metadata := None;
       MCPService.mcpParams :=
         Some {| cacheStrategy := semantic; minSimilarity := None;
                 cacheTTL := None; priority := None;
                 storeResult := Some true; multiProviderEnabled := None;
                 preferredProvider := None |} |} in
  let run w :=
    MCPService.executeRequest Sample.Data Sample.Embedding
      Sample.getEmbedding Sample.cosineSimilarity Sample.numToString
      Sample.slow MCPService.defaultOptions w request 0%nat in
  let second :=
    run (MCPService.elapse _ _ 60000 (fst (run Sample.world0))) in
  MCPService.cacheHit _ (snd second) = true
  /\ MCPService.rawResponse _ (MCPService.response _ (snd second))
     = Some "a cube"
  /\ MCPService.fromCache _ (MCPService.response _ (snd second)) = Some true.
Proof.
  destruct (X20_semantic_cache_round_trip Sample.Data Sample.Embedding
              Sample.getEmbedding Sample.cosineSimilarity Sample.numToString
              Sample.slow MCPService.defaultOptions Sample.world0
              {| MCPService.prompt := "a cube";
                 MCPService.model := Some claude_3_7_sonnet_20250219;
                 MCPService.systemPrompt := None;
                 MCPService.temperature := None;
                 MCPService.maxTokens := None;
                 MCPService.parseResponse := None;
                 MCPService.metadata := None;
                 MCPService.mcpParams :=
                   Some {| cacheStrategy := semantic; minSimilarity := None;
                           cacheTTL := None; priority := None;
                           storeResult := Some true;
                           multiProviderEnabled := None;
                           preferredProvider := None |} |}
              "a cube" 100 50 150 60000)
    as (_ & _ & H3 & _ & H5 & H6 & _).
  - reflexivity.
  - reflexivity.
  - reflexivity.
  - split; [reflexivity | intros k e []].
  - constructor.
  - reflexivity.
  - vm_compute. split; discriminate.
  - reflexivity.
  - vm_compute. discriminate.
  - split; [exact H3|]. split; [exact H6 | exact H5].
Defined.

(** ** The analytics log *)

Section SliceFacts.
Context {A : Type}.
Implicit Types (l : list A).

Lemma slice_last_short n l :
  (List.length l <= n)%nat -> AIAnalytics.slice_last n l = l.
Proof.
  intros H. unfold AIAnalytics.slice_last.
  replace (List.length l - n)%nat with 0%nat by lia. reflexivity.
Qed.

Lemma length_slice_last n l :
  List.length (AIAnalytics.slice_last n l) = Nat.min (List.length l) n.
Proof. unfold AIAnalytics.slice_last. rewrite length_skipn. lia. Qed.

Lemma slice_last_app n l l' :
  AIAnalytics.slice_last n (AIAnalytics.slice_last n l ++ l')
  = AIAnalytics.slice_last n (l ++ l').
Proof.
  destruct (Nat.le_gt_cases (List.length l) n) as [Hle|Hgt].
  - now rewrite (slice_last_short n l Hle).
  - unfold AIAnalytics.slice_last at 1 3.
    rewrite !length_app, length_slice_last.
    replace (Nat.min (List.length l) n + List.length l' - n)%nat
      with (List.length l') by lia.
    replace (List.length l + List.length l' - n)%nat
      with ((List.length l - n) + List.length l')%nat by lia.
    rewrite Nat.add_comm, <- skipn_skipn. f_equal.
    unfold AIAnalytics.slice_last. rewrite skipn_app.
    replace (List.length l - n - List.length l)%nat with 0%nat by lia.
    reflexivity.
Qed.
End SliceFacts.

Section AnalyticsFacts.
Variable Metrics : Type.
Variable updateMetrics :
  Metrics -> list AIAnalytics.AIAnalyticsEvent -> Z
  -> AIAnalytics.AIAnalyticsEvent -> Metrics.

Abbreviation State := (AIAnalytics.t Metrics).
Abbreviation trackEvent := (AIAnalytics.trackEvent Metrics updateMetrics).
Abbreviation trackAll := (AIAnalytics.trackAll Metrics updateMetrics).
Abbreviation events := (AIAnalytics.events Metrics).
Abbreviation isEnabled := (AIAnalytics.isEnabled Metrics).
Abbreviation stamped :=
  (map (fun c : AIAnalytics.AIAnalyticsEvent * Z * Z =>
          AIAnalytics.stamp (fst (fst c)) (snd (fst c)))).

Lemma trackEvent_events (s : State) e now now' :
  isEnabled s = true ->
  events (trackEvent s e now now')
  = AIAnalytics.slice_last AIAnalytics.MAX_EVENTS
      (events s ++ [AIAnalytics.stamp e now])
  /\ isEnabled (trackEvent s e now now') = true.
Proof.
  intros Hen. unfold AIAnalytics.trackEvent, AIAnalytics.pruneEvents.
  rewrite Hen. cbn [negb AIAnalytics.events AIAnalytics.isEnabled].
  destruct (Nat.ltb_spec AIAnalytics.MAX_EVENTS
              (List.length (events s ++ [AIAnalytics.stamp e now])));
    cbn [AIAnalytics.events AIAnalytics.isEnabled]; split; auto.
  now rewrite slice_last_short.
Qed.

Lemma trackAll_events calls : forall s : State,
  isEnabled s = true ->
  (List.length (events s) <= AIAnalytics.MAX_EVENTS)%nat ->
  events (trackAll s calls)
  = AIAnalytics.slice_last AIAnalytics.MAX_EVENTS
      (events s ++ stamped calls)
  /\ isEnabled (trackAll s calls) = true.
Proof.
  induction calls as [|[[e now] now'] calls IH]; intros s Hen Hlen.
  - cbn [AIAnalytics.trackAll fold_left map]. rewrite app_nil_r.
    now rewrite slice_last_short.
  - destruct (trackEvent_events s e now now' Hen) as [Hev Hen'].
    change (trackAll s ((e, now, now') :: calls))
      with (trackAll (trackEvent s e now now') calls).
    destruct (IH (trackEvent s e now now') Hen') as [IH1 IH2].
    + rewrite Hev, length_slice_last. lia.
    + split; [|exact IH2].
      rewrite IH1, Hev, slice_last_app, <- app_assoc. reflexivity.
Qed.

Lemma trackAll_disabled calls : forall s : State,
  isEnabled s = false -> trackAll s calls = s.
Proof.
  induction calls as [|[[e now] now'] calls IH]; intros s Hen;
    [reflexivity|].
  change (trackAll s ((e, now, now') :: calls))
    with (trackAll (trackEvent s e now now') calls).
  assert (Hsame : trackEvent s e now now' = s)
    by (unfold AIAnalytics.trackEvent; now rewrite Hen).
  rewrite Hsame. now apply IH.
Qed.
End AnalyticsFacts.

(** X21. The event log of a new [AIAnalytics] is bounded and keeps the
    latest: after any sequence of [trackEvent] calls it holds the last
    1000 events tracked (all of them when there are fewer), each with
    the time of its call, in the order of the calls; and while
    analytics is disabled [trackEvent] records nothing and changes
    nothing. *)
Theorem X21_event_log_keeps_the_last_thousand :
  forall (Metrics : Type)
         (updateMetrics :
            Metrics -> list AIAnalytics.AIAnalyticsEvent -> Z
            -> AIAnalytics.AIAnalyticsEvent -> Metrics)
         (initial : Metrics)
         (calls : list (AIAnalytics.AIAnalyticsEvent * Z * Z)),
    let tracked :=
      map (fun c => AIAnalytics.stamp (fst (fst c)) (snd (fst c))) calls in
    let s :=
      AIAnalytics.trackAll Metrics updateMetrics
        (AIAnalytics.create Metrics None initial) calls in
    let off :=
      AIAnalytics.setEnabled Metrics
        (AIAnalytics.create Metrics None initial) false in
    AIAnalytics.events _ s = AIAnalytics.slice_last 1000 tracked
    /\ List.length (AIAnalytics.events _ s)
       = Nat.min (List.length calls) 1000
    /\ (exists dropped, tracked = dropped ++ AIAnalytics.events _ s)
    /\ AIAnalytics.trackAll Metrics updateMetrics off calls = off.
Proof.
  intros Metrics updateMetrics initial calls tracked s off.
  destruct (trackAll_events Metrics updateMetrics calls
              (AIAnalytics.create Metrics None initial))
    as [Hev _].
  { reflexivity. }
  { cbn. lia. }
  cbn [AIAnalytics.create AIAnalytics.events app] in Hev.
  fold tracked in Hev. fold s in Hev.
  change AIAnalytics.MAX_EVENTS with 1000%nat in Hev.
  split; [exact Hev|]. split; [|split].
  - rewrite Hev, length_slice_last. unfold tracked. now rewrite length_map.
  - exists (firstn (List.length tracked - 1000) tracked).
    rewrite Hev. unfold AIAnalytics.slice_last.
    now rewrite firstn_skipn.
  - now apply trackAll_disabled.
Qed.

(** ** The keys of the semantic cache *)

Lemma to_int_not_nil z :
  Z.to_int z <> Decimal.Pos Decimal.Nil
  /\ Z.to_int z <> Decimal.Neg Decimal.Nil.
Proof.
  pose proof (DecimalZ.to_of (Z.to_int z)) as H.
  rewrite DecimalZ.of_to in H. rewrite H.
  destruct (Z.to_int z) as [d|d]; unfold Decimal.norm, Decimal.unorm;
    destruct (Decimal.nzhead d); split; discriminate.
Qed.

Lemma string_of_Z_inj a b : string_of_Z a = string_of_Z b -> a = b.
Proof.
  unfold string_of_Z. intros H.
  apply (f_equal NilZero.int_of_string) in H.
  destruct (to_int_not_nil a), (to_int_not_nil b).
  rewrite !NilZero.isi in H by assumption.
  injection H as H. now apply DecimalZ.to_int_inj.
Qed.

Lemma string_of_uint_no_colon d :
  no_colon (NilEmpty.string_of_uint d) = true.
Proof. induction d; simpl; auto. Qed.

Lemma string_of_Z_no_colon z : no_colon (string_of_Z z) = true.
Proof.
  unfold string_of_Z, NilZero.string_of_int, NilZero.string_of_uint.
  destruct (Z.to_int z) as [[]|[]]; try reflexivity;
    try apply (string_of_uint_no_colon (_ _));
    cbn [no_colon]; try apply (string_of_uint_no_colon (_ _)).
Qed.

(** X22. The key of a semantic entry is made of the time of the store
    and of the hash of the query, and of nothing else: two stores get
    the same key exactly when they happen in the same millisecond for
    queries with the same [simpleHash].  So a later store at another
    time leaves the entry of the first as it is, and a store in the same
    millisecond for a query with the same hash replaces the entry of
    the first and leaves the cache of the same size. *)
Theorem X22_semantic_keys_are_time_and_hash :
  forall (R E : Type) (getE : string -> E)
         (c : SemanticCache.t R E) (q1 q2 : string) (r1 r2 : R)
         (o1 o2 : SemanticCache.StoreOptions) (t1 t2 : Z),
    let first := SemanticCache.store E getE c q1 r1 o1 t1 in
    let second := SemanticCache.store E getE (snd first) q2 r2 o2 t2 in
    (fst first = fst second
     <-> t1 = t2
         /\ SemanticCache.simpleHash q1 0 = SemanticCache.simpleHash q2 0)
    /\ (t1 <> t2 ->
        JsMap.get (fst first) (snd second)
        = JsMap.get (fst first) (snd first))
    /\ (fst first = fst second ->
        JsMap.size (snd second) = JsMap.size (snd first)
        /\ option_map (SemanticCache.response E)
             (JsMap.get (fst first) (snd second)) = Some r2).
Proof.
  intros R E getE c q1 q2 r1 r2 o1 o2 t1 t2 first second.
  assert (Hkey : fst first = fst second
                 <-> t1 = t2
                     /\ SemanticCache.simpleHash q1 0
                        = SemanticCache.simpleHash q2 0).
  { unfold first, second, SemanticCache.store. cbn [fst]. split.
    - intros H. simpl in H.
      repeat match type of H with
             | String ?a _ = String ?a _ => injection H as H
             end.
      apply cut_at_colon in H; try apply string_of_Z_no_colon.
      destruct H as [Ht Hh].
      split; now apply string_of_Z_inj.
    - now intros [-> ->]. }
  assert (Hs2 : snd second
                = JsMap.set (fst second)
                    {| SemanticCache.embedding := getE q2;
                       SemanticCache.response := r2;
                       SemanticCache.query := q2;
                       SemanticCache.systemPrompt :=
                         SemanticCache.st_systemPrompt o2;
                       SemanticCache.model := SemanticCache.st_model o2;
                       SemanticCache.expiresAt :=
                         t2 + SemanticCache.st_ttl o2 |}
                    (snd first)) by reflexivity.
  split; [exact Hkey|]. rewrite Hs2. split.
  - intros Hne. apply get_set_other. intros Heq. apply Hne.
    now apply Hkey in Heq.
  - intros Heq. rewrite <- Heq. split.
    + unfold JsMap.size. f_equal.
      assert (Hin : In (fst first) (JsMap.keys (snd first))).
      { unfold JsMap.keys. apply in_map_iff.
        eexists (_, _). split; [|apply In_set_same]. reflexivity. }
      revert Hin. generalize (fst first). generalize (snd first).
      intros m k0 Hin. induction m as [|[k v] m IH]; simpl in *.
      * destruct Hin.
      * destruct (String.eqb_spec k k0); simpl; auto.
        f_equal. apply IH. tauto.
    + rewrite get_set_same. reflexivity.
Qed.

(** ** Custom ratings *)

(** X23. The constructor's custom ratings are spread over a model's
    metadata field by field, so a custom [capabilities] object replaces
    the table's ratings of that model wholesale: a capability that the
    custom object does not rate is then undefined, the model fails every
    request that requires it, and [selectModel] returns that model only
    as the default.  Models without custom ratings keep the table's
    metadata. *)
Theorem X23_custom_capabilities_replace_the_ratings :
  forall (custom : AIModelType -> option SmartRouter.PartialMetadata)
         (m : AIModelType) (r : SmartRouter.PartialMetadata)
         (caps' : list (string * Q))
         (options : SmartRouter.SelectOptions) (cap : string),
    custom m = Some r ->
    SmartRouter.p_capabilities r = Some caps' ->
    In cap (SmartRouter.over (SmartRouter.o_requiredCapabilities options) []) ->
    SmartRouter.prop (SmartRouter.mapCapabilityToMetadataField cap) caps'
    = None ->
    let router := SmartRouter.create custom in
    SmartRouter.capabilities (router m) = caps'
    /\ (forall sc, SmartRouter.scoreModel router options m = Some sc ->
          SmartRouter.meetsRequirements sc = false)
    /\ (SmartRouter.selectModel router options = m ->
        m = claude_3_7_sonnet_20250219)
    /\ (forall m', custom m' = None ->
          router m' = SmartRouter.modelsMetadata m').
Proof.
  intros custom m r caps' options cap Hcustom Hcaps Hin Hnone router.
  assert (Hrouter : SmartRouter.capabilities (router m) = caps').
  { unfold router, SmartRouter.create. rewrite Hcustom.
    unfold SmartRouter.merge. cbn [SmartRouter.capabilities].
    now rewrite Hcaps. }
  assert (Hlack : forall sc,
             SmartRouter.scoreModel router options m = Some sc ->
             SmartRouter.meetsRequirements sc = false).
  { intros sc. unfold SmartRouter.scoreModel.
    destruct (match SmartRouter.o_preferredProvider options with
              | Some p => _ | None => _ end); [discriminate|].
    assert (Hall : forallb
                     (SmartRouter.capabilityMet (router m)
                        (SmartRouter.complexityFactors
                           (SmartRouter.over
                              (SmartRouter.o_complexityLevel options) medium)))
                     (SmartRouter.over
                        (SmartRouter.o_requiredCapabilities options) [])
                   = false).
    { destruct (forallb _ _) eqn:E; [|reflexivity].
      rewrite forallb_forall in E. specialize (E cap Hin).
      unfold SmartRouter.capabilityMet in E.
      rewrite Hrouter, Hnone in E. discriminate. }
    rewrite Hall. cbn [negb]. intros H. now injection H as <-. }
  split; [exact Hrouter|]. split; [exact Hlack|]. split.
  - intros Hsel.
    destruct (selectModel_cases router options)
      as [[Hdef _]|(sc & Hsc & Hmeets & _)].
    + now rewrite <- Hsel.
    + rewrite Hsel in Hsc. rewrite (Hlack sc Hsc) in Hmeets. discriminate.
  - intros m' Hm'. unfold router, SmartRouter.create. now rewrite Hm'.
Qed.

Lemma X23_custom_capabilities_witness :
  let custom m :=
    match m with
    | gpt_4o =>
        Some {| SmartRouter.p_provider := None;
                SmartRouter.p_contextSize := None;
                SmartRouter.p_costPerInputToken := None;
                SmartRouter.p_costPerOutputToken := None;
                SmartRouter.p_averageResponseTimeMs := None;
                SmartRouter.p_capabilities := Some [("reasoning", 10%Q)] |}
    | _ => None
    end in
  let options :=
    {| SmartRouter.o_taskType := Some "code";
       SmartRouter.o_promptTokenEstimate := None;
       SmartRouter.o_outputTokenEstimate := None;
       SmartRouter.o_priority := None;
       SmartRouter.o_requiredCapabilities := Some ["code"];
       SmartRouter.o_preferredProvider := Some OPENAI;
       SmartRouter.o_complexityLevel := None |} in
  SmartRouter.capabilities (SmartRouter.create custom gpt_4o)
  = [("reasoning", 10%Q)]
  /\ (forall sc,
        SmartRouter.scoreModel (SmartRouter.create custom) options gpt_4o
        = Some sc ->
        SmartRouter.meetsRequirements sc = false).
Proof.
  destruct (X23_custom_capabilities_replace_the_ratings
              (fun m =>
                 match m with
                 | gpt_4o =>
                     Some {| SmartRouter.p_provider := None;
                             SmartRouter.p_contextSize := None;
                             SmartRouter.p_costPerInputToken := None;
                             SmartRouter.p_costPerOutputToken := None;
                             SmartRouter.p_averageResponseTimeMs := None;
                             SmartRouter.p_capabilities :=
                               Some [("reasoning", 10%Q)] |}
                 | _ => None
                 end)
              gpt_4o
              {| SmartRouter.p_provider := None;
                 SmartRouter.p_contextSize := None;
                 SmartRouter.p_costPerInputToken := None;
                 SmartRouter.p_costPerOutputToken := None;
                 SmartRouter.p_averageResponseTimeMs := None;
                 SmartRouter.p_capabilities := Some [("reasoning", 10%Q)] |}
              [("reasoning", 10%Q)]
              {| SmartRouter.o_taskType := Some "code";
                 SmartRouter.o_promptTokenEstimate := None;
                 SmartRouter.o_outputTokenEstimate := None;
                 SmartRouter.o_priority := None;
                 SmartRouter.o_requiredCapabilities := Some ["code"];
                 SmartRouter.o_preferredProvider := Some OPENAI;
                 SmartRouter.o_complexityLevel := None |}
              "code")
    as (H1 & H2 & _).
  - reflexivity.
  - reflexivity.
  - simpl. now left.
  - reflexivity.
  - split; [exact H1 | exact H2].
Defined.

(** ** What the executor does not store *)

Section ExecutorStores.
Variable Data : Type.
Variable Embedding : Type.
Variable getEmbedding : string -> Embedding.
Variable cosineSimilarity : Embedding -> Embedding -> Q.
Variable numToString : Q -> string.
Variable fetch : nat -> MCPService.FetchOutcome.

Abbreviation World := (MCPService.World Data Embedding).
Abbreviation AIRequest := (MCPService.AIRequest Data).
Abbreviation calls := (MCPService.calls Data Embedding).
Abbreviation exactCache := (MCPService.exactCache Data Embedding).
Abbreviation semanticCache := (MCPService.semanticCache Data Embedding).
Abbreviation params := (MCPService.params Data).
Abbreviation finishResponse :=
  (MCPService.finishResponse Data Embedding getEmbedding numToString).
Abbreviation attempt :=
  (MCPService.attempt Data Embedding getEmbedding cosineSimilarity
     numToString fetch).
Abbreviation executeRequest :=
  (MCPService.executeRequest Data Embedding getEmbedding cosineSimilarity
     numToString fetch).
Abbreviation unanswered :=
  (unanswered getEmbedding cosineSimilarity numToString).

Implicit Types (w : World) (request : AIRequest) (o : MCPService.MCPOptions).

(** The caches of [w'] hold nothing that those of [w] do not. *)
Abbreviation nothing_stored w w' :=
  (exactCache w' = exactCache w
   /\ forall k e, In (k, e) (semanticCache w') -> In (k, e) (semanticCache w)).

Lemma nothing_stored_unanswered o request w w' :
  unanswered o request w -> nothing_stored w w' -> unanswered o request w'.
Proof.
  intros [Hx Hs] [He Hsub]. split; [now rewrite He | eauto].
Qed.

Lemma finishResponse_without_store o startTime w request r :
  storeResult (params o request) <> Some true ->
  nothing_stored w (fst (finishResponse o startTime w request r)).
Proof.
  intros Hno. unfold MCPService.finishResponse.
  destruct (MCPService.runParser Data request r) as [parsed perr].
  destruct (storeResult (params o request)) as [[|]|]; [congruence| |];
    destruct perr; cbn; auto.
Qed.

Lemma attempt_stores_nothing o w request :
  unanswered o request w ->
  storeResult (params o request) <> Some true
  \/ failed (MCPService.result (fetch (calls w))) = true ->
  nothing_stored w (fst (attempt o w request)).
Proof.
  intros Hun Hcase.
  destruct (failed (MCPService.result (fetch (calls w)))) eqn:Hf.
  - destruct (attempt_miss_fails Data Embedding getEmbedding cosineSimilarity
                numToString fetch o w request Hun Hf)
      as (w1 & err & -> & _ & _ & _ & _ & E1 & S1).
    cbn [fst]. auto.
  - destruct Hcase as [Hno|]; [|discriminate].
    destruct (MCPService.result (fetch (calls w))) as [| |content i t n] eqn:Hr;
      try discriminate.
    destruct (attempt_miss_ok Data Embedding getEmbedding cosineSimilarity
                numToString fetch o w request content i t n Hun Hr)
      as (w3 & r & -> & _ & _ & _ & _ & E3 & _ & _ & _ & _ & _ & _ & S3).
    cbn [fst].
    destruct (finishResponse_without_store o (MCPService.clock _ _ w) w3
                request r Hno) as [E4 S4].
    split; [congruence | auto].
Qed.

Lemma executeRequest_stores_nothing o w request c :
  unanswered o request w ->
  storeResult (params o request) <> Some true \/ all_fail fetch ->
  nothing_stored w (fst (executeRequest o w request c)).
Proof.
  funelim (executeRequest o w request c); intros Hun Hcase;
    match goal with
    | H : attempt o w request = _ |- _ =>
        assert (Hatt : nothing_stored w (fst (attempt o w request)))
          by (apply attempt_stores_nothing;
              [exact Hun | destruct Hcase; [now left | right; auto]]);
        rewrite H in Hatt; cbn [fst] in Hatt
    end.
  - exact Hatt.
  - match goal with
    | IH : unanswered _ _ _ -> _ |- _ =>
        destruct IH as [E S]; [|exact Hcase|]
    end.
    + apply unanswered_sleep.
      now apply (nothing_stored_unanswered o request w).
    + destruct Hatt as [E1 S1]. split; [now rewrite E | auto].
  - exact Hatt.
Qed.
End ExecutorStores.

(** X24. What [executeRequest] never stores.  When the caches cannot
    answer a request, and either the request's [mcpParams] do not set
    [storeResult] to true or every call of the provider fails, the
    execution stores nothing: the exact cache is left as it was, the
    semantic cache holds no new entry, and the caches still cannot
    answer the request, so that the same request goes to the provider
    again. *)
Theorem X24_failures_and_unstored_results_are_not_cached :
  forall (Data E : Type) (getE : string -> E) (cos : E -> E -> Q)
         (num : Q -> string) (fetch : nat -> MCPService.FetchOutcome)
         (o : MCPService.MCPOptions) (w : MCPService.World Data E)
         (request : MCPService.AIRequest Data),
    unanswered getE cos num o request w ->
    storeResult (MCPService.params Data o request) <> Some true
    \/ all_fail fetch ->
    let w' :=
      fst (MCPService.executeRequest Data E getE cos num fetch o w request
             0%nat) in
    MCPService.exactCache _ _ w' = MCPService.exactCache _ _ w
    /\ (forall k e, In (k, e) (MCPService.semanticCache _ _ w') ->
          In (k, e) (MCPService.semanticCache _ _ w))
    /\ unanswered getE cos num o request w'.
Proof.
  intros Data E getE cos num fetch o w request Hun Hcase w'.
  destruct (executeRequest_stores_nothing Data E getE cos num fetch o w
              request 0%nat Hun Hcase) as [He Hs].
  fold w' in He, Hs. split; [exact He|]. split; [exact Hs|].
  destruct Hun as [Hx Hlow]. split; [now rewrite He | eauto].
Qed.

Lemma X24_not_cached_witness :
  let request :=
    {| MCPService.prompt := "a cube";
       MCPService.model := Some claude_3_7_sonnet_20250219;
       MCPService.systemPrompt := None;
       MCPService.temperature := None;
       MCPService.maxTokens := None;
       MCPService.parseResponse := None;
       MCPService.metadata := None;
       MCPService.mcpParams :=
         Some {| cacheStrategy := hybrid; minSimilarity := None;
                 cacheTTL := None; priority := None;
                 storeResult := None; multiProviderEnabled := None;
                 preferredProvider := None |} |} in
  let out :=
    MCPService.executeRequest Sample.Data Sample.Embedding
      Sample.getEmbedding Sample.cosineSimilarity Sample.numToString
      Sample.slow MCPService.defaultOptions Sample.world0 request 0%nat in
  MCPService.exactCache _ _ (fst out) = MCPService.exactCache _ _ Sample.world0
  /\ MCPService.success _ (MCPService.response _ (snd out)) = true.
Proof.
  destruct (X24_failures_and_unstored_results_are_not_cached Sample.Data
              Sample.Embedding Sample.getEmbedding Sample.cosineSimilarity
              Sample.numToString Sample.slow MCPService.defaultOptions
              Sample.world0
              {| MCPService.prompt := "a cube";
                 MCPService.model := Some claude_3_7_sonnet_20250219;
                 MCPService.systemPrompt := None;
                 MCPService.temperature := None;
                 MCPService.maxTokens := None;
                 MCPService.parseResponse := None;
                 MCPService.metadata := None;
                 MCPService.mcpParams :=
                   Some {| cacheStrategy := hybrid; minSimilarity := None;
                           cacheTTL := None; priority := None;
                           storeResult := None; multiProviderEnabled := None;
                           preferredProvider := None |} |})
    as (H1 & _).
  - split; [reflexivity | intros k e []].
  - left. discriminate.
  - split; [exact H1 | reflexivity].
Defined.

(** ** When the loop of [setMaxSize] does not end *)

Section ShrinkStuck.
Context {T : Type}.
Variable clock : nat -> Z.
Implicit Types (c : AICache.t T).

(** A round that removes nothing leaves the loop where it was. *)
Lemma shrink_stuck fuel : forall i c,
  AICache.maxSize (AICache.options c) < AICache.size c ->
  (forall j, AICache.removeOldestItem c (clock j) = c) ->
  AICache.shrink fuel clock i c = None.
Proof.
  induction fuel as [|fuel IH]; intros i c Hbig Hstuck; simpl;
    unfold AICache.size in Hbig;
    destruct (Z.ltb_spec (AICache.maxSize (AICache.options c))
                (JsMap.size (AICache.cache c))); try lia; auto.
  rewrite Hstuck. now apply IH.
Qed.

Lemma removeOldestItem_none c now :
  (forall k item, In (k, item) (AICache.cache c) ->
     now <= AICache.timestamp item) ->
  AICache.removeOldestItem c now = c.
Proof.
  intros Hnew.
  pose proof (oldest_min (AICache.cache c) (None, now)) as Hmin.
  cbv zeta in Hmin. destruct Hmin as (_ & _ & Hcase).
  unfold AICache.removeOldestItem.
  destruct (fold_left AICache.oldest_step (AICache.cache c) (None, now))
    as [oldestKey oldestTimestamp].
  cbn [fst snd] in *.
  destruct Hcase as [Heq|(k & item & Hin & _ & _ & Hlt)].
  - now injection Heq as -> ->.
  - specialize (Hnew _ _ Hin). lia.
Qed.
Lemma removeOldestItem_options c now :
  AICache.options (AICache.removeOldestItem c now) = AICache.options c.
Proof.
  unfold AICache.removeOldestItem.
  destruct (truthy _); [|reflexivity].
  now destruct (fst _).
Qed.

(** With a negative [maxSize] no round ends the loop. *)
Lemma shrink_negative fuel : forall i c,
  AICache.maxSize (AICache.options c) < 0 ->
  AICache.shrink fuel clock i c = None.
Proof.
  induction fuel as [|fuel IH]; intros i c Hneg; simpl;
    (destruct (Z.ltb_spec (AICache.maxSize (AICache.options c))
                 (JsMap.size (AICache.cache c))) as [_|Hge];
     [|unfold JsMap.size in Hge; lia]); auto.
  apply IH. now rewrite removeOldestItem_options.
Qed.
End ShrinkStuck.

(** X25. [setMaxSize] does not return when its loop cannot remove
    anything: with a negative size, whatever the cache holds (the loop
    goes on on the empty cache); and, with a size below the number of
    entries, for as long as the clock reads no more than the timestamp
    of every entry (entries stored in the current millisecond).  In
    both cases the loop has not ended after any number of rounds. *)
Theorem X25_setMaxSize_loops_when_nothing_can_be_removed :
  forall (T : Type) (clock : nat -> Z) (c : AICache.t T) (newMax : Z),
    (newMax < 0 ->
     forall fuel, AICache.setMaxSize fuel clock c newMax = None)
    /\ (newMax < AICache.size c ->
        (forall j k item, In (k, item) (AICache.cache c) ->
           clock j <= AICache.timestamp item) ->
        forall fuel, AICache.setMaxSize fuel clock c newMax = None).
Proof.
  intros T clock c newMax. split.
  - intros Hneg fuel. unfold AICache.setMaxSize.
    now apply shrink_negative.
  - intros Hbig Hnew fuel. unfold AICache.setMaxSize.
    apply shrink_stuck.
    + exact Hbig.
    + intros j. apply removeOldestItem_none.
      cbn [AICache.cache]. intros k item Hin. now apply (Hnew j k).
Qed.

(** ** Every promise is settled at most once *)

Section SetFacts.
Context {V : Type}.
Implicit Types (m : JsMap.t V).

Lemma keys_set_fresh k v m :
  ~ In k (JsMap.keys m) -> JsMap.keys (JsMap.set k v m) = JsMap.keys m ++ [k].
Proof.
  induction m as [|[k' v'] m IH]; simpl; [reflexivity|].
  intros Hnotin. destruct (String.eqb_spec k' k) as [->|Hne]; simpl.
  - exfalso. apply Hnotin. now left.
  - f_equal. apply IH. tauto.
Qed.

Lemma get_none_absent k m : JsMap.get k m = None -> ~ In k (JsMap.keys m).
Proof.
  induction m as [|[k' v'] m IH]; simpl; [tauto|].
  destruct (String.eqb_spec k' k) as [->|Hne]; [discriminate|].
  intros H [Heq|Hin]; [congruence | now apply IH].
Qed.
End SetFacts.

Section IdFacts.
Variable Data : Type.
Variable Embedding : Type.
Variable getEmbedding : string -> Embedding.
Variable cosineSimilarity : Embedding -> Embedding -> Q.
Variable numToString : Q -> string.
Variable fetch : nat -> MCPService.FetchOutcome.

Abbreviation Service := (MCPService.Service Data Embedding).
Abbreviation requestQueue := (MCPService.requestQueue Data Embedding).
Abbreviation inflight := (MCPService.inflight Data Embedding).
Abbreviation processingQueue := (MCPService.processingQueue Data Embedding).
Abbreviation drain :=
  (MCPService.drain Data Embedding getEmbedding cosineSimilarity numToString
     fetch).
Abbreviation enqueue :=
  (MCPService.enqueue Data Embedding getEmbedding cosineSimilarity numToString
     fetch).
Abbreviation complete :=
  (MCPService.complete Data Embedding getEmbedding cosineSimilarity numToString
     fetch).
Abbreviation timeoutFires := (MCPService.timeoutFires Data Embedding).
Abbreviation turn :=
  (MCPService.turn Data Embedding getEmbedding cosineSimilarity numToString
     fetch).
Abbreviation run :=
  (MCPService.run Data Embedding getEmbedding cosineSimilarity numToString
     fetch).

Implicit Types (s : Service).

(** An idle service has no request in flight. *)
Abbreviation idle_ok s := (processingQueue s = false -> inflight s = None).

Lemma getNextRequest_ids (q : JsMap.t (MCPService.QueueEntry Data)) :
  NoDup (JsMap.keys q) ->
  match MCPService.getNextRequest Data q with
  | (Some (id, _), q') => Permutation (id :: JsMap.keys q') (JsMap.keys q)
  | (None, q') => q' = q
  end.
Proof.
  intros Hnd. unfold MCPService.getNextRequest.
  destruct (MCPService.selectedRequestId _) as [id|]; [|reflexivity].
  destruct (truthy (Some id)); [|reflexivity].
  destruct (JsMap.get id q) as [e|] eqn:G; cbn [option_map].
  - apply keys_delete_Permutation with e; [exact Hnd | now apply get_In].
  - apply delete_absent. now apply get_none_absent.
Qed.

Lemma drain_ids s now :
  NoDup (JsMap.keys (requestQueue s)) -> inflight s = None ->
  Permutation (knownIds (drain s now)) (knownIds s)
  /\ idle_ok (drain s now).
Proof.
  intros Hnd Hfly. unfold MCPService.drain, knownIds. rewrite Hfly.
  destruct (0 <? JsMap.size (requestQueue s));
    [|cbn; split; [apply Permutation_refl | reflexivity]].
  pose proof (getNextRequest_ids (requestQueue s) Hnd) as Hnext.
  destruct (MCPService.getNextRequest Data (requestQueue s))
    as [[[id e]|] q'].
  - destruct (MCPService.executeRequest _ _ _ _ _ _ _ _ _ _) as [w r].
    cbn [MCPService.settled MCPService.inflight MCPService.requestQueue
         MCPService.processingQueue app].
    split; [|discriminate].
    apply Permutation_app_head. exact Hnext.
  - subst q'. cbn. split; [apply Permutation_refl | reflexivity].
Qed.

Lemma enqueue_ids s r p now rnd :
  idle_ok s -> NoDup (knownIds s) ->
  ~ In (MCPService.requestId now rnd) (knownIds s) ->
  Permutation (knownIds (enqueue s r p now rnd))
    (knownIds s ++ [MCPService.requestId now rnd])
  /\ idle_ok (enqueue s r p now rnd).
Proof.
  intros Hidle Hnd Hfresh. unfold MCPService.enqueue.
  set (id := MCPService.requestId now rnd) in *.
  destruct (match MCPService.smartRoutingEnabled _, MCPService.model Data r with
            | true, None => _
            | _, _ => _
            end) as [r1 w2].
  assert (Hq : ~ In id (JsMap.keys (requestQueue s))).
  { intros Hin. apply Hfresh. unfold knownIds.
    apply in_or_app. right. apply in_or_app. now right. }
  assert (Hndq : NoDup (JsMap.keys (requestQueue s))).
  { unfold knownIds in Hnd.
    apply NoDup_app_remove_l in Hnd. now apply NoDup_app_remove_l in Hnd. }
  match goal with
  | |- context [if MCPService.processingQueue _ _ ?s1 then _ else _] =>
      assert (Hs1 : knownIds s1 = knownIds s ++ [id])
  end.
  { unfold knownIds.
    cbn [MCPService.settled MCPService.inflight MCPService.requestQueue].
    rewrite keys_set_fresh by exact Hq. now rewrite !app_assoc. }
  cbn [MCPService.processingQueue] in *.
  destruct (processingQueue s) eqn:Hp.
  - rewrite Hs1. split; [apply Permutation_refl | discriminate].
  - match goal with
    | |- Permutation (knownIds (drain ?s1 now)) _ /\ _ =>
        destruct (drain_ids s1 now) as [Hperm Hidle']
    end.
    + cbn [MCPService.requestQueue]. rewrite keys_set_fresh by exact Hq.
      apply NoDup_app; auto.
      * constructor; [tauto | constructor].
      * intros x Hx [<-|[]]. contradiction.
    + cbn [MCPService.inflight]. now apply Hidle.
    + split; [|exact Hidle']. now rewrite <- Hs1.
Qed.

Lemma complete_ids s :
  idle_ok s -> NoDup (knownIds s) ->
  Permutation (knownIds (complete s)) (knownIds s) /\ idle_ok (complete s).
Proof.
  intros Hidle Hnd. unfold MCPService.complete.
  destruct (inflight s) as [[id r]|] eqn:Hfly;
    [|split; [apply Permutation_refl | intros _; exact Hfly]].
  assert (Hndq : NoDup (JsMap.keys (requestQueue s))).
  { unfold knownIds in Hnd.
    apply NoDup_app_remove_l in Hnd. now apply NoDup_app_remove_l in Hnd. }
  match goal with
  | |- Permutation (knownIds (drain ?s1 ?now)) _ /\ _ =>
      destruct (drain_ids s1 now) as [Hperm Hidle']; auto;
      assert (Hs1 : knownIds s1 = knownIds s)
  end.
  { unfold knownIds.
    cbn [MCPService.settled MCPService.inflight MCPService.requestQueue].
    rewrite Hfly, map_app. cbn [map fst app].
    now rewrite <- app_assoc. }
  split; [|exact Hidle']. now rewrite <- Hs1.
Qed.

Lemma timeoutFires_ids s id :
  idle_ok s -> NoDup (knownIds s) ->
  Permutation (knownIds (timeoutFires s id)) (knownIds s)
  /\ idle_ok (timeoutFires s id).
Proof.
  intros Hidle Hnd. unfold MCPService.timeoutFires.
  destruct (existsb _ _); [|split; [apply Permutation_refl | exact Hidle]].
  unfold JsMap.has.
  destruct (JsMap.get id (requestQueue s)) as [e|] eqn:G;
    [|split; [apply Permutation_refl | exact Hidle]].
  split; [|exact Hidle].
  assert (Hndq : NoDup (JsMap.keys (requestQueue s))).
  { unfold knownIds in Hnd.
    apply NoDup_app_remove_l in Hnd. now apply NoDup_app_remove_l in Hnd. }
  unfold knownIds.
  cbn [MCPService.settled MCPService.inflight MCPService.requestQueue].
  rewrite map_app. cbn [map fst]. rewrite <- app_assoc.
  apply Permutation_app_head. cbn [app].
  eapply perm_trans; [apply Permutation_middle|].
  apply Permutation_app_head.
  apply keys_delete_Permutation with e; [exact Hndq | now apply get_In].
Qed.

Lemma run_ids ts : forall s,
  idle_ok s -> NoDup (knownIds s ++ enqueuedIds ts) ->
  Permutation (knownIds (run s ts)) (knownIds s ++ enqueuedIds ts).
Proof.
  induction ts as [|t ts IH]; intros s Hidle Hnd.
  - cbn. rewrite app_nil_r. apply Permutation_refl.
  - change (run s (t :: ts)) with (run (turn s t) ts).
    assert (Hstep : Permutation (knownIds (turn s t))
                      (knownIds s ++ enqueuedIds [t])
                    /\ idle_ok (turn s t)).
    { assert (Hnds : NoDup (knownIds s))
        by now apply NoDup_app_remove_r in Hnd.
      destruct t as [r p now rnd| |id]; cbn [MCPService.turn enqueuedIds flat_map app].
      - apply enqueue_ids; auto.
        intros Hin. cbn [enqueuedIds flat_map app] in Hnd.
        apply NoDup_remove_2 in Hnd. apply Hnd.
        apply in_or_app. now left.
      - rewrite app_nil_r. now apply complete_ids.
      - rewrite app_nil_r. now apply timeoutFires_ids. }
    destruct Hstep as [Hperm Hidle'].
    assert (Heq : knownIds s ++ enqueuedIds (t :: ts)
                  = (knownIds s ++ enqueuedIds [t]) ++ enqueuedIds ts).
    { rewrite <- app_assoc. f_equal. cbn [enqueuedIds flat_map].
      now rewrite app_nil_r. }
    rewrite Heq in *.
    eapply perm_trans; [apply IH|].
    + exact Hidle'.
    + eapply Permutation_NoDup; [|exact Hnd].
      apply Permutation_app_tail. now apply Permutation_sym.
    + now apply Permutation_app_tail.
Qed.
End IdFacts.

(** X26. No promise is lost, and none is settled twice.  When the ids
    that [enqueue] makes are new (distinct from one another and from
    the ids the service holds), then after any sequence of calls of
    [enqueue], completions and timeouts the ids the service holds -
    settled, in flight or waiting - are exactly those it held and those
    enqueued, each once: every request enqueued is settled, in flight or
    waiting, and no id has two settlements. *)
Theorem X26_every_promise_is_held_exactly_once :
  forall (Data E : Type) (getE : string -> E) (cos : E -> E -> Q)
         (num : Q -> string) (fetch : nat -> MCPService.FetchOutcome)
         (s : MCPService.Service Data E) (ts : list (MCPService.Turn Data)),
    (MCPService.processingQueue _ _ s = false ->
     MCPService.inflight _ _ s = None) ->
    NoDup (knownIds s ++ enqueuedIds ts) ->
    let s' := MCPService.run Data E getE cos num fetch s ts in
    Permutation (knownIds s') (knownIds s ++ enqueuedIds ts)
    /\ NoDup (knownIds s')
    /\ NoDup (map fst (MCPService.settled _ _ s')).
Proof.
  intros Data E getE cos num fetch s ts Hidle Hnd s'.
  pose proof (run_ids Data E getE cos num fetch ts s Hidle Hnd) as Hperm.
  fold s' in Hperm.
  assert (Hnd' : NoDup (knownIds s')).
  { eapply Permutation_NoDup; [|exact Hnd]. now apply Permutation_sym. }
  split; [exact Hperm|]. split; [exact Hnd'|].
  unfold knownIds in Hnd'. now apply NoDup_app_remove_r in Hnd'.
Qed.

Lemma X26_every_promise_witness :
  let s' :=
    Sample.run_slow (Sample.service MCPService.defaultOptions)
      [MCPService.Enqueue Sample.Data (Sample.request "first")
         MCPService.p_normal 0 "a";
       MCPService.Enqueue Sample.Data (Sample.request "second")
         MCPService.p_normal 1 "b";
       MCPService.TimeoutFires Sample.Data "req_1_b";
       MCPService.Complete Sample.Data] in
  Permutation (knownIds s') ["req_0_a"; "req_1_b"]
  /\ Sample.outcomes s'
     = [("req_1_b", "Request timeout"); ("req_0_a", "resolved")].
Proof.
  destruct (X26_every_promise_is_held_exactly_once Sample.Data
              Sample.Embedding Sample.getEmbedding Sample.cosineSimilarity
              Sample.numToString Sample.slow
              (Sample.service MCPService.defaultOptions)
              [MCPService.Enqueue Sample.Data (Sample.request "first")
                 MCPService.p_normal 0 "a";
               MCPService.Enqueue Sample.Data (Sample.request "second")
                 MCPService.p_normal 1 "b";
               MCPService.TimeoutFires Sample.Data "req_1_b";
               MCPService.Complete Sample.Data])
    as (H1 & _).
  - reflexivity.
  - vm_compute. repeat constructor; simpl; intuition discriminate.
  - split; [exact H1 | vm_compute; reflexivity].
Defined.

(** ** The provider that is called *)

Section TraceFacts.
Variable Data : Type.
Variable Embedding : Type.
Variable getEmbedding : string -> Embedding.
Variable cosineSimilarity : Embedding -> Embedding -> Q.
Variable numToString : Q -> string.
Variable fetch : nat -> MCPService.FetchOutcome.

Abbreviation World := (MCPService.World Data Embedding).
Abbreviation AIRequest := (MCPService.AIRequest Data).
Abbreviation trace := (MCPService.trace Data Embedding).
Abbreviation track := (MCPService.track Data Embedding).
Abbreviation lookupExact :=
  (MCPService.lookupExact Data Embedding numToString).
Abbreviation lookupSemantic :=
  (MCPService.lookupSemantic Data Embedding getEmbedding cosineSimilarity).
Abbreviation storeInCaches :=
  (MCPService.storeInCaches Data Embedding getEmbedding numToString).
Abbreviation finishResponse :=
  (MCPService.finishResponse Data Embedding getEmbedding numToString).
Abbreviation callProviderAPI :=
  (MCPService.callProviderAPI Data Embedding fetch).
Abbreviation attempt :=
  (MCPService.attempt Data Embedding getEmbedding cosineSimilarity
     numToString fetch).
Abbreviation executeRequest :=
  (MCPService.executeRequest Data Embedding getEmbedding cosineSimilarity
     numToString fetch).

Variable request : AIRequest.
Implicit Types (w : World) (o : MCPService.MCPOptions).

(** The trace of [w'] is that of [w] followed by effects that are
    calls for the request. *)
Abbreviation grows w w' :=
  (exists new, trace w' = trace w ++ new /\ Forall (calledFor request) new).

Lemma grows_refl w : grows w w.
Proof. exists []. now rewrite app_nil_r. Qed.

Lemma grows_trans w1 w2 w3 : grows w1 w2 -> grows w2 w3 -> grows w1 w3.
Proof.
  intros (n1 & E1 & F1) (n2 & E2 & F2). exists (n1 ++ n2).
  rewrite E2, E1, app_assoc. split; [reflexivity|].
  apply Forall_app. now split.
Qed.

Lemma grows_track a b w : grows w (track a b w).
Proof. exists [MCPService.Track a b]. split; [reflexivity|]. now constructor. Qed.

Lemma grows_same w w' : trace w' = trace w -> grows w w'.
Proof. intros H. exists []. now rewrite app_nil_r. Qed.

Lemma grows_lookupExact o w : grows w (fst (lookupExact o w request)).
Proof.
  unfold MCPService.lookupExact.
  destruct (MCPService.uses_exact _); [|apply grows_refl].
  destruct (AICache.get _ _ _) as [r c]. cbn [fst].
  eapply grows_trans; [|apply grows_track]. now apply grows_same.
Qed.

Lemma grows_lookupSemantic o w cached :
  grows w (fst (fst (lookupSemantic o w request cached))).
Proof.
  unfold MCPService.lookupSemantic.
  destruct cached; [apply grows_refl|].
  destruct (_ && _); [|apply grows_refl].
  destruct (SemanticCache.findSimilar _ _ _ _ _ _ _) as [[res|] c];
    cbn [fst]; (eapply grows_trans; [|apply grows_track]);
    now apply grows_same.
Qed.

Lemma grows_storeInCaches o w r ttl :
  grows w (storeInCaches o w request r ttl).
Proof.
  apply grows_same. unfold MCPService.storeInCaches.
  destruct (MCPService.uses_exact _), (_ && _); reflexivity.
Qed.

Lemma grows_finishResponse o startTime w r :
  grows w (fst (finishResponse o startTime w request r)).
Proof.
  unfold MCPService.finishResponse.
  destruct (MCPService.runParser _ _ _) as [parsed [msg|]];
    destruct (storeResult _) as [[|]|]; cbn [fst];
    repeat (first [ apply grows_refl
                  | apply grows_track
                  | apply grows_storeInCaches
                  | eapply grows_trans; [|apply grows_track]
                  | eapply grows_trans; [|apply grows_storeInCaches] ]).
Qed.

Lemma grows_callProviderAPI w :
  grows w
    (fst (callProviderAPI w request
            (MCPService.getProviderForModel (MCPService.model Data request)))).
Proof.
  exists [MCPService.Track "mcp" "api_call";
          MCPService.ApiCall
            (MCPService.getProviderForModel (MCPService.model Data request))
            (SmartRouter.over (MCPService.model Data request)
               claude_3_7_sonnet_20250219)].
  split.
  - unfold MCPService.callProviderAPI.
    destruct (MCPService.result _); cbn; now rewrite <- app_assoc.
  - constructor; [exact I|]. constructor; [|constructor].
    split; [reflexivity|].
    now destruct (MCPService.model Data request).
Qed.

Lemma grows_attempt o w : grows w (fst (attempt o w request)).
Proof.
  unfold MCPService.attempt.
  pose proof (grows_lookupExact o w) as H1.
  destruct (lookupExact o w request) as [w1 exactHit]. cbn [fst] in H1.
  pose proof (grows_lookupSemantic o w1 exactHit) as H2.
  destruct (lookupSemantic o w1 request exactHit) as [[w2 cached] s].
  cbn [fst] in H2.
  destruct cached as [cached|].
  - cbn [fst]. eapply grows_trans; [|apply grows_track].
    now apply grows_trans with w1.
  - pose proof (grows_callProviderAPI w2) as H3.
    destruct (callProviderAPI w2 request _) as [w3 [err|r]]; cbn [fst] in *.
    + eapply grows_trans; [|exact H3]. now apply grows_trans with w1.
    + pose proof (grows_finishResponse o (MCPService.clock _ _ w) w3 r) as H4.
      destruct (finishResponse o _ w3 request r) as [w4 res].
      cbn [fst] in *.
      eapply grows_trans; [|exact H4].
      eapply grows_trans; [|exact H3]. now apply grows_trans with w1.
Qed.

Lemma grows_sleep d w : grows w (MCPService.sleep Data Embedding d w).
Proof. exists [MCPService.Sleep d]. split; [reflexivity|]. now constructor. Qed.

Lemma grows_executeRequest o w c :
  grows w (fst (executeRequest o w request c)).
Proof.
  funelim (executeRequest o w request c);
    match goal with
    | H : attempt o w request = _ |- _ =>
        pose proof (grows_attempt o w) as Hatt; rewrite H in Hatt;
        cbn [fst] in Hatt
    end.
  - exact Hatt.
  - eapply grows_trans; [exact Hatt|].
    eapply grows_trans;
      [apply (grows_sleep (MCPService.backoff o retryCount))|].
    match goal with IH : exists _, _ |- _ => exact IH end.
  - cbn [fst]. eapply grows_trans; [exact Hatt | apply grows_track].
Qed.
End TraceFacts.

(** X28. Every call of a provider that [executeRequest] makes for a
    request, first attempt or retry, is a call for the model of the
    request - claude-3-7-sonnet-20250219 when it has none - and goes to
    the provider that the router's table gives that model; the
    execution only adds to the record of effects. *)
Theorem X28_the_provider_of_the_model_is_called :
  forall (Data E : Type) (getE : string -> E) (cos : E -> E -> Q)
         (num : Q -> string) (fetch : nat -> MCPService.FetchOutcome)
         (o : MCPService.MCPOptions) (w : MCPService.World Data E)
         (request : MCPService.AIRequest Data) (retryCount : nat),
    let w' :=
      fst (MCPService.executeRequest Data E getE cos num fetch o w request
             retryCount) in
    exists new,
      MCPService.trace _ _ w' = MCPService.trace _ _ w ++ new
      /\ Forall (calledFor request) new
      /\ forall p m, In (MCPService.ApiCall p m) new ->
           m = SmartRouter.over (MCPService.model Data request)
                 claude_3_7_sonnet_20250219
           /\ p = SmartRouter.provider (SmartRouter.modelsMetadata m).
Proof.
  intros Data E getE cos num fetch o w request retryCount w'.
  destruct (grows_executeRequest Data E getE cos num fetch request o w
              retryCount) as (new & Hnew & Hall).
  exists new. split; [exact Hnew|]. split; [exact Hall|].
  intros p m Hin. rewrite Forall_forall in Hall.
  exact (Hall _ Hin).
Qed.

(** ** The retry loop, for every [maxRetries] *)

Section RetryFacts.
Variable Data : Type.
Variable Embedding : Type.
Variable getEmbedding : string -> Embedding.
Variable cosineSimilarity : Embedding -> Embedding -> Q.
Variable numToString : Q -> string.
Variable fetch : nat -> MCPService.FetchOutcome.

Abbreviation World := (MCPService.World Data Embedding).
Abbreviation AIRequest := (MCPService.AIRequest Data).
Abbreviation trace := (MCPService.trace Data Embedding).
Abbreviation calls := (MCPService.calls Data Embedding).
Abbreviation track := (MCPService.track Data Embedding).
Abbreviation sleep := (MCPService.sleep Data Embedding).
Abbreviation callProviderAPI :=
  (MCPService.callProviderAPI Data Embedding fetch).
Abbreviation attempt :=
  (MCPService.attempt Data Embedding getEmbedding cosineSimilarity
     numToString fetch).
Abbreviation executeRequest :=
  (MCPService.executeRequest Data Embedding getEmbedding cosineSimilarity
     numToString fetch).
Abbreviation executeRequest_Infinity :=
  (MCPService.executeRequest_Infinity Data Embedding getEmbedding
     cosineSimilarity numToString fetch).
Abbreviation unanswered :=
  (unanswered getEmbedding cosineSimilarity numToString).
Abbreviation limit o := (MCPService.countsBelow (MCPService.maxRetries o)).

Implicit Types (w : World) (request : AIRequest) (o : MCPService.MCPOptions).

(** The error of [callProviderAPI] is the failure of the call it makes,
    the one numbered [calls w]. *)
Lemma callProviderAPI_message w request p w1 err :
  callProviderAPI w request p = (w1, inl err) ->
  failureMessage (MCPService.result (fetch (calls w))) = Some err.
Proof.
  unfold MCPService.callProviderAPI.
  change (calls (track "mcp" "api_call" w)) with (calls w).
  destruct (MCPService.result (fetch (calls w))) as [msg|st msg|txt a b c];
    cbn [failureMessage]; intros H; injection H as _ H;
    congruence.
Qed.

(** An attempt that throws has called the provider, and throws the
    error of that call. *)
Lemma attempt_throws o w request w1 err :
  attempt o w request = (w1, inr err) ->
  failureMessage (MCPService.result (fetch (calls w))) = Some err
  /\ calls w1 = S (calls w)
  /\ apiCalls (trace w1) = S (apiCalls (trace w))
  /\ sleeps (trace w1) = sleeps (trace w).
Proof.
  unfold MCPService.attempt.
  pose proof (quiet_lookupExact Data Embedding numToString o w request) as H1.
  destruct (MCPService.lookupExact _ _ _ o w request) as [wa exactHit].
  cbn [fst] in H1.
  pose proof (quiet_lookupSemantic Data Embedding getEmbedding
                cosineSimilarity o wa request exactHit) as H2.
  destruct (MCPService.lookupSemantic _ _ _ _ o wa request exactHit)
    as [[wb cached] s].
  cbn [fst] in H2.
  destruct (quiet_trans _ _ _ _ _ H1 H2) as (A & B & C).
  destruct cached as [r|]; [discriminate|].
  pose proof (callProviderAPI_effects Data Embedding fetch wb request
                (MCPService.getProviderForModel
                   (MCPService.model Data request))) as (A' & B' & C').
  destruct (callProviderAPI wb request _) as [wc [e|r]] eqn:Hcall.
  - intros H. injection H as <- <-.
    apply callProviderAPI_message in Hcall.
    cbv zeta in *. cbn [fst] in *.
    rewrite C in Hcall. repeat split; congruence.
  - destruct (MCPService.finishResponse _ _ _ _ _ _ _ _ _). discriminate.
Qed.

(** What [executeRequest] returns: the response of its last attempt,
    or, when that attempt threw and [retryCount < maxRetries] has
    become false, the error response made of the error it threw - the
    error of the last call of the provider. *)
Lemma executeRequest_outcome o w request c :
  let out := executeRequest o w request c in
  (exists w0, attempt o w0 request = (fst out, inl (snd out)))
  \/ (exists w0 w1 err,
        attempt o w0 request = (w1, inr err)
        /\ out = (track "error" "request_failed" w1,
                  MCPService.errorResponse Data err)
        /\ failureMessage
             (MCPService.result (fetch (pred (calls (fst out))))) = Some err).
Proof.
  funelim (executeRequest o w request c); cbv zeta.
  - left. exists w. cbn [fst snd].
    match goal with
    | H : attempt o w request = _ |- _ => exact H
    end.
  - assumption.
  - right.
    match goal with
    | H : attempt o w request = _ |- _ =>
        destruct (attempt_throws _ _ _ _ _ H) as (Hm & Hc & _);
        exists w, w1, err; split; [exact H|]
    end.
    split; [reflexivity|]. cbn [fst].
    change (calls (track "error" "request_failed" w1)) with (calls w1).
    rewrite Hc. exact Hm.
Qed.

(** When every call fails and the caches cannot answer, every attempt
    throws: the loop runs until [retryCount < maxRetries] is false. *)
Lemma executeRequest_exhausts o w request c :
  all_fail fetch -> unanswered o request w -> (c <= limit o)%nat ->
  let out := executeRequest o w request c in
  calls (fst out) = (calls w + S (limit o - c))%nat
  /\ apiCalls (trace (fst out)) = (apiCalls (trace w) + S (limit o - c))%nat
  /\ sleeps (trace (fst out))
     = sleeps (trace w) ++ map (MCPService.backoff o) (seq c (limit o - c))
  /\ exists err,
       failureMessage
         (MCPService.result (fetch (calls w + (limit o - c))%nat)) = Some err
       /\ snd out = MCPService.errorResponse Data err.
Proof.
  funelim (executeRequest o w request c); intros Hfail Hmiss Hle; cbv zeta;
    retry_test;
    match goal with
    | H : attempt o w request = _ |- _ =>
        destruct (unanswered_attempt_fails Data Embedding getEmbedding
                    cosineSimilarity numToString fetch o w request Hfail Hmiss)
          as (w1' & err' & Hatt & Hmiss1 & _);
        rewrite H in Hatt;
        try discriminate; injection Hatt as <- <-;
        destruct (attempt_throws _ _ _ _ _ H) as (Hm & Hc & Ha & Hs)
    end.
  - (* retried *)
    match goal with
    | IH : all_fail fetch -> _ |- _ =>
        destruct (IH Hfail
                    (unanswered_sleep Data Embedding getEmbedding
                       cosineSimilarity numToString _ _ _ _ Hmiss1)
                    ltac:(lia))
          as (HC & HA & HS & err2 & Hm2 & Hr2)
    end.
    destruct (sleep_effects Data Embedding (MCPService.backoff o retryCount) w1)
      as (As & Bs & Cs). cbv zeta in As, Bs, Cs.
    rewrite HC, HA, HS, As, Bs, Cs, Hc, Ha, Hs.
    rewrite Cs, Hc in Hm2.
    replace (limit o - retryCount)%nat
      with (S (limit o - S retryCount))%nat by lia.
    split; [lia|]. split; [lia|].
    split; [cbn [seq map]; now rewrite <- app_assoc|].
    exists err2. split; [|exact Hr2].
    replace (calls w + S (limit o - S retryCount))%nat
      with (S (calls w) + (limit o - S retryCount))%nat by lia.
    exact Hm2.
  - (* exhausted *)
    cbn [fst snd].
    destruct (quiet_track Data Embedding "error" "request_failed" w1)
      as (A' & B2 & C').
    rewrite A', B2, C', Hc, Ha, Hs.
    replace (limit o - retryCount)%nat with 0%nat by lia.
    cbn [seq map]. rewrite app_nil_r, Nat.add_0_r.
    split; [lia|]. split; [lia|]. split; [reflexivity|].
    exists err. split; [exact Hm | reflexivity].
Qed.

(** Under [maxRetries = Infinity] the same holds of every retry: when
    every call fails and the caches cannot answer, [executeRequest]
    never returns. *)
Lemma executeRequest_Infinity_never o request :
  all_fail fetch ->
  forall fuel w c,
    unanswered o request w ->
    executeRequest_Infinity fuel o w request c = None.
Proof.
  intros Hfail fuel. induction fuel as [|fuel IH]; intros w c Hmiss;
    cbn [MCPService.executeRequest_Infinity];
    destruct (unanswered_attempt_fails Data Embedding getEmbedding
                cosineSimilarity numToString fetch o w request Hfail Hmiss)
      as (w1 & err & -> & Hmiss1 & _).
  - reflexivity.
  - apply IH.
    now apply (unanswered_sleep Data Embedding getEmbedding cosineSimilarity
                 numToString).
Qed.

(** The two loops are one: what the unbounded loop returns within the
    retries that [maxRetries] allows is what [executeRequest]
    returns. *)
Lemma executeRequest_Infinity_agrees o request :
  forall fuel w c out,
    executeRequest_Infinity fuel o w request c = Some out ->
    (c + fuel <= limit o)%nat ->
    executeRequest o w request c = out.
Proof.
  induction fuel as [|fuel IH]; intros w c out;
    cbn [MCPService.executeRequest_Infinity];
    destruct (attempt o w request) as [w1 [r|err]] eqn:Hatt;
    intros H Hle; try discriminate.
  - injection H as <-.
    now apply (executeRequest_answered Data Embedding getEmbedding
                 cosineSimilarity numToString fetch).
  - injection H as <-.
    now apply (executeRequest_answered Data Embedding getEmbedding
                 cosineSimilarity numToString fetch).
  - rewrite (executeRequest_retries Data Embedding getEmbedding
               cosineSimilarity numToString fetch o w request c w1 err Hatt)
      by lia.
    apply IH; [exact H | lia].
Qed.

(** What the unbounded loop has done when it returns. *)
Lemma executeRequest_Infinity_effects o request :
  forall fuel w c w' r,
    executeRequest_Infinity fuel o w request c = Some (w', r) ->
    exists k,
      (k <= fuel)%nat
      /\ sleeps (trace w')
         = sleeps (trace w) ++ map (MCPService.backoff o) (seq c k)
      /\ (apiCalls (trace w') <= apiCalls (trace w) + k + 1)%nat
      /\ (apiCalls (trace w) + k <= apiCalls (trace w'))%nat.
Proof.
  induction fuel as [|fuel IH]; intros w c w' r;
    cbn [MCPService.executeRequest_Infinity];
    pose proof (attempt_effects Data Embedding getEmbedding cosineSimilarity
                  numToString fetch o w request) as (A & B & B' & _);
    destruct (attempt o w request) as [w1 [r1|err]] eqn:Hatt;
    cbv zeta in A, B, B'; cbn [fst] in A, B, B';
    intros H; try discriminate.
  - injection H as <- <-. exists 0%nat. cbn [seq map].
    rewrite app_nil_r. repeat split; try lia; auto.
  - injection H as <- <-. exists 0%nat. cbn [seq map].
    rewrite app_nil_r. repeat split; try lia; auto.
  - destruct (IH _ _ _ _ H) as (k & Hk & HS & HA & HA').
    destruct (sleep_effects Data Embedding (MCPService.backoff o c) w1)
      as (As & Bs & _). cbv zeta in As, Bs.
    destruct (attempt_throws _ _ _ _ _ Hatt) as (_ & _ & Ha & _).
    exists (S k). rewrite HS, As, A, <- app_assoc. cbn [seq map app].
    rewrite Bs in HA, HA'. repeat split; try lia; auto.
Qed.
End RetryFacts.

(** Every retry follows an attempt that has called the provider. *)
Lemma executeRequest_retried :
  forall (Data E : Type) (getE : string -> E) (cos : E -> E -> Q)
         (num : Q -> string) (fetch : nat -> MCPService.FetchOutcome)
         (o : MCPService.MCPOptions) (w : MCPService.World Data E)
         (request : MCPService.AIRequest Data) (c : nat),
    let trace := MCPService.trace Data E in
    let w' :=
      fst (MCPService.executeRequest Data E getE cos num fetch o w request c)
    in
    exists k,
      (c + k
       <= Nat.max c (MCPService.countsBelow (MCPService.maxRetries o)))%nat
      /\ sleeps (trace w')
         = sleeps (trace w) ++ map (MCPService.backoff o) (seq c k)
      /\ (apiCalls (trace w') <= apiCalls (trace w) + k + 1)%nat
      /\ (apiCalls (trace w) + k <= apiCalls (trace w'))%nat
      /\ (MCPService.calls _ _ w' + apiCalls (trace w)
          = MCPService.calls _ _ w + apiCalls (trace w'))%nat.
Proof.
  intros Data E getE cos num fetch o w request c. cbv zeta.
  funelim (MCPService.executeRequest Data E getE cos num fetch o w request c);
    cbn [fst];
    pose proof (attempt_effects Data E getE cos num fetch o w request)
      as (A & B & B' & C);
    match goal with
    | H : MCPService.attempt _ _ _ _ _ _ o w request = _ |- _ =>
        pose proof H as Hatt; rewrite H in A, B, B', C
    end;
    cbn [fst] in *.
  - exists 0%nat. simpl. rewrite app_nil_r. repeat split; try lia; auto.
  - pose proof (sleep_effects Data E (MCPService.backoff o retryCount) w1)
      as (As & Bs & Cs). cbv zeta in *.
    destruct (attempt_throws Data E getE cos num fetch o w request w1 err
                Hatt) as (_ & _ & Ha & _).
    match goal with
    | IH : exists _, _ |- _ => destruct IH as (k & Hk & HA & HB & HB' & HC)
    end.
    exists (S k). rewrite HA, As, A, <- app_assoc. simpl. retry_test.
    repeat split; try lia; auto.
  - destruct (quiet_track Data E "error" "request_failed" w1)
      as (A' & B2 & C').
    exists 0%nat. rewrite A', B2, C'. simpl. rewrite app_nil_r.
    repeat split; try lia; auto.
Qed.

(** A [maxRetries] that is not negative is rounded up by the test: the
    retries never fall short of it, and exceed it by less than one. *)
Lemma countsBelow_rounds_up q :
  (0 <= q)%Q ->
  let n := inject_Z (Z.of_nat (MCPService.countsBelow (MCPService.Num q))) in
  (q <= n)%Q /\ (n < q + 1)%Q.
Proof.
  intros Hq. cbn.
  assert (H0 : 0 <= Qceiling q).
  { change 0 with (Qceiling (inject_Z 0)) at 1.
    rewrite Qceiling_Z. change 0 with (Qceiling 0%Q).
    now apply Qceiling_resp_le. }
  rewrite Z2Nat.id by exact H0. split; [apply Qle_ceiling|].
  pose proof (Qceiling_lt q) as H.
  unfold Z.sub in H. rewrite inject_Z_plus in H.
  apply (Qplus_lt_l _ _ (inject_Z (-1))).
  setoid_replace (q + 1 + inject_Z (-1))%Q with q by (cbn; ring).
  exact H.
Qed.

(** C1, as the code has it.  [executeRequest] returns for every request
    when [maxRetries] is a number other than [Infinity] (the recursion
    is well founded: each retry raises [retryCount], and the counts
    below [maxRetries] are finitely many).  It retries while
    [retryCount < maxRetries]: at most as many times as there are
    counts 0, 1, 2, ... below [maxRetries], each time after a call of
    the provider, and with at most one call more than it retries; the
    delay it sleeps before the attempt numbered [retryCount + 1] is
    [retryDelay * 2 ^ retryCount].  The
    number of counts below [maxRetries] is [maxRetries] itself when it
    is a natural number (3 by default); it is [maxRetries] rounded up
    when it is another number that is not negative, and 0 when it is
    negative or [NaN].  Under [maxRetries = Infinity] the delays are the
    same, the calls are one more than the retries at most, and a request
    whose calls all fail and that the caches cannot answer is retried
    for ever: [executeRequest] never returns. *)
Theorem C1_retry_bound_and_backoff :
  forall (Data E : Type) (getE : string -> E) (cos : E -> E -> Q)
         (num : Q -> string) (fetch : nat -> MCPService.FetchOutcome)
         (o : MCPService.MCPOptions) (w : MCPService.World Data E)
         (request : MCPService.AIRequest Data),
    let trace := MCPService.trace Data E in
    let calls := MCPService.calls Data E in
    let allowed := MCPService.countsBelow (MCPService.maxRetries o) in
    let delays retries :=
      map (fun retryCount =>
             MCPService.retryDelay o * 2 ^ Z.of_nat retryCount)
        (seq 0 retries) in
    (exists w' r retries,
       MCPService.executeRequest Data E getE cos num fetch o w request 0%nat
       = (w', r)
       /\ (retries <= allowed)%nat
       /\ sleeps (trace w') = sleeps (trace w) ++ delays retries
       /\ (apiCalls (trace w') <= apiCalls (trace w) + 1 + retries)%nat
       /\ (apiCalls (trace w) + retries <= apiCalls (trace w'))%nat
       /\ (apiCalls (trace w') <= apiCalls (trace w) + 1 + allowed)%nat
       /\ (calls w' + apiCalls (trace w)
           = calls w + apiCalls (trace w'))%nat)
    /\ (forall n,
          (n < allowed)%nat
          <-> MCPService.below n (MCPService.maxRetries o) = true)
    /\ (forall m : nat,
          MCPService.maxRetries o = MCPService.Num (inject_Z (Z.of_nat m)) ->
          allowed = m)
    /\ (forall q,
          MCPService.maxRetries o = MCPService.Num q ->
          ((0 <= q)%Q ->
           (q <= inject_Z (Z.of_nat allowed))%Q
           /\ (inject_Z (Z.of_nat allowed) < q + 1)%Q)
          /\ ((q <= 0)%Q -> allowed = 0%nat))
    /\ (MCPService.maxRetries o = MCPService.NaN
        \/ MCPService.maxRetries o = MCPService.NegInfinity ->
        allowed = 0%nat)
    /\ MCPService.maxRetries MCPService.defaultOptions = MCPService.Num 3
    /\ (forall fuel w' r,
          MCPService.executeRequest_Infinity Data E getE cos num fetch fuel
            o w request 0%nat = Some (w', r) ->
          exists retries,
            (retries <= fuel)%nat
            /\ sleeps (trace w') = sleeps (trace w) ++ delays retries
            /\ (apiCalls (trace w') <= apiCalls (trace w) + 1 + retries)%nat
            /\ (apiCalls (trace w) + retries <= apiCalls (trace w'))%nat)
    /\ (all_fail fetch -> unanswered getE cos num o request w ->
        forall fuel,
          MCPService.executeRequest_Infinity Data E getE cos num fetch fuel
            o w request 0%nat = None).
Proof.
  intros Data E getE cos num fetch o w request trace calls allowed delays.
  subst trace calls allowed delays.
  split; [|split; [|split; [|split; [|split; [|split; [|split]]]]]].
  - destruct (executeRequest_retried Data E getE cos num fetch o w request 0)
      as (k & Hk & HA & HB & HB' & HC).
    destruct (MCPService.executeRequest Data E getE cos num fetch o w
                request 0) as [w' r].
    cbn [fst] in *. rewrite Nat.max_0_l in Hk.
    exists w', r, k. repeat split; try assumption; try lia.
  - intros n. symmetry. apply below_countsBelow.
  - intros m ->. apply countsBelow_nat.
  - intros q ->. split.
    + intros Hq. now apply countsBelow_rounds_up.
    + intros Hq. cbn.
      assert (H : Qceiling q <= 0).
      { change 0 with (Qceiling 0%Q). now apply Qceiling_resp_le. }
      lia.
  - intros [-> | ->]; reflexivity.
  - reflexivity.
  - intros fuel w' r H.
    destruct (executeRequest_Infinity_effects Data E getE cos num fetch o
                request fuel w 0%nat w' r H) as (k & Hk & HS & HA & HA').
    exists k. repeat split; try assumption; lia.
  - intros Hfail Hmiss fuel.
    now apply executeRequest_Infinity_never.
Qed.

(** Every call answers 401.  With [maxRetries = 1.5] the provider is
    called three times, which is more than 1 + 1.5; with
    [maxRetries = -1] it is called once, which is more than 1 + (-1). *)
Lemma C1_counterexample_maxRetries_not_natural :
  let run x :=
    fst (Sample.executeRequest (Sample.retrying (MCPService.Num x))
           Sample.world0 (Sample.request "draw a cube") 0%nat) in
  apiCalls (MCPService.trace _ _ (run 1.5%Q)) = 3%nat
  /\ sleeps (MCPService.trace _ _ (run 1.5%Q)) = [1000; 2000]
  /\ ~ (inject_Z (Z.of_nat 3) <= 1 + 1.5)%Q
  /\ apiCalls (MCPService.trace _ _ (run (-1)%Q)) = 1%nat
  /\ ~ (inject_Z (Z.of_nat 1) <= 1 + -1)%Q.
Proof.
  cbv zeta. split; [vm_compute; reflexivity|].
  split; [vm_compute; reflexivity|].
  split; [intros H; vm_compute in H; now apply H|].
  split; [vm_compute; reflexivity|].
  intros H; vm_compute in H; now apply H.
Qed.

(** C5, as the code has it.  [executeRequest] retries after every error
    of the provider call, whatever the error: when every call fails
    (with a 4xx status as with any other failure) and the caches cannot
    answer the request, it retries as long as
    [retryCount < maxRetries].  For a [maxRetries] other than
    [Infinity] the provider is called exactly once more than there are
    counts below [maxRetries] - [1 + maxRetries] times when [maxRetries]
    is a natural number -, with the delays [retryDelay * 2 ^ retryCount]
    in between, and the response returned has [success = false] and as
    its error the message of the last of these calls.  Under
    [maxRetries = Infinity] the request is retried for ever. *)
Theorem C5_every_failure_is_retried :
  forall (Data E : Type) (getE : string -> E) (cos : E -> E -> Q)
         (num : Q -> string) (fetch : nat -> MCPService.FetchOutcome)
         (o : MCPService.MCPOptions) (w : MCPService.World Data E)
         (request : MCPService.AIRequest Data),
    all_fail fetch -> unanswered getE cos num o request w ->
    let allowed := MCPService.countsBelow (MCPService.maxRetries o) in
    let out :=
      MCPService.executeRequest Data E getE cos num fetch o w request 0%nat in
    let r := MCPService.response Data (snd out) in
    let last := (MCPService.calls _ _ w + allowed)%nat in
    apiCalls (MCPService.trace _ _ (fst out))
    = (apiCalls (MCPService.trace _ _ w) + 1 + allowed)%nat
    /\ MCPService.calls _ _ (fst out)
       = (MCPService.calls _ _ w + 1 + allowed)%nat
    /\ sleeps (MCPService.trace _ _ (fst out))
       = sleeps (MCPService.trace _ _ w)
         ++ map (fun retryCount =>
                   MCPService.retryDelay o * 2 ^ Z.of_nat retryCount)
              (seq 0 allowed)
    /\ MCPService.cacheHit Data (snd out) = false
    /\ MCPService.success Data r = false
    /\ MCPService.error Data r
       = failureMessage (MCPService.result (fetch last))
    /\ (exists err, MCPService.error Data r = Some err)
    /\ (forall n,
          (n < allowed)%nat
          <-> MCPService.below n (MCPService.maxRetries o) = true)
    /\ (forall m : nat,
          MCPService.maxRetries o = MCPService.Num (inject_Z (Z.of_nat m)) ->
          allowed = m)
    /\ (forall fuel,
          MCPService.executeRequest_Infinity Data E getE cos num fetch fuel
            o w request 0%nat = None).
Proof.
  intros Data E getE cos num fetch o w request Hfail Hmiss allowed out r last.
  destruct (executeRequest_exhausts Data E getE cos num fetch o w request 0
              Hfail Hmiss ltac:(lia)) as (HC & HA & HS & err & Hm & Hr).
  fold out in HC, HA, HS, Hr. rewrite Nat.sub_0_r in HC, HA, HS, Hm.
  fold allowed in HC, HA, HS, Hm. fold last in Hm.
  unfold r. rewrite Hr, Hm. cbn.
  split; [rewrite HA; lia|]. split; [rewrite HC; lia|].
  split; [exact HS|]. repeat (split; [reflexivity|]).
  split; [eauto|]. split; [intros n; symmetry; apply below_countsBelow|].
  split; [intros m Hm'; subst allowed; rewrite Hm'; apply countsBelow_nat|].
  intros fuel. now apply executeRequest_Infinity_never.
Qed.

(** The call numbered [n] fails with the message [failure n]; with the
    default options the provider is called four times, and the error
    returned is the one of the fourth call. *)
Lemma C5_every_failure_witness :
  let out :=
    MCPService.executeRequest Sample.Data Sample.Embedding
      Sample.getEmbedding Sample.cosineSimilarity Sample.numToString
      Sample.numbered MCPService.defaultOptions Sample.world0
      (Sample.request "draw a cube") 0%nat in
  apiCalls (MCPService.trace _ _ (fst out)) = 4%nat
  /\ sleeps (MCPService.trace _ _ (fst out)) = [1000; 2000; 4000]
  /\ MCPService.success _ (MCPService.response _ (snd out)) = false
  /\ MCPService.error _ (MCPService.response _ (snd out)) = Some "failure 3".
Proof.
  destruct (C5_every_failure_is_retried Sample.Data Sample.Embedding
              Sample.getEmbedding Sample.cosineSimilarity Sample.numToString
              Sample.numbered MCPService.defaultOptions Sample.world0
              (Sample.request "draw a cube"))
    as (Hcalls & _ & Hsleeps & _ & Hsuccess & Herror & _).
  - intros n. reflexivity.
  - split; [reflexivity | intros k e []].
  - split; [exact Hcalls|]. split; [exact Hsleeps|].
    split; [exact Hsuccess | exact Herror].
Defined.

(** A request that the API proxy answers with 401 on every call: the
    provider is called four times, with sleeps of 1, 2 and 4 seconds. *)
Lemma C5_counterexample_401_retried :
  let out :=
    Sample.executeRequest MCPService.defaultOptions Sample.world0
      (Sample.request "draw a cube") 0%nat in
  (forall n, MCPService.result (Sample.unauthorized n)
             = MCPService.HttpError 401 (Some "Unauthorized"))
  /\ MCPService.calls _ _ (fst out) = 4%nat
  /\ apiCalls (MCPService.trace _ _ (fst out)) = 4%nat
  /\ sleeps (MCPService.trace _ _ (fst out)) = [1000; 2000; 4000]
  /\ MCPService.error _ (MCPService.response _ (snd out))
     = Some "Unauthorized".
Proof. split; [reflexivity|]. vm_compute. repeat split. Qed.

(** ** Every promise is settled for its own request *)

Lemma NoDup_keys_functional {A B} (l : list (A * B)) :
  NoDup (map fst l) ->
  forall k v v', In (k, v) l -> In (k, v') l -> v = v'.
Proof.
  induction l as [|[k0 v0] l IH]; cbn [map fst]; intros Hnd k v v' H H';
    [destruct H|].
  inversion Hnd as [|? ? Hnotin Hnd']; subst.
  destruct H as [H|H], H' as [H'|H'].
  - congruence.
  - injection H as <- <-. exfalso. apply Hnotin.
    change k0 with (fst (k0, v')). now apply in_map.
  - injection H' as <- <-. exfalso. apply Hnotin.
    change k0 with (fst (k0, v)). now apply in_map.
  - eapply IH; eassumption.
Qed.

Lemma enqueuedRequests_ids {Data} o (ts : list (MCPService.Turn Data)) :
  map fst (enqueuedRequests o ts) = enqueuedIds ts.
Proof.
  unfold enqueuedRequests, enqueuedIds.
  induction ts as [|[r p now rnd| |id] ts IH]; cbn [flat_map app map fst];
    [reflexivity | f_equal; exact IH | exact IH | exact IH].
Qed.

Lemma enqueuedRequests_app {Data} o (ts ts' : list (MCPService.Turn Data)) :
  enqueuedRequests o (ts ++ ts')
  = enqueuedRequests o ts ++ enqueuedRequests o ts'.
Proof. unfold enqueuedRequests. apply flat_map_app. Qed.

Section OwnFacts.
Variable Data : Type.
Variable Embedding : Type.
Variable getEmbedding : string -> Embedding.
Variable cosineSimilarity : Embedding -> Embedding -> Q.
Variable numToString : Q -> string.
Variable fetch : nat -> MCPService.FetchOutcome.

Abbreviation Service := (MCPService.Service Data Embedding).
Abbreviation AIRequest := (MCPService.AIRequest Data).
Abbreviation requestQueue := (MCPService.requestQueue Data Embedding).
Abbreviation inflight := (MCPService.inflight Data Embedding).
Abbreviation settled := (MCPService.settled Data Embedding).
Abbreviation options := (MCPService.options Data Embedding).
Abbreviation world := (MCPService.world Data Embedding).
Abbreviation executeRequest :=
  (MCPService.executeRequest Data Embedding getEmbedding cosineSimilarity
     numToString fetch).
Abbreviation drain :=
  (MCPService.drain Data Embedding getEmbedding cosineSimilarity numToString
     fetch).
Abbreviation enqueue :=
  (MCPService.enqueue Data Embedding getEmbedding cosineSimilarity numToString
     fetch).
Abbreviation complete :=
  (MCPService.complete Data Embedding getEmbedding cosineSimilarity numToString
     fetch).
Abbreviation timeoutFires := (MCPService.timeoutFires Data Embedding).
Abbreviation turn :=
  (MCPService.turn Data Embedding getEmbedding cosineSimilarity numToString
     fetch).
Abbreviation run :=
  (MCPService.run Data Embedding getEmbedding cosineSimilarity numToString
     fetch).
Abbreviation settles :=
  (settles (E := Embedding) getEmbedding cosineSimilarity numToString fetch).
Abbreviation serves :=
  (serves getEmbedding cosineSimilarity numToString fetch).

Implicit Types (s : Service) (requests : list (string * AIRequest)).

(** The request that [getNextRequest] returns was in the queue under
    the id it is returned with, and the queue it leaves holds nothing
    new. *)
Lemma getNextRequest_from (q : JsMap.t (MCPService.QueueEntry Data)) :
  let (next, q') := MCPService.getNextRequest Data q in
  (forall id e, In (id, e) q' -> In (id, e) q)
  /\ match next with
     | Some (id, e) => In (id, e) q
     | None => True
     end.
Proof.
  unfold MCPService.getNextRequest.
  destruct (MCPService.selectedRequestId _) as [id|]; [|now split].
  destruct (truthy (Some id)); [|now split].
  split.
  - intros id' e H. apply In_delete in H. tauto.
  - destruct (JsMap.get id q) as [e|] eqn:G; cbn [option_map]; [|exact I].
    now apply get_In.
Qed.

(** What [drain] dispatches: a request of the queue, executed at the
    time of the dispatch; the request in flight is then that request,
    with the response of [executeRequest] to it. *)
Lemma drain_dispatches s now :
  settled (drain s now) = settled s
  /\ options (drain s now) = options s
  /\ (forall id e, In (id, e) (requestQueue (drain s now)) ->
        In (id, e) (requestQueue s))
  /\ match inflight (drain s now) with
     | Some (id, r) =>
         exists e,
           In (id, e) (requestQueue s)
           /\ r = snd (executeRequest (options s)
                         (MCPService.at_time Data Embedding now (world s))
                         (MCPService.request Data e) 0%nat)
     | None => True
     end.
Proof.
  unfold MCPService.drain.
  destruct (0 <? JsMap.size (requestQueue s)); [|cbn; auto].
  pose proof (getNextRequest_from (requestQueue s)) as Hnext.
  destruct (MCPService.getNextRequest Data (requestQueue s))
    as [[[id e]|] q']; destruct Hnext as [Hsub Hin]; [|cbn; auto].
  destruct (MCPService.executeRequest _ _ _ _ _ _ _ _ _ _) as [w r] eqn:Hexec.
  cbn [MCPService.settled MCPService.options MCPService.requestQueue
       MCPService.inflight].
  repeat split; [exact Hsub|].
  exists e. split; [exact Hin|]. now rewrite Hexec.
Qed.

Lemma settles_more o requests requests' id st :
  (forall x, In x requests -> In x requests') ->
  settles o requests id st -> settles o requests' id st.
Proof.
  intros Hsub. destruct st as [r|m]; cbn.
  - intros (request & Hin & Hr). exists request. auto.
  - intros [-> Hin]. split; [reflexivity|].
    apply in_map_iff in Hin. destruct Hin as ([k v] & <- & Hin).
    apply in_map_iff. exists (k, v). auto.
Qed.

Lemma serves_more requests requests' s :
  (forall x, In x requests -> In x requests') ->
  serves requests s -> serves requests' s.
Proof.
  intros Hsub (Hq & Hf & Hs). split; [|split].
  - intros id e H. auto.
  - destruct (inflight s) as [[id r]|]; [|exact I].
    eapply settles_more; eassumption.
  - intros id st H. eapply settles_more; eauto.
Qed.

Lemma drain_serves requests s now :
  serves requests s -> serves requests (drain s now).
Proof.
  intros (Hq & _ & Hs).
  destruct (drain_dispatches s now) as (H1 & H2 & H3 & H4).
  split; [|split].
  - intros id e H. auto.
  - destruct (inflight (drain s now)) as [[id r]|]; [|exact I].
    destruct H4 as (e & Hin & ->). rewrite H2. cbn.
    exists (MCPService.request Data e). split; [now apply Hq|].
    now eexists.
  - rewrite H1, H2. exact Hs.
Qed.

Lemma enqueue_serves requests s r p now rnd :
  serves requests s ->
  serves (requests ++ [(MCPService.requestId now rnd, queued (options s) r)])
    (enqueue s r p now rnd).
Proof.
  intros Hserves.
  apply (serves_more requests
           (requests ++ [(MCPService.requestId now rnd, queued (options s) r)]))
    in Hserves; [|intros x Hx; apply in_or_app; now left].
  unfold MCPService.enqueue.
  set (id := MCPService.requestId now rnd) in *.
  assert (Hrouted :
            fst (match MCPService.smartRoutingEnabled (options s),
                       MCPService.model Data r with
                 | true, None =>
                     (MCPService.with_model Data r
                        (MCPService.selectOptimalModel Data (options s) r),
                      MCPService.track Data Embedding "mcp" "smart_routing"
                        (MCPService.track Data Embedding "request"
                           "mcp_request" (world s)))
                 | _, _ =>
                     (r, MCPService.track Data Embedding "request"
                           "mcp_request" (world s))
                 end) = queued (options s) r).
  { unfold queued.
    destruct (MCPService.smartRoutingEnabled _), (MCPService.model Data r);
      reflexivity. }
  destruct (match MCPService.smartRoutingEnabled _, MCPService.model Data r with
            | true, None => _
            | _, _ => _
            end) as [r1 w2].
  cbn [fst] in Hrouted. subst r1.
  match goal with
  | |- serves ?l (if MCPService.processingQueue _ _ ?s1 then _ else _) =>
      assert (H1 : serves l s1)
  end.
  { destruct Hserves as (Hq & Hf & Hs). split; [|split].
    - cbn [MCPService.requestQueue]. intros id' e H.
      apply In_set in H. destruct H as [[-> ->]|H]; [|auto].
      apply in_or_app. right. now left.
    - exact Hf.
    - exact Hs. }
  cbn [MCPService.processingQueue].
  destruct (MCPService.processingQueue _ _ s); [exact H1|].
  now apply drain_serves.
Qed.

Lemma complete_serves requests s :
  serves requests s -> serves requests (complete s).
Proof.
  intros Hserves. unfold MCPService.complete.
  pose proof Hserves as (Hq & Hf & Hs).
  destruct (inflight s) as [[id r]|] eqn:Hfly; [|exact Hserves].
  apply drain_serves. split; [|split].
  - exact Hq.
  - exact I.
  - cbn [MCPService.settled MCPService.options]. intros id' st H.
    apply in_app_or in H. destruct H as [H|[H|[]]]; [auto|].
    injection H as <- <-. exact Hf.
Qed.

Lemma timeoutFires_serves requests s id :
  serves requests s -> serves requests (timeoutFires s id).
Proof.
  intros Hserves. unfold MCPService.timeoutFires.
  pose proof Hserves as (Hq & Hf & Hs).
  destruct (existsb _ _); [|exact Hserves].
  unfold JsMap.has.
  destruct (JsMap.get id (requestQueue s)) as [e|] eqn:G.
  - split; [|split].
    + cbn [MCPService.requestQueue]. intros id' e' H.
      apply In_delete in H. apply Hq. tauto.
    + exact Hf.
    + cbn [MCPService.settled MCPService.options]. intros id' st H.
      apply in_app_or in H. destruct H as [H|[H|[]]]; [auto|].
      injection H as <- <-. split; [reflexivity|].
      apply get_In in G. apply Hq in G.
      change id with (fst (id, MCPService.request Data e)).
      now apply in_map.
  - split; [|split]; assumption.
Qed.

Lemma turn_options s t : options (turn s t) = options s.
Proof.
  destruct t as [r p now rnd| |id]; cbn [MCPService.turn].
  - unfold MCPService.enqueue.
    destruct (match MCPService.smartRoutingEnabled _, MCPService.model Data r
              with
              | true, None => _
              | _, _ => _
              end) as [r1 w2].
    cbn [MCPService.processingQueue].
    destruct (MCPService.processingQueue _ _ s); [reflexivity|].
    match goal with
    | |- options (drain ?s1 ?n) = _ =>
        destruct (drain_dispatches s1 n) as (_ & H & _); now rewrite H
    end.
  - unfold MCPService.complete.
    destruct (inflight s) as [[id r]|]; [|reflexivity].
    match goal with
    | |- options (drain ?s1 ?n) = _ =>
        destruct (drain_dispatches s1 n) as (_ & H & _); now rewrite H
    end.
  - unfold MCPService.timeoutFires.
    destruct (existsb _ _); [|reflexivity].
    destruct (JsMap.has _ _); reflexivity.
Qed.

Lemma run_serves ts : forall requests s,
  serves requests s ->
  serves (requests ++ enqueuedRequests (options s) ts) (run s ts)
  /\ options (run s ts) = options s.
Proof.
  induction ts as [|t ts IH]; intros requests s Hserves.
  - cbn. now rewrite app_nil_r.
  - change (run s (t :: ts)) with (run (turn s t) ts).
    assert (Hstep : serves (requests ++ enqueuedRequests (options s) [t])
                      (turn s t)).
    { destruct t as [r p now rnd| |id];
        cbn [MCPService.turn enqueuedRequests flat_map app].
      - now apply enqueue_serves.
      - rewrite app_nil_r. now apply complete_serves.
      - rewrite app_nil_r. now apply timeoutFires_serves. }
    destruct (IH _ _ Hstep) as [H Ho].
    rewrite turn_options in H, Ho. split; [|exact Ho].
    change (t :: ts) with ([t] ++ ts).
    now rewrite enqueuedRequests_app, app_assoc.
Qed.

Lemma create_serves o w :
  serves [] (MCPService.create Data Embedding o w).
Proof. split; [|split]; cbn; intros; tauto. Qed.
End OwnFacts.

(** What [enqueue] dispatches on a service whose drain loop is not
    running: the request it has just put in the queue or one that was
    waiting, executed at the time of the call. *)
Lemma enqueue_dispatches :
  forall (Data E : Type) (getE : string -> E) (cos : E -> E -> Q)
         (num : Q -> string) (fetch : nat -> MCPService.FetchOutcome)
         (s : MCPService.Service Data E) (r : MCPService.AIRequest Data)
         (p : MCPService.QueuePriority) (now : Z) (rnd : string),
    MCPService.processingQueue _ _ s = false ->
    match
      MCPService.inflight _ _
        (MCPService.enqueue Data E getE cos num fetch s r p now rnd)
    with
    | Some (next, r') =>
        exists request w,
          ((next = MCPService.requestId now rnd
            /\ request = queued (MCPService.options _ _ s) r)
           \/ exists e,
                In (next, e) (MCPService.requestQueue _ _ s)
                /\ request = MCPService.request Data e)
          /\ MCPService.clock _ _ w = now
          /\ r' = snd (MCPService.executeRequest Data E getE cos num fetch
                         (MCPService.options _ _ s) w request 0%nat)
    | None => True
    end.
Proof.
  intros Data E getE cos num fetch s r p now rnd Hidle.
  unfold MCPService.enqueue.
  assert (Hrouted :
            fst (match MCPService.smartRoutingEnabled (MCPService.options _ _ s),
                       MCPService.model Data r with
                 | true, None =>
                     (MCPService.with_model Data r
                        (MCPService.selectOptimalModel Data
                           (MCPService.options _ _ s) r),
                      MCPService.track Data E "mcp" "smart_routing"
                        (MCPService.track Data E "request" "mcp_request"
                           (MCPService.world _ _ s)))
                 | _, _ =>
                     (r, MCPService.track Data E "request" "mcp_request"
                           (MCPService.world _ _ s))
                 end) = queued (MCPService.options _ _ s) r).
  { unfold queued.
    destruct (MCPService.smartRoutingEnabled _), (MCPService.model Data r);
      reflexivity. }
  destruct (match MCPService.smartRoutingEnabled _, MCPService.model Data r with
            | true, None => _
            | _, _ => _
            end) as [r1 w2].
  cbn [fst] in Hrouted. subst r1.
  cbn [MCPService.processingQueue]. rewrite Hidle.
  match goal with
  | |- context [MCPService.drain _ _ _ _ _ _ ?s1 ?n] =>
      destruct (drain_dispatches Data E getE cos num fetch s1 n)
        as (_ & _ & _ & H4)
  end.
  destruct (MCPService.inflight _ _ _) as [[next r']|]; [|exact I].
  destruct H4 as (e & Hin & ->).
  cbn [MCPService.requestQueue MCPService.options MCPService.world] in *.
  exists (MCPService.request Data e), (MCPService.at_time Data E now w2).
  split; [|split; reflexivity].
  apply In_set in Hin. destruct Hin as [[-> ->]|Hin].
  - left. split; reflexivity.
  - right. now exists e.
Qed.

(** C2, as the code has it.  [executeRequest] throws nothing: it returns
    the response of its last attempt or, when that attempt threw and
    the retries are exhausted, an error response with [success = false]
    and the message of the error of the last call of the provider.  The
    drain loop - entered when a request is enqueued while it does not
    run, and again when an execution completes - dispatches a request
    of the queue and keeps, under the id of that request, the response
    of [executeRequest] to it; when the execution completes, the promise
    of that id is resolved with that response.  So on a service that starts empty every promise that is
    resolved is resolved with a response of [executeRequest] to the
    request enqueued under its id, and every other settlement is the
    rejection, with the error [Request timeout], of the promise of a
    request enqueued; when the ids are distinct no promise is settled
    twice, so that a request timed out gets no response.  A request
    that is still in the queue when its timeout fires is removed from
    the queue and its promise is rejected. *)
Theorem C2_settlements :
  forall (Data E : Type) (getE : string -> E) (cos : E -> E -> Q)
         (num : Q -> string) (fetch : nat -> MCPService.FetchOutcome),
    let executeRequest :=
      MCPService.executeRequest Data E getE cos num fetch in
    let attempt := MCPService.attempt Data E getE cos num fetch in
    let run := MCPService.run Data E getE cos num fetch in
    let complete := MCPService.complete Data E getE cos num fetch in
    let settled := MCPService.settled Data E in
    (forall o w request,
       let out := executeRequest o w request 0%nat in
       let r := MCPService.response _ (snd out) in
       (exists w0, attempt o w0 request = (fst out, inl (snd out)))
       \/ (exists w0 w1 err,
             attempt o w0 request = (w1, inr err)
             /\ failureMessage
                  (MCPService.result
                     (fetch (pred (MCPService.calls _ _ (fst out)))))
                = Some err
             /\ snd out = MCPService.errorResponse Data err
             /\ MCPService.success _ r = false
             /\ MCPService.error _ r = Some err))
    /\ (forall s id r,
          MCPService.inflight _ _ s = Some (id, r) ->
          settled (complete s) = settled s ++ [(id, MCPService.Resolved _ r)]
          /\ match MCPService.inflight _ _ (complete s) with
             | Some (next, r') =>
                 exists e,
                   In (next, e) (MCPService.requestQueue _ _ s)
                   /\ r' = snd (executeRequest (MCPService.options _ _ s)
                                  (MCPService.world _ _ s)
                                  (MCPService.request Data e) 0%nat)
             | None => True
             end)
    /\ (forall s r p now rnd,
          MCPService.processingQueue _ _ s = false ->
          match
            MCPService.inflight _ _
              (MCPService.enqueue Data E getE cos num fetch s r p now rnd)
          with
          | Some (next, r') =>
              exists request w,
                ((next = MCPService.requestId now rnd
                  /\ request = queued (MCPService.options _ _ s) r)
                 \/ exists e,
                      In (next, e) (MCPService.requestQueue _ _ s)
                      /\ request = MCPService.request Data e)
                /\ MCPService.clock _ _ w = now
                /\ r' = snd (executeRequest (MCPService.options _ _ s) w
                               request 0%nat)
          | None => True
          end)
    /\ (forall o w0 ts id st,
          In (id, st) (settled (run (MCPService.create Data E o w0) ts)) ->
          settles (E := E) getE cos num fetch o (enqueuedRequests o ts) id st)
    /\ (forall o w0 ts,
          NoDup (enqueuedIds ts) ->
          let s := run (MCPService.create Data E o w0) ts in
          NoDup (map fst (settled s))
          /\ (forall id st st',
                In (id, st) (settled s) -> In (id, st') (settled s) ->
                st = st')
          /\ (forall id request request',
                In (id, request) (enqueuedRequests o ts) ->
                In (id, request') (enqueuedRequests o ts) ->
                request = request'))
    /\ (forall s id,
          JsMap.has id (MCPService.requestQueue _ _ s) = true ->
          In id (map fst (MCPService.timers _ _ s)) ->
          let s' := MCPService.timeoutFires Data E s id in
          settled s'
          = settled s ++ [(id, MCPService.Rejected Data "Request timeout")]
          /\ JsMap.has id (MCPService.requestQueue _ _ s') = false
          /\ MCPService.inflight _ _ s' = MCPService.inflight _ _ s).
Proof.
  intros Data E getE cos num fetch executeRequest attempt run complete settled.
  split; [|split; [|split; [|split; [|split]]]].
  - intros o w request out r.
    destruct (executeRequest_outcome Data E getE cos num fetch o w request 0)
      as [H|(w0 & w1 & err & Hatt & Hout & Hm)]; [now left|].
    right. exists w0, w1, err. fold executeRequest in Hout, Hm.
    fold out in Hout, Hm. unfold r. rewrite Hout in *. cbn [fst snd] in *.
    repeat split; assumption.
  - intros s id r Hfly. unfold complete, MCPService.complete. rewrite Hfly.
    match goal with
    | |- context [MCPService.drain _ _ _ _ _ _ ?s1 ?now] =>
        destruct (drain_dispatches Data E getE cos num fetch s1 now)
          as (H1 & _ & _ & H4)
    end.
    split; [exact H1|].
    cbn [MCPService.requestQueue MCPService.options MCPService.world] in H4.
    rewrite at_time_clock in H4. exact H4.
  - intros s r p now rnd Hidle.
    now apply enqueue_dispatches.
  - intros o w0 ts id st Hin.
    destruct (run_serves Data E getE cos num fetch ts []
                (MCPService.create Data E o w0)
                (create_serves Data E getE cos num fetch o w0))
      as [(_ & _ & Hs) Ho].
    fold run in Hs, Ho. rewrite Ho in Hs. cbn [app MCPService.options
      MCPService.create] in Hs.
    now apply Hs.
  - intros o w0 ts Hnd s.
    pose proof (run_ids Data E getE cos num fetch ts
                  (MCPService.create Data E o w0)) as Hperm.
    cbn [knownIds MCPService.create MCPService.settled MCPService.inflight
         MCPService.requestQueue JsMap.keys map app] in Hperm.
    specialize (Hperm (fun _ => eq_refl) Hnd).
    fold run in Hperm. fold s in Hperm.
    assert (Hnd' : NoDup (map fst (settled s))).
    { apply Permutation_sym in Hperm.
      pose proof (Permutation_NoDup Hperm Hnd) as H.
      unfold knownIds in H. now apply NoDup_app_remove_r in H. }
    split; [exact Hnd'|]. split.
    + now apply NoDup_keys_functional.
    + apply NoDup_keys_functional. now rewrite enqueuedRequests_ids.
  - intros s id Hq Ht s'. unfold s', MCPService.timeoutFires.
    assert (Hex : existsb (fun t => String.eqb (fst t) id)
                    (MCPService.timers _ _ s) = true).
    { apply existsb_exists. apply in_map_iff in Ht.
      destruct Ht as (t & <- & Hin). exists t. split; [assumption|].
      apply String.eqb_refl. }
    rewrite Hex, Hq. cbn. split; [reflexivity|].
    split; [apply has_delete_same | reflexivity].
Qed.

(** Two requests are enqueued one millisecond apart; the provider
    takes 40 s.  The timeout of the second fires while it waits, and
    then the execution of the first completes.  The promise of the
    first is resolved with a response of [executeRequest] to the first
    request; the promise of the second is rejected, and is not resolved
    with any response. *)
Lemma C2_settlements_witness :
  let ts :=
    [MCPService.Enqueue Sample.Data (Sample.request "first")
       MCPService.p_normal 0 "a";
     MCPService.Enqueue Sample.Data (Sample.request "second")
       MCPService.p_normal 1 "b";
     MCPService.TimeoutFires Sample.Data "req_1_b";
     MCPService.Complete Sample.Data] in
  let s := Sample.run_slow (Sample.service MCPService.defaultOptions) ts in
  Sample.outcomes s
  = [("req_1_b", "Request timeout"); ("req_0_a", "resolved")]
  /\ (forall r,
        In ("req_0_a", MCPService.Resolved _ r) (MCPService.settled _ _ s) ->
        responseTo (E := Sample.Embedding) Sample.getEmbedding
          Sample.cosineSimilarity Sample.numToString Sample.slow
          MCPService.defaultOptions (Sample.request "first") r)
  /\ (forall r,
        ~ In ("req_1_b", MCPService.Resolved _ r) (MCPService.settled _ _ s)).
Proof.
  intros ts s.
  destruct (C2_settlements Sample.Data Sample.Embedding Sample.getEmbedding
              Sample.cosineSimilarity Sample.numToString Sample.slow)
    as (_ & _ & _ & Hown & Honce & _).
  split; [vm_compute; reflexivity|]. split.
  - intros r Hin.
    destruct (Hown MCPService.defaultOptions Sample.world0 ts _ _ Hin)
      as (request & Hreq & Hr).
    destruct Hreq as [Hreq|[Hreq|[]]].
    + injection Hreq as <-. exact Hr.
    + discriminate Hreq.
  - intros r Hin.
    destruct (Honce MCPService.defaultOptions Sample.world0 ts)
      as (_ & Hfun & _).
    + vm_compute. repeat constructor; simpl; intuition discriminate.
    + assert (Hrej : In ("req_1_b",
                         MCPService.Rejected Sample.Data "Request timeout")
                       (MCPService.settled _ _ s))
        by (vm_compute; now left).
      discriminate (Hfun _ _ _ Hin Hrej).
Defined.

(** While a first request is being executed (its provider call takes
    40 s), a second one waits in the queue; its timeout fires 30 s after
    it was enqueued, and its promise is rejected.  It never gets a
    response. *)
Lemma C2_counterexample_timeout_rejects :
  let s :=
    Sample.run_slow Sample.two_enqueued
      [MCPService.TimeoutFires Sample.Data "req_1_b"; MCPService.Complete _]
  in
  Sample.outcomes s
  = [("req_1_b", "Request timeout"); ("req_0_a", "resolved")]
  /\ MCPService.requestQueue _ _ s = []
  /\ MCPService.inflight _ _ s = None.
Proof. vm_compute. repeat split. Qed.
